(** * aax-mp3: a shallow embedding of [aax-mp3.py]

    The script converts an audiobook container into per-chapter MP3 files by
    driving [ffprobe] and [ffmpeg].  This development embeds the name
    sanitizer [safe_name], the [Ffmpeg] wrapper (probe, transcode, split) and
    the [convert] pipeline, and states the properties of the design document
    against them.

    Conventions.
    - A Python [str] is a sequence of Unicode code points: [list N].
    - A Python [float] is an IEEE-754 binary64 value: [spec_float] with
      [prec = 53] and [emax = 1024].
    - A coroutine that talks to the outside world is a function of the
      world and of the invocations issued so far; it returns a value or the
      exception it raises, together with the extended list of invocations. *)

From Stdlib Require Import Ascii String.
From Stdlib Require Import List ZArith NArith PArith Lia Bool.
From Stdlib Require Import Floats.SpecFloat.
Import ListNotations.

Set Warnings "-register-all".

(** ** Python strings *)

Module PyStr.

Definition str := list N.

(** [lit "abc"] is the Python literal ["abc"]. *)
Definition lit (s : string) : str := map N_of_ascii (list_ascii_of_string s).

(** The quotation mark, U+0022. *)
Definition dquote : N := 34%N.

Definition str_eqb (a b : str) : bool :=
  if list_eq_dec N.eq_dec a b then true else false.

Definition is_empty {A} (s : list A) : bool :=
  match s with [] => true | _ :: _ => false end.

(** [str.isspace] on one code point; the same set is matched by [\s] in a
    [str] pattern of [re] and stripped by [str.strip()]. *)
Definition isspace (c : N) : bool :=
  ((9 <=? c) && (c <=? 13) || (28 <=? c) && (c <=? 32)
   || (c =? 133) || (c =? 160) || (c =? 5760)
   || (8192 <=? c) && (c <=? 8202)
   || (c =? 8232) || (c =? 8233) || (c =? 8239) || (c =? 8287)
   || (c =? 12288))%N.

Fixpoint lstrip (s : str) : str :=
  match s with
  | [] => []
  | c :: t => if isspace c then lstrip t else s
  end.

Definition rstrip (s : str) : str := rev (lstrip (rev s)).

(** [s.strip()] *)
Definition strip (s : str) : str := rstrip (lstrip s).

(** [re.sub("[class]+", repl, s)] for a character class [p]: every maximal
    run of characters of the class is replaced by one copy of [repl].
    [in_run] tells that the previous character belonged to the class. *)
Fixpoint sub_runs (p : N -> bool) (repl : str) (in_run : bool) (s : str) : str :=
  match s with
  | [] => []
  | c :: t =>
      if p c then
        (if in_run then sub_runs p repl true t
         else repl ++ sub_runs p repl true t)
      else c :: sub_runs p repl false t
  end.

Definition re_sub_plus (p : N -> bool) (repl : str) (s : str) : str :=
  sub_runs p repl false s.

(** [sep.join(parts)] *)
Fixpoint join (sep : str) (parts : list str) : str :=
  match parts with
  | [] => []
  | [x] => x
  | x :: rest => x ++ sep ++ join sep rest
  end.

End PyStr.
Import PyStr.

(** ** The name sanitizer *)

(** The character class of the first substitution: the nine characters
    that Windows refuses in a file name (less-than, greater-than, colon,
    quotation mark, slash, backslash, bar, question mark, asterisk). *)
Definition reserved_chars : str := lit "<>:" ++ [dquote] ++ lit "/\|?*".

Definition is_reserved (c : N) : bool := existsb (N.eqb c) reserved_chars.

(** [safe_name(name, fallback)] *)
Definition safe_name (name fallback : str) : str :=
  let name := if is_empty (strip name) then fallback else strip name in
  let name := re_sub_plus is_reserved (lit "_") name in
  let name := strip (re_sub_plus isspace (lit " ") name) in
  firstn 180 name.

(** Predicates on sanitized names. *)

Definition no_reserved (s : str) : bool := forallb (fun c => negb (is_reserved c)) s.

(** Every whitespace character is a single space that is not followed by
    another whitespace character. *)
Fixpoint ws_collapsed (s : str) : bool :=
  match s with
  | [] => true
  | c :: t =>
      (if isspace c
       then (c =? 32)%N && match t with [] => true | d :: _ => negb (isspace d) end
       else true)
      && ws_collapsed t
  end.

Definition no_leading_ws (s : str) : bool :=
  match s with [] => true | c :: _ => negb (isspace c) end.

Definition no_trailing_ws (s : str) : bool := no_leading_ws (rev s).

Definition trimmed (s : str) : bool := no_leading_ws s && no_trailing_ws s.

(** ** Numbers and their text *)

Module PyNum.

Definition is_digit (c : N) : bool := ((48 <=? c) && (c <=? 57))%N.

Fixpoint str_of_uint (d : Decimal.uint) : str :=
  match d with
  | Decimal.Nil => []
  | Decimal.D0 r => 48%N :: str_of_uint r
  | Decimal.D1 r => 49%N :: str_of_uint r
  | Decimal.D2 r => 50%N :: str_of_uint r
  | Decimal.D3 r => 51%N :: str_of_uint r
  | Decimal.D4 r => 52%N :: str_of_uint r
  | Decimal.D5 r => 53%N :: str_of_uint r
  | Decimal.D6 r => 54%N :: str_of_uint r
  | Decimal.D7 r => 55%N :: str_of_uint r
  | Decimal.D8 r => 56%N :: str_of_uint r
  | Decimal.D9 r => 57%N :: str_of_uint r
  end.

(** [str(n)] for a non-negative [int]. *)
Definition str_of_N (n : N) : str := str_of_uint (N.to_uint n).

(** Left padding of a digit string with zeros up to [width]. *)
Definition zfill (width : nat) (s : str) : str :=
  repeat 48%N (width - length s) ++ s.

(** The format [{i:03d}] for a non-negative [int]. *)
Definition format_03d (i : N) : str := zfill 3 (str_of_N i).

(** binary64 *)
Definition prec : Z := 53.
Definition emax : Z := 1024.
Definition float := spec_float.

Definition fzero : float := S754_zero false.
Definition fsub : float -> float -> float := SFsub prec emax.
Definition fltb : float -> float -> bool := SFltb.
Definition is_nan (x : float) : bool :=
  match x with S754_nan => true | _ => false end.
Definition is_finite (x : float) : bool :=
  match x with S754_zero _ | S754_finite _ _ _ => true | _ => false end.
Definition valid_float : float -> bool := valid_binary prec emax.

(** [max(a, b)] on two floats: the first argument is kept unless the second
    is strictly greater. *)
Definition py_max (a b : float) : float := if fltb a b then b else a.

(** [a / b] rounded to the nearest integer, ties to the even one ([b > 0]). *)
Definition div_half_even (a b : N) : N :=
  let q := (a / b)%N in
  let r := (a mod b)%N in
  match (2 * r ?= b)%N with
  | Lt => q
  | Gt => (q + 1)%N
  | Eq => if N.even q then q else (q + 1)%N
  end.

(** [m * 2^e * 10^6] rounded to the nearest integer, ties to even. *)
Definition scaled6 (m : positive) (e : Z) : N :=
  match e with
  | Z0 => (Npos m * 1000000)%N
  | Zpos p => (Npos m * 2 ^ Npos p * 1000000)%N
  | Zneg p => div_half_even (Npos m * 1000000) (2 ^ Npos p)
  end.

(** A count of millionths written with a decimal point. *)
Definition fixed6 (n : N) : str :=
  let d := zfill 7 (str_of_N n) in
  firstn (length d - 6) d ++ lit "." ++ skipn (length d - 6) d.

Definition sign_str (s : bool) : str := if s then lit "-" else [].

(** The format [{x:.6f}] for a [float]. *)
Definition format_6f (x : float) : str :=
  match x with
  | S754_nan => lit "nan"
  | S754_infinity s => sign_str s ++ lit "inf"
  | S754_zero s => sign_str s ++ fixed6 0
  | S754_finite s m e => sign_str s ++ fixed6 (scaled6 m e)
  end.

(** The shape [-?digits.dddddd]. *)
Definition all_digits (s : str) : bool := forallb is_digit s.

Definition unsigned_fixed6 (s : str) : bool :=
  let k := (length s - 7)%nat in
  (8 <=? length s)%nat
  && all_digits (firstn k s)
  && match skipn k s with
     | dot :: frac => (dot =? 46)%N && all_digits frac && (length frac =? 6)%nat
     | [] => false
     end.

Definition is_fixed6 (s : str) : bool :=
  match s with
  | 45%N :: t => unsigned_fixed6 t
  | _ => unsigned_fixed6 s
  end.

(** The decimal [d * 10^e10] with sign [neg], rounded to binary64. *)
Definition float_of_decimal (neg : bool) (d : N) (e10 : Z) : float :=
  match d with
  | N0 => S754_zero neg
  | Npos p =>
      match e10 with
      | Zneg k => SFdiv prec emax (S754_finite neg p 0) (S754_finite false (10 ^ k) 0)
      | _ => binary_normalize prec emax (cond_Zopp neg (Zpos p * 10 ^ e10)) 0 false
      end
  end.

End PyNum.
Import PyNum.

(** ** Exceptions and results *)

Inductive exn : Type :=
| JSONDecodeError
| KeyError
| TypeError
| ValueError
| OverflowError
| OSError.

Inductive result (A : Type) : Type :=
| Ok (a : A)
| Raise (e : exn).
Arguments Ok {A} a.
Arguments Raise {A} e.

Definition is_ok {A} (r : result A) : bool :=
  match r with Ok _ => true | Raise _ => false end.

Definition rbind {A B} (r : result A) (k : A -> result B) : result B :=
  match r with
  | Ok a => k a
  | Raise e => Raise e
  end.

(** ** [float(str)] *)

Module PyFloat.

Definition lower (c : N) : N :=
  if ((65 <=? c) && (c <=? 90))%N then (c + 32)%N else c.

(** The whitespace that [float] strips from both ends of its argument. *)
Definition float_space (c : N) : bool :=
  isspace c && negb ((28 <=? c) && (c <=? 31))%N.

Fixpoint lstrip_by (p : N -> bool) (s : str) : str :=
  match s with
  | [] => []
  | c :: t => if p c then lstrip_by p t else s
  end.

Definition strip_by (p : N -> bool) (s : str) : str :=
  rev (lstrip_by p (rev (lstrip_by p s))).

(** Underscores are dropped when each stands between two digits; any other
    underscore makes the literal invalid. *)
Fixpoint strip_underscores (prev : N) (s : str) : option str :=
  match s with
  | [] => if (prev =? 95)%N then None else Some []
  | c :: t =>
      if (c =? 95)%N then
        (if is_digit prev then strip_underscores c t else None)
      else if (prev =? 95)%N && negb (is_digit c) then None
      else option_map (cons c) (strip_underscores c t)
  end.

(** Reads a run of digits, continuing the value [acc]; returns the value,
    the number of digits read and the rest. *)
Fixpoint span_digits (s : str) (acc : N) (n : nat) : N * nat * str :=
  match s with
  | c :: t =>
      if is_digit c then span_digits t (acc * 10 + (c - 48))%N (S n)
      else (acc, n, s)
  | [] => (acc, n, [])
  end.

Definition split_sign (s : str) : bool * str :=
  match s with
  | 43%N :: t => (false, t)
  | 45%N :: t => (true, t)
  | _ => (false, s)
  end.

Definition parse_decimal (neg : bool) (s : str) : option float :=
  let '(ip, n1, r1) := span_digits s 0 0 in
  let '(m, n2, r2) :=
    match r1 with
    | 46%N :: t => span_digits t ip 0
    | _ => (ip, 0%nat, r1)
    end in
  if (n1 + n2 =? 0)%nat then None
  else
    match r2 with
    | [] => Some (float_of_decimal neg m (- Z.of_nat n2))
    | c :: t =>
        if ((c =? 101) || (c =? 69))%N then
          let '(eneg, t') := split_sign t in
          let '(ev, n3, r3) := span_digits t' 0 0 in
          if (n3 =? 0)%nat || negb (is_empty r3) then None
          else
            let e := Z.of_N ev in
            Some (float_of_decimal neg m ((if eneg then - e else e) - Z.of_nat n2))
        else None
    end.

(** The digit zero of each decimal digit system of Unicode 14.0, the
    version of Python 3.11; the nine code points after a zero are the
    digits 1 to 9 of its system.  Later versions of Unicode add systems. *)
Definition decimal_zeros : list N :=
  [48; 1632; 1776; 1984; 2406; 2534; 2662; 2790; 2918; 3046; 3174; 3302;
   3430; 3558; 3664; 3792; 3872; 4160; 4240; 6112; 6160; 6470; 6608; 6784;
   6800; 6992; 7088; 7232; 7248; 42528; 43216; 43264; 43472; 43504; 43600;
   44016; 65296; 66720; 68912; 69734; 69872; 69942; 70096; 70384; 70736;
   70864; 71248; 71360; 71472; 71904; 72016; 72784; 73040; 73120; 92768;
   92864; 93008; 120782; 120792; 120802; 120812; 120822; 123200; 123632;
   125264; 130032]%N.

(** [Py_UNICODE_TODECIMAL]: the value of a decimal digit of any script. *)
Definition unicode_decimal (c : N) : option N :=
  match find (fun z => (z <=? c) && (c <? z + 10))%N decimal_zeros with
  | Some z => Some (c - z)%N
  | None => None
  end.

(** What [float] reads of a [str] that has a character above ASCII:
    blanks become spaces and decimal digits of any script become ASCII
    digits; the text ends with a question mark at the first other character
    above ASCII. *)
Fixpoint transform_decimal_and_space (s : str) : str :=
  match s with
  | [] => []
  | c :: t =>
      if (c <? 127)%N then c :: transform_decimal_and_space t
      else if isspace c then 32%N :: transform_decimal_and_space t
      else
        match unicode_decimal c with
        | Some d => (48 + d)%N :: transform_decimal_and_space t
        | None => [63%N]
        end
  end.

Definition to_ascii (s : str) : str :=
  if forallb (fun c => (c <? 128)%N) s then s else transform_decimal_and_space s.

(** [float(s)] for a [str]: optional blanks, an optional sign, then [inf],
    [infinity] or [nan] in any letter case, or a decimal literal with
    optional fraction and exponent, its digits of any script. *)
Definition float_of_str (s : str) : option float :=
  match strip_underscores 0 (strip_by float_space (to_ascii s)) with
  | None => None
  | Some u =>
      let '(neg, body) := split_sign u in
      let word := map lower body in
      if str_eqb word (lit "inf") || str_eqb word (lit "infinity")
      then Some (S754_infinity neg)
      else if str_eqb word (lit "nan") then Some S754_nan
      else parse_decimal neg body
  end.

(** [float(n)] for an [int]. *)
Definition float_of_int (z : Z) : result float :=
  match binary_normalize prec emax z 0 false with
  | S754_infinity _ => Raise OverflowError
  | x => Ok x
  end.

End PyFloat.
Import PyFloat.

(** ** JSON values and [json.JSONDecoder().decode] *)

Module Json.

Inductive json : Type :=
| JNull
| JBool (b : bool)
| JInt (z : Z)
| JFloat (f : float)
| JStr (s : str)
| JArr (items : list json)
| JObj (fields : list (str * json)).

(** [d[k] = v] on a [dict] kept as a list in insertion order. *)
Fixpoint dict_set (k : str) (v : json) (d : list (str * json)) : list (str * json) :=
  match d with
  | [] => [(k, v)]
  | (k', v') :: r => if str_eqb k k' then (k, v) :: r else (k', v') :: dict_set k v r
  end.

Fixpoint dict_get (d : list (str * json)) (k : str) : option json :=
  match d with
  | [] => None
  | (k', v) :: r => if str_eqb k k' then Some v else dict_get r k
  end.

Definition json_ws (c : N) : bool :=
  ((c =? 32) || (c =? 9) || (c =? 10) || (c =? 13))%N.

Definition skip_ws (s : str) : str := lstrip_by json_ws s.

Fixpoint starts_with (p s : str) : bool :=
  match p, s with
  | [], _ => true
  | a :: p', b :: s' => (a =? b)%N && starts_with p' s'
  | _ :: _, [] => false
  end.

Definition hex_val (c : N) : option N :=
  if is_digit c then Some (c - 48)%N
  else if ((97 <=? c) && (c <=? 102))%N then Some (c - 87)%N
  else if ((65 <=? c) && (c <=? 70))%N then Some (c - 55)%N
  else None.

Definition hex4 (s : str) : option (N * str) :=
  match s with
  | a :: b :: c :: d :: r =>
      match hex_val a, hex_val b, hex_val c, hex_val d with
      | Some x, Some y, Some z, Some w => Some (((x * 16 + y) * 16 + z) * 16 + w, r)%N
      | _, _, _, _ => None
      end
  | _ => None
  end.

Definition is_high_surrogate (c : N) : bool := ((55296 <=? c) && (c <=? 56319))%N.
Definition is_low_surrogate (c : N) : bool := ((56320 <=? c) && (c <=? 57343))%N.
Definition join_surrogates (h l : N) : N :=
  (65536 + ((h - 55296) * 1024 + (l - 56320)))%N.

Definition unescape (c : N) : option N :=
  if (c =? 34)%N then Some 34%N
  else if (c =? 92)%N then Some 92%N
  else if (c =? 47)%N then Some 47%N
  else if (c =? 98)%N then Some 8%N
  else if (c =? 102)%N then Some 12%N
  else if (c =? 110)%N then Some 10%N
  else if (c =? 114)%N then Some 13%N
  else if (c =? 116)%N then Some 9%N
  else None.

(** The body of a string literal, after its opening quotation mark; [acc]
    holds the decoded characters in reverse. *)
Fixpoint scan_string (fuel : nat) (s : str) (acc : str) : option (str * str) :=
  match fuel with
  | O => None
  | S f =>
      match s with
      | [] => None
      | c :: t =>
          if (c =? 34)%N then Some (rev acc, t)
          else if (c =? 92)%N then
            match t with
            | [] => None
            | e :: u =>
                if (e =? 117)%N then
                  match hex4 u with
                  | None => None
                  | Some (h, u1) =>
                      match u1 with
                      | 92%N :: 117%N :: u2 =>
                          if is_high_surrogate h && (5 <=? length u2)%nat then
                            match hex4 u2 with
                            | None => None
                            | Some (l, u3) =>
                                if is_low_surrogate l
                                then scan_string f u3 (join_surrogates h l :: acc)
                                else scan_string f u1 (h :: acc)
                            end
                          else scan_string f u1 (h :: acc)
                      | _ => scan_string f u1 (h :: acc)
                      end
                  end
                else
                  match unescape e with
                  | Some d => scan_string f u (d :: acc)
                  | None => None
                  end
            end
          else if (c <? 32)%N then None
          else scan_string f t (c :: acc)
      end
  end.

Definition scan_number (s : str) : option (json * str) :=
  let '(neg, s1) := match s with 45%N :: t => (true, t) | _ => (false, s) end in
  match s1 with
  | [] => None
  | c :: t =>
      if is_digit c then
        let '(ip, r1) :=
          if (c =? 48)%N then (0%N, t)
          else let '(v, _, r) := span_digits s1 0 0 in (v, r) in
        let '(m, n2, r2) :=
          match r1 with
          | 46%N :: d :: u =>
              if is_digit d then span_digits (d :: u) ip 0 else (ip, 0%nat, r1)
          | _ => (ip, 0%nat, r1)
          end in
        let '(ev, n3, r3) :=
          match r2 with
          | e :: u =>
              if ((e =? 101) || (e =? 69))%N then
                let '(eneg, u') := split_sign u in
                let '(v, n, r) := span_digits u' 0 0 in
                if (n =? 0)%nat then (0%Z, 0%nat, r2)
                else ((if eneg then - Z.of_N v else Z.of_N v)%Z, n, r)
              else (0%Z, 0%nat, r2)
          | [] => (0%Z, 0%nat, r2)
          end in
        if ((n2 =? 0) && (n3 =? 0))%nat
        then Some (JInt (if neg then - Z.of_N ip else Z.of_N ip), r3)
        else Some (JFloat (float_of_decimal neg m (ev - Z.of_nat n2)), r3)
      else None
  end.

(** [scan_once] reads one value at the head of [s]; [parse_members] reads
    the members of an object after its opening brace and [parse_elements]
    the elements of an array after its opening bracket. *)
Fixpoint scan_once (fuel : nat) (s : str) {struct fuel} : option (json * str) :=
  match fuel with
  | O => None
  | S f =>
      match s with
      | [] => None
      | c :: t =>
          if (c =? 34)%N then
            match scan_string (S (length t)) t [] with
            | Some (v, r) => Some (JStr v, r)
            | None => None
            end
          else if (c =? 123)%N then
            match skip_ws t with
            | 125%N :: r => Some (JObj [], r)
            | t' => parse_members f t' []
            end
          else if (c =? 91)%N then
            match skip_ws t with
            | 93%N :: r => Some (JArr [], r)
            | t' => parse_elements f t' []
            end
          else if starts_with (lit "null") s then Some (JNull, skipn 4 s)
          else if starts_with (lit "true") s then Some (JBool true, skipn 4 s)
          else if starts_with (lit "false") s then Some (JBool false, skipn 5 s)
          else if starts_with (lit "NaN") s then Some (JFloat S754_nan, skipn 3 s)
          else if starts_with (lit "Infinity") s
          then Some (JFloat (S754_infinity false), skipn 8 s)
          else if starts_with (lit "-Infinity") s
          then Some (JFloat (S754_infinity true), skipn 9 s)
          else scan_number s
      end
  end

with parse_members (fuel : nat) (s : str) (acc : list (str * json)) {struct fuel}
  : option (json * str) :=
  match fuel with
  | O => None
  | S f =>
      match s with
      | 34%N :: t =>
          match scan_string (S (length t)) t [] with
          | None => None
          | Some (k, r1) =>
              match skip_ws r1 with
              | 58%N :: r2 =>
                  match scan_once f (skip_ws r2) with
                  | None => None
                  | Some (v, r3) =>
                      let acc' := dict_set k v acc in
                      match skip_ws r3 with
                      | 125%N :: r4 => Some (JObj acc', r4)
                      | 44%N :: r4 => parse_members f (skip_ws r4) acc'
                      | _ => None
                      end
                  end
              | _ => None
              end
          end
      | _ => None
      end
  end

with parse_elements (fuel : nat) (s : str) (acc : list json) {struct fuel}
  : option (json * str) :=
  match fuel with
  | O => None
  | S f =>
      match scan_once f s with
      | None => None
      | Some (v, r1) =>
          match skip_ws r1 with
          | 93%N :: r2 => Some (JArr (rev (v :: acc)), r2)
          | 44%N :: r2 => parse_elements f (skip_ws r2) (v :: acc)
          | _ => None
          end
      end
  end.

(** [json.JSONDecoder().decode(s)]: one value between optional blanks, and
    nothing after it.  Each nested call of the scanner uses one unit of fuel
    and every second one consumes a character, so twice the length is
    enough.  The interpreter's limits on the nesting depth and on the number
    of digits of an integer literal are left out. *)
Definition json_decode (s : str) : result json :=
  match scan_once (S (2 * length s)) (skip_ws s) with
  | Some (v, r) =>
      match skip_ws r with
      | [] => Ok v
      | _ :: _ => Raise JSONDecodeError
      end
  | None => Raise JSONDecodeError
  end.

(** [v[key]] for a string key. *)
Definition py_getitem (v : json) (key : str) : result json :=
  match v with
  | JObj d =>
      match dict_get d key with
      | Some x => Ok x
      | None => Raise KeyError
      end
  | _ => Raise TypeError
  end.

(** The items that iterating over [v] yields. *)
Definition py_iter (v : json) : result (list json) :=
  match v with
  | JArr l => Ok l
  | JObj d => Ok (map (fun kv => JStr (fst kv)) d)
  | JStr s => Ok (map (fun c => JStr [c]) s)
  | _ => Raise TypeError
  end.

(** [float(v)] *)
Definition py_float (v : json) : result float :=
  match v with
  | JFloat f => Ok f
  | JInt z => float_of_int z
  | JBool b => float_of_int (if b then 1 else 0)
  | JStr s =>
      match float_of_str s with
      | Some f => Ok f
      | None => Raise ValueError
      end
  | _ => Raise TypeError
  end.

(** [enumerate(l, start)] *)
Fixpoint enumerate {A} (start : N) (l : list A) : list (N * A) :=
  match l with
  | [] => []
  | x :: r => (start, x) :: enumerate (N.succ start) r
  end.

End Json.
Import Json.

(** ** [pathlib] paths, POSIX flavour *)

Module PyPath.

Record PurePath : Type := { root : str; parts : list str }.

(** [s.split(sep)] for a one-character separator. *)
Fixpoint split (sep : N) (s : str) : list str :=
  match s with
  | [] => [[]]
  | c :: t =>
      if (c =? sep)%N then [] :: split sep t
      else
        match split sep t with
        | [] => [[c]]
        | h :: r => (c :: h) :: r
        end
  end.

Definition slash : N := 47%N.

(** [posixpath.splitroot]: exactly two leading slashes are kept as they
    are, any other number of them is one root. *)
Definition splitroot (p : str) : str * str :=
  match p with
  | 47%N :: 47%N :: 47%N :: _ => ([slash], tl p)
  | 47%N :: 47%N :: r => ([slash; slash], r)
  | 47%N :: r => ([slash], r)
  | _ => ([], p)
  end.

Definition not_slash (c : N) : bool := negb (c =? slash)%N.

Definition keep_part (x : str) : bool :=
  negb (is_empty x) && negb (str_eqb x (lit ".")).

(** [Path(p)] *)
Definition Path (p : str) : PurePath :=
  let '(rt, rel) := splitroot p in
  {| root := rt; parts := filter keep_part (split slash rel) |}.

(** [str(p)] *)
Definition path_str (p : PurePath) : str :=
  if is_empty (root p) then
    (if is_empty (parts p) then lit "." else join [slash] (parts p))
  else root p ++ join [slash] (parts p).

(** [p / key] *)
Definition truediv (p : PurePath) (key : str) : PurePath :=
  let q := Path key in
  if is_empty (root q) then {| root := root p; parts := parts p ++ parts q |}
  else q.

End PyPath.
Import PyPath.

(** ** The outside world and coroutines *)

Record Invocation : Type := { program : str; arguments : list str }.

(** What becomes of a child process: it exits with a return code after
    writing chunks of text on its two streams, or it cannot be started. *)
Inductive Completed : Type :=
| Exited (res : Z) (outputs errors : list str)
| NotStarted.

(** [spawn] answers an invocation knowing the invocations made before it;
    [mkdir] tells whether the directory can be created (or exists). *)
Record World : Type := {
  spawn : list Invocation -> Invocation -> Completed;
  mkdir : str -> bool
}.

Definition M (A : Type) : Type :=
  World -> list Invocation -> result A * list Invocation.

Definition ret {A} (a : A) : M A := fun _ tr => (Ok a, tr).

Definition raise {A} (e : exn) : M A := fun _ tr => (Raise e, tr).

Definition bind {A B} (c : M A) (k : A -> M B) : M B :=
  fun w tr =>
    match c w tr with
    | (Ok a, tr') => k a w tr'
    | (Raise e, tr') => (Raise e, tr')
    end.

Definition lift {A} (r : result A) : M A := fun _ tr => (r, tr).

Notation "x <- c1 ;; c2" := (bind c1 (fun x => c2))
  (at level 61, c1 at next level, right associativity).
Notation "' pat <- c1 ;; c2" := (bind c1 (fun x => match x with pat => c2 end))
  (at level 61, pat pattern, c1 at next level, right associativity).

Fixpoint for_each {A} (l : list A) (body : A -> M unit) : M unit :=
  match l with
  | [] => ret tt
  | x :: r => _ <- body x ;; for_each r body
  end.

(** ** [Options] and [Ffmpeg] *)

Record Options : Type := {
  input : str;
  out_path : str;
  base_out_name : str;
  title : str;
  tool : str
}.

Record Ffmpeg : Type := { ff_path : str; activate_bytes : str }.

Definition default_activate_bytes : str := lit "11bb9604".

(** [Ffmpeg.__init__]; [None] stands for an omitted argument. *)
Definition Ffmpeg_init (ff_path activate_bytes : option str) : Ffmpeg :=
  let ff_path :=
    match ff_path with
    | None => lit "c:\Program Files\fmpeg\bin"
    | Some p => p
    end in
  let activate_bytes :=
    match activate_bytes with
    | None => default_activate_bytes
    | Some b => b
    end in
  {| ff_path := ff_path; activate_bytes := activate_bytes |}.

(** [Ffmpeg.run_program]: the two streams are drained and the process is
    awaited; the caller gets the return code and the chunks of each stream.
    The invocation is recorded whether or not the program starts. *)
Definition run_program (program : str) (arguments : list str)
  : M (Z * list str * list str) :=
  fun w tr =>
    let inv := {| program := program; arguments := arguments |} in
    match spawn w tr inv with
    | Exited res outputs errors => (Ok (res, outputs, errors), tr ++ [inv])
    | NotStarted => (Raise OSError, tr ++ [inv])
    end.

(** [Ffmpeg.get_metainfo] *)
Definition get_metainfo (self : Ffmpeg) (inp : str) : M json :=
  let process_program := ff_path self ++ lit "/" ++ lit "ffprobe" in
  let process_opt := [lit "-v"; lit "error";
                      lit "-show_entries"; lit "format_tags";
                      lit "-of"; lit "json";
                      inp] in
  '(res, outputs, errors) <- run_program process_program process_opt ;;
  res <- lift (json_decode (join [] outputs)) ;;
  ret res.

(** [Ffmpeg.get_chapters] *)
Definition get_chapters (self : Ffmpeg) (inp : str) : M json :=
  let process_program := ff_path self ++ lit "/" ++ lit "ffprobe" in
  let process_opt := [lit "-v"; lit "error";
                      lit "-print_format"; lit "json";
                      lit "-show_chapters";
                      inp] in
  '(res, outputs, errors) <- run_program process_program process_opt ;;
  res <- lift (json_decode (join [] outputs)) ;;
  lift (py_getitem res (lit "chapters")).

(** [Ffmpeg.convert_aax_ap3] *)
Definition convert_aax_ap3 (self : Ffmpeg) (inp out : str) : M unit :=
  let process_program := ff_path self ++ lit "/" ++ lit "ffmpeg" in
  let process_opt := [lit "-hide_banner";
                      lit "-y";
                      lit "-activation_bytes"; activate_bytes self;
                      lit "-i"; inp;
                      lit "-codec:a"; lit "libmp3lame";
                      lit "-vn";
                      out] in
  _ <- run_program process_program process_opt ;;
  ret tt.

(** [Ffmpeg.split_ap3] *)
Definition split_ap3 (self : Ffmpeg) (inp out : str) (start dur : float)
  (title : str) : M unit :=
  let process_program := ff_path self ++ lit "/" ++ lit "ffmpeg" in
  let process_opt := [lit "-hide_banner";
                      lit "-loglevel"; lit "error";
                      lit "-y";
                      lit "-i"; inp;
                      lit "-ss"; format_6f start;
                      lit "-t"; format_6f dur;
                      lit "-map"; lit "0:a:0";
                      lit "-c"; lit "copy";
                      lit "-metadata"; lit "title=" ++ [dquote] ++ title ++ [dquote];
                      out] in
  _ <- run_program process_program process_opt ;;
  ret tt.

(** ** The pipeline *)

(** [p.mkdir(parents=True, exist_ok=True)] *)
Definition path_mkdir (p : PurePath) : M unit :=
  fun w tr => ((if mkdir w (path_str p) then Ok tt else Raise OSError), tr).

Definition temp_name : str := lit "test.mp3".

(** [max(0.0, end - start)] *)
Definition chapter_duration (start end_ : float) : float :=
  py_max fzero (fsub end_ start).

(** [f"{i:03d} - {safe_name(title, f'{i:03d} {title}')}"] *)
Definition chapter_file_title (i : N) (title : str) : str :=
  format_03d i ++ lit " - " ++ safe_name title (format_03d i ++ lit " " ++ title).

(** The body of the loop of [convert] for the [i]-th chapter [ch]. *)
Definition convert_chapter (ffmpeg : Ffmpeg) (out : PurePath) (title : str)
  (ich : N * json) : M unit :=
  let '(i, ch) := ich in
  start <- lift (rbind (py_getitem ch (lit "start_time")) py_float) ;;
  end_ <- lift (rbind (py_getitem ch (lit "end_time")) py_float) ;;
  let dur := chapter_duration start end_ in
  let file_title := chapter_file_title i title in
  let filename := file_title ++ lit ".mp3" in
  let out_path := truediv out filename in
  split_ap3 ffmpeg temp_name (path_str out_path) start dur file_title.

(** [convert(options)].  The two [logger.debug] calls only write to the
    log and are left out. *)
Definition convert (options : Options) : M unit :=
  let out := Path (out_path options) in
  _ <- path_mkdir out ;;
  let ffmpeg := Ffmpeg_init (Some (tool options)) (Some (lit "11bb9604")) in
  meta <- get_metainfo ffmpeg (input options) ;;
  _ <- convert_aax_ap3 ffmpeg (input options) temp_name ;;
  chapters <- get_chapters ffmpeg temp_name ;;
  items <- lift (py_iter chapters) ;;
  let title := title options in
  for_each (enumerate 1 items) (convert_chapter ffmpeg out title).

(** ** Invocations, as the wrapper issues them *)

Definition metainfo_invocation (self : Ffmpeg) (inp : str) : Invocation :=
  {| program := ff_path self ++ lit "/" ++ lit "ffprobe";
     arguments := [lit "-v"; lit "error"; lit "-show_entries"; lit "format_tags";
                   lit "-of"; lit "json"; inp] |}.

Definition chapters_invocation (self : Ffmpeg) (inp : str) : Invocation :=
  {| program := ff_path self ++ lit "/" ++ lit "ffprobe";
     arguments := [lit "-v"; lit "error"; lit "-print_format"; lit "json";
                   lit "-show_chapters"; inp] |}.

(** A transcode invocation of the tool in directory [dir] with credential
    [credential]. *)
Definition transcode_invocation (dir credential inp out : str) : Invocation :=
  {| program := dir ++ lit "/" ++ lit "ffmpeg";
     arguments := [lit "-hide_banner"; lit "-y";
                   lit "-activation_bytes"; credential;
                   lit "-i"; inp;
                   lit "-codec:a"; lit "libmp3lame"; lit "-vn"; out] |}.

(** A split invocation with already formatted [start] and [dur]. *)
Definition split_invocation (dir inp out start dur title : str) : Invocation :=
  {| program := dir ++ lit "/" ++ lit "ffmpeg";
     arguments := [lit "-hide_banner"; lit "-loglevel"; lit "error"; lit "-y";
                   lit "-i"; inp;
                   lit "-ss"; start;
                   lit "-t"; dur;
                   lit "-map"; lit "0:a:0";
                   lit "-c"; lit "copy";
                   lit "-metadata"; lit "title=" ++ [dquote] ++ title ++ [dquote];
                   out] |}.

(** Recognizers by the leading options of the argument list. *)
Definition is_transcode (inv : Invocation) : bool :=
  match arguments inv with
  | a :: b :: c :: _ =>
      str_eqb a (lit "-hide_banner") && str_eqb b (lit "-y")
      && str_eqb c (lit "-activation_bytes")
  | _ => false
  end.

Definition is_split (inv : Invocation) : bool :=
  match arguments inv with
  | a :: b :: _ => str_eqb a (lit "-hide_banner") && str_eqb b (lit "-loglevel")
  | _ => false
  end.

(** The wrapper object that [convert] builds from its options. *)
Definition pipeline_ffmpeg (options : Options) : Ffmpeg :=
  Ffmpeg_init (Some (tool options)) (Some (lit "11bb9604")).

(** The invocations that [convert] issues before the loop over chapters. *)
Definition pipeline_prelude (options : Options) : list Invocation :=
  [metainfo_invocation (pipeline_ffmpeg options) (input options);
   transcode_invocation (tool options) (lit "11bb9604") (input options) temp_name;
   chapters_invocation (pipeline_ffmpeg options) temp_name].

(** The split invocation of the pipeline for chapter number [i] with
    times [start] and [end_]. *)
Definition chapter_filename (i : N) (title : str) : str :=
  chapter_file_title i title ++ lit ".mp3".

Definition chapter_invocation (options : Options) (i : N) (start end_ : float)
  : Invocation :=
  split_invocation (tool options) temp_name
    (path_str (truediv (Path (out_path options)) (chapter_filename i (title options))))
    (format_6f start) (format_6f (chapter_duration start end_))
    (chapter_file_title i (title options)).

(** The start and end times of a chapter entry. *)
Definition chapter_times (ch : json) : result (float * float) :=
  rbind (rbind (py_getitem ch (lit "start_time")) py_float) (fun start =>
  rbind (rbind (py_getitem ch (lit "end_time")) py_float) (fun end_ =>
  Ok (start, end_))).

(** Options that agree on everything but [base_out_name]. *)
Definition same_but_base_out_name (o1 o2 : Options) : Prop :=
  input o1 = input o2 /\ out_path o1 = out_path o2
  /\ title o1 = title o2 /\ tool o1 = tool o2.

(** ** Sample tool outputs and worlds *)

Module Sample.

Definition quoted (s : str) : str := [dquote] ++ s ++ [dquote].

(** The text of a chapter entry with the two time fields given as JSON
    strings. *)
Definition chapter_entry (start end_ : str) : str :=
  lit "{" ++ quoted (lit "start_time") ++ lit ": " ++ quoted start ++ lit ", "
  ++ quoted (lit "end_time") ++ lit ": " ++ quoted end_ ++ lit "}".

(** The text of a chapter listing. *)
Definition chapters_output (entries : list str) : str :=
  lit "{" ++ quoted (lit "chapters") ++ lit ": [" ++ join (lit ", ") entries
  ++ lit "]}".

Definition has_argument (a : str) (inv : Invocation) : bool :=
  existsb (str_eqb a) (arguments inv).

(** A world in which the directory can be made, the metadata probe ends
    as [meta], the chapter probe as [chapters], and any other program exits
    with code 0 and no output. *)
Definition world_of (meta chapters : Completed) : World :=
  {| spawn := fun _ inv =>
       if has_argument (lit "-show_chapters") inv then chapters
       else if has_argument (lit "-show_entries") inv then meta
       else Exited 0 [] [];
     mkdir := fun _ => true |}.

Definition options : Options :=
  {| input := lit "book.aax";
     out_path := lit "out";
     base_out_name := lit "out";
     title := lit "Episode";
     tool := lit "/usr/bin" |}.

(** The value that decoding [chapter_entry start end_] gives. *)
Definition entry_value (start end_ : str) : json :=
  JObj [(lit "start_time", JStr start); (lit "end_time", JStr end_)].

(** Both probes exit with code 1 after printing a chapter listing without
    chapters. *)
Definition nonzero_exit_world : World :=
  world_of (Exited 1 [chapters_output []] []) (Exited 1 [chapters_output []] []).

(** The chapter probe exits with code 1 and prints nothing. *)
Definition failed_probe_world : World :=
  world_of (Exited 0 [lit "{}"] []) (Exited 1 [] []).

(** Three chapters: 0 to 10, 10 to 25 and 25 to 25 seconds. *)
Definition three_chapters : list (str * str) :=
  [(lit "0.000000", lit "10.000000");
   (lit "10.000000", lit "25.000000");
   (lit "25.000000", lit "25.000000")].

Definition chapters_world (chapters : list (str * str)) : World :=
  world_of (Exited 0 [lit "{}"] [])
    (Exited 0 [chapters_output (map (fun se => chapter_entry (fst se) (snd se)) chapters)] []).

(** One thousand chapters of one second each. *)
Definition thousand_chapters : list (str * str) :=
  repeat (lit "0", lit "1") 1000.

(** The chapter probe lists one entry without time fields. *)
Definition bad_entry_world : World :=
  world_of (Exited 0 [lit "{}"] [])
    (Exited 0 [chapters_output [lit "{}"]] []).

(** A chapter that ends before it starts. *)
Definition backward_entry : json := entry_value (lit "25.5") (lit "10").

(** [options] with another base output name. *)
Definition renamed_options : Options :=
  {| input := lit "book.aax";
     out_path := lit "out";
     base_out_name := lit "another";
     title := lit "Episode";
     tool := lit "/usr/bin" |}.

(** A name of 181 characters whose 180th character is a space. *)
Definition long_name : str := repeat 97%N 179 ++ lit " b".

End Sample.

From Stdlib Require Import DecimalN.


(** ** Bytes, UTF-8 and the capture of a stream *)

Module PyBytes.

(** A [bytes] object; every element is below 256. *)
Definition bytes := list N.

(** U+FFFD, which stands for what cannot be decoded. *)
Definition replacement : N := 65533%N.

Definition is_continuation (b : N) : bool := ((128 <=? b) && (b <=? 191))%N.

(** The decoder at the head of [s]: the character read, or U+FFFD for the
    longest prefix that cannot start a character, and what is left.  A
    sequence cut short by the end of the data is replaced as a whole. *)
Definition decode_step (ch : N) (r : bytes) : N * bytes :=
  if (ch <? 128)%N then (ch, r)
  else if (ch <? 194)%N then (replacement, r)
  else if (ch <? 224)%N then
    match r with
    | [] => (replacement, [])
    | ch2 :: r2 =>
        if is_continuation ch2 then ((ch - 192) * 64 + (ch2 - 128), r2)%N
        else (replacement, r)
    end
  else if (ch <? 240)%N then
    match r with
    | [] => (replacement, [])
    | ch2 :: r2 =>
        if negb (is_continuation ch2)
           || (if (ch2 <? 160)%N then (ch =? 224)%N else (ch =? 237)%N)
        then (replacement, r)
        else
          match r2 with
          | [] => (replacement, [])
          | ch3 :: r3 =>
              if is_continuation ch3
              then (((ch - 224) * 64 + (ch2 - 128)) * 64 + (ch3 - 128), r3)%N
              else (replacement, r2)
          end
    end
  else if (ch <? 245)%N then
    match r with
    | [] => (replacement, [])
    | ch2 :: r2 =>
        if negb (is_continuation ch2)
           || (if (ch2 <? 144)%N then (ch =? 240)%N else (ch =? 244)%N)
        then (replacement, r)
        else
          match r2 with
          | [] => (replacement, [])
          | ch3 :: r3 =>
              if negb (is_continuation ch3) then (replacement, r2)
              else
                match r3 with
                | [] => (replacement, [])
                | ch4 :: r4 =>
                    if is_continuation ch4
                    then ((((ch - 240) * 64 + (ch2 - 128)) * 64 + (ch3 - 128)) * 64
                          + (ch4 - 128), r4)%N
                    else (replacement, r3)
                end
          end
    end
  else (replacement, r).

Fixpoint decode_fuel (fuel : nat) (s : bytes) : str :=
  match fuel, s with
  | S f, ch :: r => let '(c, rest) := decode_step ch r in c :: decode_fuel f rest
  | _, _ => []
  end.

(** [b.decode(errors="replace")]; every step consumes a byte at least. *)
Definition decode (b : bytes) : str := decode_fuel (length b) b.

(** The UTF-8 encoding of one character. *)
Definition encode_char (c : N) : bytes :=
  if (c <? 128)%N then [c]
  else if (c <? 2048)%N then [192 + c / 64; 128 + c mod 64]%N
  else if (c <? 65536)%N then
    [224 + c / 4096; 128 + (c / 64) mod 64; 128 + c mod 64]%N
  else [240 + c / 262144; 128 + (c / 4096) mod 64; 128 + (c / 64) mod 64;
        128 + c mod 64]%N.

(** [s.encode()] for a text without surrogates. *)
Definition encode (s : str) : bytes := flat_map encode_char s.

(** The characters that UTF-8 can encode: up to U+10FFFF, surrogates
    excluded. *)
Definition is_scalar (c : N) : bool :=
  ((c <? 55296) || (57344 <=? c) && (c <? 1114112))%N.

End PyBytes.
Import PyBytes.

(** A [StreamReader] is the list of what its successive [read] calls
    return; the empty [bytes] object, or the end of the list, is the end of
    the stream. *)
Definition StreamReader := list bytes.

(** [pump_bytes(stream, prefix, results)] of [Ffmpeg.run_program]; the list
    [results] is extended in place, the function gives its final state. *)
Fixpoint pump_bytes (stream : StreamReader) (prefix : str) (results : list str)
  : list str :=
  match stream with
  | [] => results
  | line :: rest =>
      if is_empty line then results
      else
        let text := decode line in
        pump_bytes rest prefix (results ++ [text])
  end.

(** A started child process: what can be read from its two pipes and the
    code that [wait] returns. *)
Record Process : Type := {
  stdout : StreamReader;
  stderr : StreamReader;
  returncode : Z
}.

(** The part of [Ffmpeg.run_program] that follows the start of the
    process.  The two pumps run concurrently but write to lists of their
    own, so each capture is a function of its stream. *)
Definition run_process (process : Process) : Z * list str * list str :=
  let outputs := pump_bytes (stdout process) (lit "STDOUT: ") [] in
  let errors := pump_bytes (stderr process) (lit "STDERR: ") [] in
  let res := returncode process in
  (res, outputs, errors).

(** The operating system: [launch] starts a program or fails to;
    [make_dirs] tells whether the directory can be created. *)
Record OS : Type := {
  launch : list Invocation -> Invocation -> option Process;
  make_dirs : str -> bool
}.

(** The world that the wrapper sees through [run_program]. *)
Definition world_of_os (os : OS) : World :=
  {| spawn := fun tr inv =>
       match launch os tr inv with
       | Some process =>
           let '(res, outputs, errors) := run_process process in
           Exited res outputs errors
       | None => NotStarted
       end;
     mkdir := make_dirs os |}.

(** ** The command line *)

(** [DEFAULT_PATH], given what [platform.system()] returns. *)
Definition DEFAULT_PATH (system : str) : str :=
  if str_eqb system (lit "Linux") then lit "/usr/bin"
  else lit "c:\Program Files\fmpeg\bin".

(** [async_main(options)] *)
Definition async_main (options : Options) : M unit := convert options.

(** [main(input, directory, output, title, tool)], with the values that
    [click] has read from the command line; [title] is [None] when the
    option is absent.  [asyncio.run] runs the coroutine to its end. *)
Definition main (input directory output : str) (title : option str) (tool : str)
  : M unit :=
  let title :=
    match title with
    | None => output
    | Some t => t
    end in
  let options :=
    {| input := input; out_path := directory; title := title;
       base_out_name := output; tool := tool |} in
  async_main options.

(** ** What a run can tell about a child process *)

Definition is_metainfo (inv : Invocation) : bool :=
  str_eqb (nth 2 (arguments inv) []) (lit "-show_entries").

Definition is_chapters (inv : Invocation) : bool :=
  str_eqb (nth 4 (arguments inv) []) (lit "-show_chapters").

(** Of a child process: nothing but whether it started, and for the two
    probes the joined standard output, read as a success or a failure for
    the metadata and as the chapter value for the chapters. *)
Definition seen (inv : Invocation) (c : Completed) : option (result json) :=
  match c with
  | NotStarted => None
  | Exited _ outputs _ =>
      Some (if is_metainfo inv then
              rbind (json_decode (join [] outputs)) (fun _ => Ok JNull)
            else if is_chapters inv then
              rbind (json_decode (join [] outputs))
                (fun res => py_getitem res (lit "chapters"))
            else Ok JNull)
  end.

(** [int(s)] for a string of ASCII digits. *)
Definition int_of_digits (s : str) : N :=
  fold_left (fun acc c => (acc * 10 + (c - 48))%N) s 0%N.

(** The text is made of blanks only. *)
Definition is_blank (s : str) : bool := forallb isspace s.

(** ** Sample processes *)

Module SampleOS.

(** Every program starts and behaves as [process]; every directory can be
    made. *)
Definition uniform_os (process : Process) : OS :=
  {| launch := fun _ _ => Some process; make_dirs := fun _ => true |}.

(** A chapter listing without chapters, in two pieces. *)
Definition listing_pieces : list str :=
  [lit "{" ++ Sample.quoted (lit "chapters"); lit ": []}"].

(** The listing arrives in two reads; the process exits with code 1. *)
Definition listing_process : Process :=
  {| stdout := map encode listing_pieces; stderr := []; returncode := 1 |}.

(** The same output, with a complaint on the error stream and another
    exit code. *)
Definition complaining_process : Process :=
  {| stdout := map encode listing_pieces;
     stderr := [lit "Invalid data found when processing input"];
     returncode := 183 |}.

(** The euro sign, U+20AC, whose encoding has three bytes. *)
Definition euro : N := 8364%N.

End SampleOS.

(** ** The value of a binary64 number *)

(** The value of a finite binary64 number counted in units of 2^-1074, the
    least positive number: an integer for every valid number; zero for
    what is not finite. *)
Definition fvalue (x : float) : Z :=
  match x with
  | S754_finite s m e => cond_Zopp s (Zpos m) * 2 ^ (e + 1074)
  | _ => 0
  end.

(** The largest finite number, [(2^53 - 1) * 2^971], in the same units. *)
Definition max_fvalue : Z := (2 ^ 53 - 1) * 2 ^ 2045.

(** * Properties of the string operations *)

Section StringFacts.

Variable p : N -> bool.

Lemma lstrip_suffix (s : str) : exists k, lstrip s = skipn k s.
Proof.
  induction s as [|c t [k IH]]; simpl.
  - exists 0%nat. reflexivity.
  - destruct (isspace c).
    + exists (S k). exact IH.
    + exists 0%nat. reflexivity.
Qed.

Lemma rstrip_prefix (s : str) : exists k, rstrip s = firstn k s.
Proof.
  unfold rstrip. destruct (lstrip_suffix (rev s)) as [k Hk].
  exists (length s - k)%nat. rewrite Hk, skipn_rev, rev_involutive. reflexivity.
Qed.

Lemma forallb_firstn (k : nat) (s : str) :
  forallb p s = true -> forallb p (firstn k s) = true.
Proof.
  revert s; induction k as [|k IH]; intros [|c t]; simpl; auto.
  intros H. apply andb_true_iff in H as [Hc Ht]. rewrite Hc. simpl. auto.
Qed.

Lemma forallb_skipn (k : nat) (s : str) :
  forallb p s = true -> forallb p (skipn k s) = true.
Proof.
  revert s; induction k as [|k IH]; intros [|c t]; simpl; auto.
  intros H. apply andb_true_iff in H as [_ Ht]. auto.
Qed.

Lemma forallb_strip (s : str) : forallb p s = true -> forallb p (strip s) = true.
Proof.
  intros H. unfold strip.
  destruct (rstrip_prefix (lstrip s)) as [k ->].
  destruct (lstrip_suffix s) as [j ->].
  apply forallb_firstn, forallb_skipn, H.
Qed.

Lemma forallb_sub_runs (repl : str) (b : bool) (s : str) (q : N -> bool) :
  forallb q repl = true ->
  (forall c, p c = false -> In c s -> q c = true) ->
  forallb q (sub_runs p repl b s) = true.
Proof.
  intros Hrepl. revert b. induction s as [|c t IH]; intros b H; simpl; auto.
  destruct (p c) eqn:Hc.
  - destruct b.
    + apply IH. intros d Hd Hin. apply H; simpl; auto.
    + rewrite forallb_app, Hrepl. simpl. apply IH.
      intros d Hd Hin. apply H; simpl; auto.
  - simpl. rewrite (H c Hc (or_introl eq_refl)). simpl.
    apply IH. intros d Hd Hin. apply H; simpl; auto.
Qed.

(** Substituting in a string that has no character of the class changes
    nothing. *)
Lemma sub_runs_none (repl : str) (s : str) :
  forallb (fun c => negb (p c)) s = true -> sub_runs p repl false s = s.
Proof.
  induction s as [|c t IH]; simpl; auto.
  intros H. apply andb_true_iff in H as [Hc Ht].
  apply negb_true_iff in Hc. rewrite Hc. f_equal. auto.
Qed.

End StringFacts.

Lemma no_leading_ws_lstrip (s : str) : no_leading_ws (lstrip s) = true.
Proof.
  induction s as [|c t IH]; simpl; auto.
  destruct (isspace c) eqn:Hc; auto. simpl. rewrite Hc. reflexivity.
Qed.

Lemma no_leading_ws_firstn (k : nat) (s : str) :
  no_leading_ws s = true -> no_leading_ws (firstn k s) = true.
Proof. destruct k, s; simpl; auto. Qed.

Lemma no_leading_ws_rstrip (s : str) :
  no_leading_ws s = true -> no_leading_ws (rstrip s) = true.
Proof.
  intros H. destruct (rstrip_prefix s) as [k ->]. apply no_leading_ws_firstn, H.
Qed.

Lemma no_leading_ws_strip (s : str) : no_leading_ws (strip s) = true.
Proof. apply no_leading_ws_rstrip, no_leading_ws_lstrip. Qed.

Lemma no_trailing_ws_strip (s : str) : no_trailing_ws (strip s) = true.
Proof.
  unfold no_trailing_ws, strip, rstrip. rewrite rev_involutive.
  apply no_leading_ws_lstrip.
Qed.

Lemma lstrip_id (s : str) : no_leading_ws s = true -> lstrip s = s.
Proof.
  destruct s as [|c t]; simpl; auto.
  intros H. apply negb_true_iff in H. rewrite H. reflexivity.
Qed.

(** Stripping a trimmed string changes nothing. *)
Lemma strip_id (s : str) : trimmed s = true -> strip s = s.
Proof.
  unfold trimmed, no_trailing_ws. intros H. apply andb_true_iff in H as [H1 H2].
  unfold strip, rstrip. rewrite (lstrip_id s H1), (lstrip_id _ H2).
  apply rev_involutive.
Qed.

Lemma ws_collapsed_firstn (k : nat) (s : str) :
  ws_collapsed s = true -> ws_collapsed (firstn k s) = true.
Proof.
  revert s; induction k as [|k IH]; intros [|c t]; simpl; auto.
  intros H. apply andb_true_iff in H as [Hc Ht].
  rewrite (IH t Ht), andb_true_r.
  destruct (isspace c); auto.
  apply andb_true_iff in Hc as [Hc1 Hc2]. rewrite Hc1. simpl.
  destruct k, t; simpl; auto.
Qed.

Lemma ws_collapsed_skipn (k : nat) (s : str) :
  ws_collapsed s = true -> ws_collapsed (skipn k s) = true.
Proof.
  revert s; induction k as [|k IH]; intros [|c t]; auto.
  intros H. simpl in H. apply andb_true_iff in H as [_ Ht]. simpl. auto.
Qed.

Lemma ws_collapsed_strip (s : str) :
  ws_collapsed s = true -> ws_collapsed (strip s) = true.
Proof.
  intros H. unfold strip.
  destruct (rstrip_prefix (lstrip s)) as [k ->].
  destruct (lstrip_suffix s) as [j ->].
  apply ws_collapsed_firstn, ws_collapsed_skipn, H.
Qed.

(** After the whitespace substitution every whitespace character is a
    single space followed by something else. *)
Lemma ws_collapsed_sub_runs (b : bool) (s : str) :
  ws_collapsed (sub_runs isspace (lit " ") b s) = true
  /\ (b = true -> no_leading_ws (sub_runs isspace (lit " ") b s) = true).
Proof.
  revert b. induction s as [|c t IH]; intros b; simpl; auto.
  destruct (isspace c) eqn:Hc.
  - destruct (IH true) as [IH1 IH2]. specialize (IH2 eq_refl).
    destruct b; [auto|].
    split; [|discriminate].
    change (lit " " ++ sub_runs isspace (lit " ") true t)
      with (32%N :: sub_runs isspace (lit " ") true t).
    simpl ws_collapsed. change (isspace 32) with true. cbv iota.
    rewrite IH1, andb_true_r. simpl.
    destruct (sub_runs isspace (lit " ") true t); auto.
  - destruct (IH false) as [IH1 _]. simpl. rewrite Hc, IH1. auto.
Qed.

(** A string whose whitespace is already collapsed is a fixed point of the
    whitespace substitution. *)
Lemma sub_runs_collapsed (b : bool) (s : str) :
  ws_collapsed s = true ->
  (b = true -> no_leading_ws s = true) ->
  sub_runs isspace (lit " ") b s = s.
Proof.
  revert b. induction s as [|c t IH]; intros b H Hb; simpl; auto.
  simpl in H. apply andb_true_iff in H as [Hc Ht].
  destruct (isspace c) eqn:Ec.
  - destruct b.
    + specialize (Hb eq_refl). simpl in Hb. rewrite Ec in Hb. discriminate.
    + apply andb_true_iff in Hc as [Hc1 Hc2]. apply N.eqb_eq in Hc1. subst c.
      change (lit " " ++ sub_runs isspace (lit " ") true t)
        with (32%N :: sub_runs isspace (lit " ") true t).
      f_equal. apply IH; auto.
  - f_equal. apply IH; auto. discriminate.
Qed.

(** * The name sanitizer *)

Lemma lstrip_nil_iff (s : str) : lstrip s = [] <-> forallb isspace s = true.
Proof.
  induction s as [|c t IH]; simpl; [tauto|].
  destruct (isspace c); simpl; [exact IH|].
  split; discriminate.
Qed.

Lemma forallb_rev (p : N -> bool) (s : str) : forallb p (rev s) = forallb p s.
Proof.
  induction s as [|c t IH]; simpl; auto.
  rewrite forallb_app, IH. simpl. rewrite andb_true_r. apply andb_comm.
Qed.

Lemma strip_nil_iff (s : str) : strip s = [] <-> forallb isspace s = true.
Proof.
  unfold strip, rstrip. split.
  - intros H. apply (f_equal (@rev N)) in H. rewrite rev_involutive in H.
    simpl in H. apply lstrip_nil_iff in H. rewrite forallb_rev in H.
    apply lstrip_nil_iff.
    pose proof (no_leading_ws_lstrip s) as Hl.
    destruct (lstrip s) as [|c t]; auto.
    simpl in H, Hl. apply negb_true_iff in Hl. rewrite Hl in H. discriminate.
  - intros H. apply lstrip_nil_iff in H. rewrite H. reflexivity.
Qed.

Lemma sub_reserved_keeps_text (s : str) :
  forallb isspace s = false ->
  forallb isspace (sub_runs is_reserved (lit "_") false s) = false.
Proof.
  induction s as [|c t IH]; simpl; auto.
  destruct (is_reserved c) eqn:Hr; [reflexivity|].
  simpl. destruct (isspace c); simpl; auto.
Qed.

Lemma sub_space_keeps_text (b : bool) (s : str) :
  forallb isspace s = false ->
  forallb isspace (sub_runs isspace (lit " ") b s) = false.
Proof.
  revert b. induction s as [|c t IH]; intros b; simpl; auto.
  destruct (isspace c) eqn:Hc; simpl.
  - intros H. destruct b; [auto|].
    change (lit " " ++ sub_runs isspace (lit " ") true t)
      with (32%N :: sub_runs isspace (lit " ") true t).
    cbn [forallb]. rewrite (IH true H). apply andb_false_r.
  - intros _. rewrite Hc. reflexivity.
Qed.

(** The sanitized name is empty only when the name given is blank. *)
Lemma safe_name_nil (name fallback : str) :
  safe_name name fallback = [] -> strip name = [].
Proof.
  unfold safe_name. intros H.
  destruct (strip name) as [|c t] eqn:Hs; [reflexivity|exfalso].
  simpl is_empty in H. cbv iota in H.
  assert (Hc : forallb isspace (c :: t) = false).
  { pose proof (no_leading_ws_strip name) as Hl. rewrite Hs in Hl.
    simpl in Hl. apply negb_true_iff in Hl. simpl. rewrite Hl. reflexivity. }
  apply sub_reserved_keeps_text in Hc.
  apply (sub_space_keeps_text false) in Hc.
  unfold re_sub_plus in H.
  destruct (strip (sub_runs isspace (lit " ") false
              (sub_runs is_reserved (lit "_") false (c :: t)))) eqn:E.
  - apply strip_nil_iff in E. congruence.
  - discriminate.
Qed.

Lemma safe_name_no_reserved (name fallback : str) :
  no_reserved (safe_name name fallback) = true.
Proof.
  unfold safe_name, no_reserved, re_sub_plus.
  apply forallb_firstn, forallb_strip.
  apply forallb_sub_runs; [reflexivity|].
  intros c _ Hin.
  assert (H : forallb (fun c => negb (is_reserved c))
                (sub_runs is_reserved (lit "_") false
                   (if is_empty (strip name) then fallback else strip name)) = true).
  { apply forallb_sub_runs; [reflexivity|]. intros d Hd _. rewrite Hd. reflexivity. }
  rewrite forallb_forall in H. apply H, Hin.
Qed.

Lemma safe_name_length (name fallback : str) :
  (length (safe_name name fallback) <= 180)%nat.
Proof. unfold safe_name. apply firstn_le_length. Qed.

Lemma safe_name_ws_collapsed (name fallback : str) :
  ws_collapsed (safe_name name fallback) = true.
Proof.
  unfold safe_name, re_sub_plus.
  apply ws_collapsed_firstn, ws_collapsed_strip, ws_collapsed_sub_runs.
Qed.

Lemma safe_name_no_leading_ws (name fallback : str) :
  no_leading_ws (safe_name name fallback) = true.
Proof.
  unfold safe_name. apply no_leading_ws_firstn, no_leading_ws_strip.
Qed.

(** When the cut at 180 characters removes nothing, no whitespace is left
    at the end. *)
Lemma safe_name_no_trailing_ws_when_short (name fallback : str) :
  (length (safe_name name fallback) < 180)%nat ->
  no_trailing_ws (safe_name name fallback) = true.
Proof.
  unfold safe_name.
  set (s := strip _). intros H.
  assert (Hs : (length s < 180)%nat).
  { rewrite length_firstn in H. lia. }
  rewrite firstn_all2 by lia. apply no_trailing_ws_strip.
Qed.

(** Sanitizing twice gives the same name as sanitizing once, provided that
    the cut has left no whitespace at the end. *)
Lemma safe_name_idempotent_when_trimmed (name fallback : str) :
  no_trailing_ws (safe_name name fallback) = true ->
  safe_name (safe_name name fallback) fallback = safe_name name fallback.
Proof.
  intros Htr.
  destruct (safe_name name fallback) as [|c t] eqn:E.
  - apply safe_name_nil in E as Hn.
    unfold safe_name in *. rewrite Hn in E. simpl is_empty in *.
    change (strip []) with (@nil N). simpl is_empty. exact E.
  - rewrite <- E in *.
    set (y := safe_name name fallback) in *.
    assert (Hy : strip y = y).
    { apply strip_id. unfold trimmed. rewrite Htr.
      unfold y. rewrite safe_name_no_leading_ws. reflexivity. }
    unfold safe_name at 1. rewrite Hy.
    replace (is_empty y) with false by (rewrite E; reflexivity).
    unfold re_sub_plus.
    rewrite (sub_runs_none is_reserved) by apply safe_name_no_reserved.
    rewrite sub_runs_collapsed;
      [|apply safe_name_ws_collapsed|discriminate].
    rewrite Hy. apply firstn_all2, safe_name_length.
Qed.

(** * Text of numbers *)

Lemma all_digits_str_of_uint (d : Decimal.uint) : all_digits (str_of_uint d) = true.
Proof. induction d; simpl; auto. Qed.

Lemma all_digits_zfill (w : nat) (s : str) :
  all_digits s = true -> all_digits (zfill w s) = true.
Proof.
  intros H. unfold zfill, all_digits. rewrite forallb_app.
  apply andb_true_iff. split; [|exact H].
  induction (w - length s)%nat; simpl; auto.
Qed.

Lemma length_zfill (w : nat) (s : str) : (w <= length (zfill w s))%nat.
Proof. unfold zfill. rewrite length_app, repeat_length. lia. Qed.

Lemma all_digits_format_03d (i : N) : all_digits (format_03d i) = true.
Proof. apply all_digits_zfill, all_digits_str_of_uint. Qed.

(** Below one thousand the ordinal has exactly three digits. *)
Lemma length_format_03d (i : N) : (i < 1000)%N -> length (format_03d i) = 3%nat.
Proof.
  intros H.
  assert (Hall : forallb (fun k => (length (format_03d (N.of_nat k)) =? 3)%nat)
                   (seq 0 1000) = true) by (vm_compute; reflexivity).
  rewrite forallb_forall in Hall.
  specialize (Hall (N.to_nat i)). rewrite N2Nat.id in Hall.
  apply Nat.eqb_eq, Hall, in_seq. lia.
Qed.

Lemma firstn_skipn_exact {A} (a b : list A) :
  firstn (length a) (a ++ b) = a /\ skipn (length a) (a ++ b) = b.
Proof.
  induction a as [|x a [IH1 IH2]]; simpl; auto.
  split; [f_equal|]; assumption.
Qed.

Lemma unsigned_fixed6_intro (a frac : str) :
  a <> [] -> all_digits a = true -> all_digits frac = true ->
  length frac = 6%nat ->
  unsigned_fixed6 (a ++ 46%N :: frac) = true.
Proof.
  intros Ha Hda Hdf Hl. unfold unsigned_fixed6.
  assert (Hlen : length (a ++ 46%N :: frac) = (length a + 7)%nat).
  { rewrite length_app. simpl. lia. }
  rewrite Hlen.
  replace (length a + 7 - 7)%nat with (length a) by lia.
  destruct (firstn_skipn_exact a (46%N :: frac)) as [-> ->].
  rewrite Hda, Hdf, Hl.
  destruct a; [congruence|].
  replace (8 <=? length (n :: a) + 7)%nat with true; [reflexivity|].
  symmetry. apply Nat.leb_le. simpl. lia.
Qed.

Lemma is_fixed6_intro (neg : bool) (a frac : str) :
  a <> [] -> all_digits a = true -> all_digits frac = true ->
  length frac = 6%nat ->
  is_fixed6 (sign_str neg ++ a ++ 46%N :: frac) = true.
Proof.
  intros Ha Hda Hdf Hl.
  pose proof (unsigned_fixed6_intro a frac Ha Hda Hdf Hl) as H.
  destruct neg; [exact H|].
  simpl sign_str. simpl app at 1.
  destruct a as [|c a]; [congruence|].
  unfold is_fixed6. simpl app in *.
  destruct (N.eq_dec c 45) as [->|Hc]; [discriminate Hda|].
  destruct c as [|p]; [exact H|].
  do 6 (destruct p as [p|p|]; try exact H). congruence.
Qed.

(** A count of millionths is written as digits, a point and six digits. *)
Lemma is_fixed6_fixed6 (neg : bool) (n : N) :
  is_fixed6 (sign_str neg ++ fixed6 n) = true.
Proof.
  unfold fixed6.
  set (d := zfill 7 (str_of_N n)).
  assert (Hlen : (7 <= length d)%nat) by apply length_zfill.
  assert (Hd : all_digits d = true)
    by apply all_digits_zfill, all_digits_str_of_uint.
  apply is_fixed6_intro.
  - intros E. apply (f_equal (@length N)) in E.
    rewrite length_firstn in E. simpl in E. lia.
  - apply forallb_firstn, Hd.
  - apply forallb_skipn, Hd.
  - rewrite length_skipn. lia.
Qed.

(** Finite values are written in fixed notation with six fraction digits. *)
Lemma format_6f_fixed (x : float) :
  is_finite x = true -> is_fixed6 (format_6f x) = true.
Proof.
  destruct x as [s|s| |s m e]; simpl; try discriminate; intros _;
    apply is_fixed6_fixed6.
Qed.

Lemma format_6f_not_fixed (x : float) :
  is_finite x = false -> is_fixed6 (format_6f x) = false.
Proof.
  destruct x as [s|s| |s m e]; simpl; try discriminate; intros _.
  - destruct s; reflexivity.
  - reflexivity.
Qed.

(** * Floating-point facts *)

Lemma digits2_pos_bounds (m : positive) :
  (2 ^ (Zpos (digits2_pos m) - 1) <= Zpos m < 2 ^ Zpos (digits2_pos m))%Z.
Proof.
  induction m as [m IH|m IH|]; simpl digits2_pos.
  - rewrite Pos2Z.inj_succ.
    replace (Z.succ (Zpos (digits2_pos m)) - 1)%Z with (Z.succ (Zpos (digits2_pos m) - 1))%Z by lia.
    rewrite !Z.pow_succ_r by lia. lia.
  - rewrite Pos2Z.inj_succ.
    replace (Z.succ (Zpos (digits2_pos m)) - 1)%Z with (Z.succ (Zpos (digits2_pos m) - 1))%Z by lia.
    rewrite !Z.pow_succ_r by lia. lia.
  - simpl. lia.
Qed.

(** The mantissa of a binary64 value has at most 53 bits, exactly 53 above
    the least exponent, and the exponent is at least the least one. *)
Lemma bounded_facts (m : positive) (e : Z) :
  bounded prec emax m e = true ->
  (Zpos m < 2 ^ 53 /\ -1074 <= e /\ (-1074 < e -> 2 ^ 52 <= Zpos m))%Z.
Proof.
  unfold bounded, canonical_mantissa, fexp, emin, prec, emax.
  intros H. apply andb_true_iff in H as [H _]. apply Z.eqb_eq in H.
  pose proof (digits2_pos_bounds m) as [Hlo Hhi].
  set (d := Zpos (digits2_pos m)) in *.
  assert (Hd : (0 < d)%Z) by (unfold d; lia).
  assert (Hle : (d <= 53)%Z) by lia.
  repeat split.
  - apply Z.lt_le_trans with (2 ^ d)%Z; [lia|].
    apply Z.pow_le_mono_r; lia.
  - lia.
  - intros He. assert (d = 53)%Z by lia.
    replace 52%Z with (d - 1)%Z by lia. exact Hlo.
Qed.

Lemma iter_xO (m d : positive) :
  Zpos (Pos.iter xO m d) = (Zpos m * 2 ^ Zpos d)%Z.
Proof.
  induction d as [|d IH] using Pos.peano_ind.
  - simpl. lia.
  - rewrite Pos.iter_succ, Pos2Z.inj_succ, Z.pow_succ_r by lia.
    rewrite Pos2Z.inj_xO, IH. lia.
Qed.

Lemma shl_align_value (m : positive) (e e' : Z) :
  (e' <= e)%Z ->
  Zpos (fst (shl_align m e e')) = (Zpos m * 2 ^ (e - e'))%Z.
Proof.
  intros H. unfold shl_align.
  destruct (e' - e)%Z as [|d|d] eqn:E; simpl fst.
  - replace (e - e')%Z with 0%Z by lia. simpl. lia.
  - lia.
  - rewrite iter_xO. f_equal. f_equal. lia.
Qed.

(** Aligned mantissas compare as the values do. *)
Lemma aligned_lt (mx : positive) (ex : Z) (my : positive) (ey : Z) :
  bounded prec emax mx ex = true -> bounded prec emax my ey = true ->
  (ex < ey \/ (ex = ey /\ Zpos mx < Zpos my))%Z ->
  (Zpos (fst (shl_align mx ex (Z.min ex ey)))
   < Zpos (fst (shl_align my ey (Z.min ex ey))))%Z.
Proof.
  intros Hx Hy H.
  rewrite !shl_align_value by lia.
  destruct (bounded_facts mx ex Hx) as (Hx1 & Hx2 & _).
  destruct (bounded_facts my ey Hy) as (_ & _ & Hy3).
  destruct H as [H|[-> H]].
  - rewrite Z.min_l by lia. rewrite Z.sub_diag. simpl (2 ^ 0)%Z.
    assert (H2 : (2 ^ 1 <= 2 ^ (ey - ex))%Z) by (apply Z.pow_le_mono_r; lia).
    specialize (Hy3 ltac:(lia)).
    change (2 ^ 53)%Z with (2 ^ 52 * 2 ^ 1)%Z in Hx1.
    assert (0 < 2 ^ 52)%Z by lia.
    nia.
  - rewrite Z.min_id, Z.sub_diag. simpl (2 ^ 0)%Z. lia.
Qed.

Lemma binary_round_aux_sign (s : bool) (m e : Z) (l : location) :
  match binary_round_aux prec emax s m e l with
  | S754_zero s' | S754_infinity s' | S754_finite s' _ _ => s' = s
  | S754_nan => True
  end.
Proof.
  unfold binary_round_aux.
  destruct (shr_fexp prec emax m e l) as [mrs' e'].
  destruct (shr_fexp prec emax _ e' loc_Exact) as [mrs'' e''].
  destruct (shr_m mrs''); auto.
  destruct (Z.leb e'' (emax - prec)); auto.
Qed.

(** Rounding an integer that is not positive never gives a positive
    float. *)
Lemma binary_normalize_not_positive (m e : Z) :
  (m <= 0)%Z -> fltb fzero (binary_normalize prec emax m e false) = false.
Proof.
  intros H. destruct m as [|p|p]; [reflexivity|lia|].
  unfold binary_normalize, binary_round.
  destruct (shl_align p e _) as [mz ez].
  pose proof (binary_round_aux_sign true (Zpos mz) ez loc_Exact) as Hs.
  destruct (binary_round_aux prec emax true (Zpos mz) ez loc_Exact);
    try subst; reflexivity.
Qed.

(** The difference of two binary64 values, the first below the second, is
    not positive. *)
Lemma fsub_not_positive (x y : float) :
  valid_float x = true -> valid_float y = true ->
  fltb x y = true -> fltb fzero (fsub x y) = false.
Proof.
  intros Hx Hy Hlt. unfold fltb, SFltb in Hlt.
  destruct x as [sx|sx| |sx mx ex], y as [sy|sy| |sy my ey];
    try discriminate Hlt;
    try (destruct sx, sy; try discriminate Hlt; reflexivity);
    try (destruct sx; try discriminate Hlt; reflexivity);
    try (destruct sy; try discriminate Hlt; reflexivity).
  unfold fsub, SFsub. apply binary_normalize_not_positive.
  unfold valid_float, valid_binary in Hx, Hy.
  simpl SFcompare in Hlt.
  change (Pos.compare_cont Eq mx my) with (Pos.compare mx my) in Hlt.
  destruct sx, sy; simpl cond_Zopp; try discriminate Hlt.
  - (* both negative: the first has the larger magnitude *)
    assert (H : (ey < ex \/ (ey = ex /\ Zpos my < Zpos mx))%Z).
    { destruct (Z.compare_spec ex ey) as [E|E|E]; try discriminate Hlt.
      - right. split; [congruence|].
        destruct (Pos.compare_spec mx my); simpl in Hlt; try discriminate Hlt. lia.
      - left. lia. }
    pose proof (aligned_lt my ey mx ex Hy Hx H) as Hal.
    rewrite Z.min_comm in Hal. lia.
  - lia.
  - assert (H : (ex < ey \/ (ex = ey /\ Zpos mx < Zpos my))%Z).
    { destruct (Z.compare_spec ex ey) as [E|E|E]; try discriminate Hlt.
      - right. split; [congruence|].
        destruct (Pos.compare_spec mx my); simpl in Hlt; try discriminate Hlt. lia.
      - left. lia. }
    pose proof (aligned_lt mx ex my ey Hx Hy H) as Hal. lia.
Qed.

Lemma py_max_zero_not_negative (x : float) :
  fltb (py_max fzero x) fzero = false /\ is_nan (py_max fzero x) = false.
Proof.
  unfold py_max.
  destruct x as [s|s| |s m e]; try (destruct s); split; reflexivity.
Qed.

(** * The decoder has fuel enough *)

Lemma lstrip_by_length (p : N -> bool) (s : str) :
  (length (lstrip_by p s) <= length s)%nat.
Proof.
  induction s as [|c t IH]; simpl; auto.
  destruct (p c); simpl; lia.
Qed.

Lemma skip_ws_length (s : str) : (length (skip_ws s) <= length s)%nat.
Proof. apply lstrip_by_length. Qed.

Lemma span_digits_length (s : str) :
  forall (acc : N) (n : nat) (v : N) (n' : nat) (r : str),
  span_digits s acc n = (v, n', r) -> (length r <= length s)%nat.
Proof.
  induction s as [|c t IH]; intros acc n v n' r H; simpl in H.
  - injection H as _ _ <-. auto.
  - destruct (is_digit c).
    + apply IH in H. simpl. lia.
    + injection H as _ _ <-. auto.
Qed.

Lemma hex4_length (s : str) (h : N) (r : str) :
  hex4 s = Some (h, r) -> length s = (4 + length r)%nat.
Proof.
  unfold hex4. destruct s as [|a [|b [|c [|d t]]]]; try discriminate.
  destruct (hex_val a), (hex_val b), (hex_val c), (hex_val d); try discriminate.
  intros H. injection H as _ <-. reflexivity.
Qed.

Ltac break_match :=
  match goal with
  | H : context [match ?x with _ => _ end] |- _ => destruct x eqn:?
  | |- context [match ?x with _ => _ end] => destruct x eqn:?
  end.

Lemma scan_string_length (fuel : nat) :
  forall (s acc v r : str),
  scan_string fuel s acc = Some (v, r) -> (length r < length s)%nat.
Proof.
  induction fuel as [|f IH]; intros s acc v r H; [discriminate|].
  cbn [scan_string] in H.
  repeat break_match; try discriminate;
    repeat match goal with
      | E : hex4 _ = Some _ |- _ => apply hex4_length in E
      end;
    try (apply IH in H); try (injection H as _ <-); simpl in *; lia.
Qed.

Lemma split_sign_length (s : str) (b : bool) (r : str) :
  split_sign s = (b, r) -> (length r <= length s)%nat.
Proof.
  unfold split_sign. intros H.
  repeat break_match; injection H as _ <-; simpl; lia.
Qed.

Ltac break_goal :=
  match goal with
  | |- context [match ?x with _ => _ end] => destruct x eqn:?
  end.

Lemma scan_number_length (s : str) (v : json) (r : str) :
  scan_number s = Some (v, r) -> (length r < length s)%nat.
Proof.
  unfold scan_number.
  destruct (match s with 45%N :: t => (true, t) | _ => (false, s) end)
    as [neg s1] eqn:E1.
  assert (H1 : (length s1 <= length s)%nat).
  { clear -E1. revert E1. repeat break_goal; intros E; injection E as _ <-;
      simpl; lia. }
  clear E1. destruct s1 as [|c t]; [discriminate|].
  destruct (is_digit c) eqn:Hc; [|discriminate].
  destruct (if (c =? 48)%N then _ else _) as [ip r1] eqn:E2.
  assert (H2 : (length r1 <= length t)%nat).
  { clear -E2 Hc. revert E2. destruct (c =? 48)%N.
    - intros E; injection E as _ <-. lia.
    - simpl. rewrite Hc.
      destruct (span_digits t _ 1) as [[x y] z] eqn:E.
      apply span_digits_length in E. intros E'; injection E' as _ <-. exact E. }
  clear E2.
  destruct (match r1 with 46%N :: d :: u => _ | _ => _ end) as [[m n2] r2] eqn:E3.
  assert (H3 : (length r2 <= length r1)%nat).
  { clear -E3. revert E3.
    repeat break_goal; intros E;
      try (apply span_digits_length in E; simpl in *; lia);
      injection E as _ _ <-; simpl; lia. }
  clear E3.
  destruct (match r2 with e :: u => _ | [] => _ end) as [[ev n3] r3] eqn:E4.
  assert (H4 : (length r3 <= length r2)%nat).
  { clear -E4. revert E4.
    repeat break_goal; intros E;
      repeat match goal with
        | X : span_digits _ _ _ = _ |- _ => apply span_digits_length in X
        | X : split_sign _ = _ |- _ => apply split_sign_length in X
        end;
      injection E as _ _ <-; simpl in *; lia. }
  clear E4.
  destruct ((n2 =? 0) && (n3 =? 0))%nat; intros H; injection H as _ <-;
    simpl in *; lia.
Qed.

Ltac ws_facts :=
  repeat match goal with
    | H : context [skip_ws ?x] |- _ =>
        lazymatch goal with
        | _ : (length (skip_ws x) <= length x)%nat |- _ => fail
        | _ => pose proof (skip_ws_length x)
        end
    end.

Ltac len_facts f IHv :=
  repeat match goal with
    | E : scan_string _ _ _ = Some _ |- _ => apply scan_string_length in E
    | E : scan_once f _ = Some _ |- _ => apply IHv in E
    | E : skip_ws _ = _ |- _ => apply (f_equal (@length N)) in E
    end.

(** Whatever the scanner reads, it consumes something. *)
Lemma scan_once_length (fuel : nat) :
  (forall s v r, scan_once fuel s = Some (v, r) -> (length r < length s)%nat)
  /\ (forall s acc v r, parse_members fuel s acc = Some (v, r) -> (length r < length s)%nat)
  /\ (forall s acc v r, parse_elements fuel s acc = Some (v, r) -> (length r < length s)%nat).
Proof.
  induction fuel as [|f (IHv & IHm & IHe)];
    [repeat split; intros; discriminate|].
  repeat split.
  - intros s v r H. cbn [scan_once] in H.
    destruct s as [|c t]; [discriminate|].
    destruct (c =? 34)%N.
    { destruct (scan_string (S (length t)) t []) as [[x y]|] eqn:E; [|discriminate].
      apply scan_string_length in E. injection H as _ <-. simpl. lia. }
    destruct (c =? 123)%N.
    { pose proof (skip_ws_length t) as Hw.
      repeat break_match; try (apply IHm in H); try (injection H as _ <-);
        simpl in *; lia. }
    destruct (c =? 91)%N.
    { pose proof (skip_ws_length t) as Hw.
      repeat break_match; try (apply IHe in H); try (injection H as _ <-);
        simpl in *; lia. }
    do 6 (match type of H with
          | (if ?b then _ else _) = _ => destruct b
          end;
          [match type of H with
           | Some (_, ?x) = _ => assert (Hr : r = x) by congruence
           end; rewrite Hr, length_skipn; cbn [length]; lia|]).
    eapply scan_number_length; exact H.
  - intros s acc v r H. cbn [parse_members] in H.
    repeat break_match; try discriminate; ws_facts; len_facts f IHv;
      try (apply IHm in H); try (injection H as _ <-); simpl in *; lia.
  - intros s acc v r H. cbn [parse_elements] in H.
    repeat break_match; try discriminate; ws_facts; len_facts f IHv;
      try (apply IHe in H); try (injection H as _ <-); simpl in *; lia.
Qed.

Lemma scan_once_consumes (fuel : nat) (s : str) (v : json) (r : str) :
  scan_once fuel s = Some (v, r) -> (length r < length s)%nat.
Proof. apply scan_once_length. Qed.

Ltac ws_goal :=
  repeat match goal with
    | |- context [skip_ws ?x] =>
        lazymatch goal with
        | _ : (length (skip_ws x) <= length x)%nat |- _ => fail
        | _ => pose proof (skip_ws_length x)
        end
    end.

Ltac len_hyps :=
  repeat match goal with
    | E : scan_string _ _ _ = Some _ |- _ => apply scan_string_length in E
    | E : scan_once _ _ = Some _ |- _ => apply scan_once_consumes in E
    | E : skip_ws _ = _ |- _ => apply (f_equal (@length N)) in E
    | E : hex4 _ = Some _ |- _ => apply hex4_length in E
    end.

Ltac solve_len := ws_facts; ws_goal; len_hyps; simpl in *; lia.

(** With fuel above the length of the text, the string scanner gives the
    same result whatever the fuel. *)
Lemma scan_string_fuel (f1 : nat) :
  forall (f2 : nat) (s acc : str),
  (length s < f1)%nat -> (length s < f2)%nat ->
  scan_string f1 s acc = scan_string f2 s acc.
Proof.
  induction f1 as [|f1 IH]; intros [|f2] s acc H1 H2; try lia.
  cbn [scan_string].
  repeat break_goal; try reflexivity; apply IH; solve_len.
Qed.

(** With fuel above twice the length of the text, the value scanner gives
    the same result whatever the fuel. *)
Lemma scan_once_fuel (f1 : nat) :
  (forall f2 s,
     (2 * length s + 1 <= f1)%nat -> (2 * length s + 1 <= f2)%nat ->
     scan_once f1 s = scan_once f2 s)
  /\ (forall f2 s acc,
        (2 * length s + 2 <= f1)%nat -> (2 * length s + 2 <= f2)%nat ->
        parse_members f1 s acc = parse_members f2 s acc)
  /\ (forall f2 s acc,
        (2 * length s + 2 <= f1)%nat -> (2 * length s + 2 <= f2)%nat ->
        parse_elements f1 s acc = parse_elements f2 s acc).
Proof.
  induction f1 as [|f1 (IHv & IHm & IHe)]; [repeat split; intros; lia|].
  repeat split.
  - intros [|f2] s H1 H2; [lia|]. cbn [scan_once].
    repeat break_goal; try reflexivity;
      first [apply IHm|apply IHe]; solve_len.
  - intros [|f2] s acc H1 H2; [lia|]. cbn [parse_members].
    repeat first
      [ match goal with
        | |- context [scan_once f1 ?x] => rewrite (IHv f2 x) by solve_len
        end
      | break_goal ];
      try reflexivity; apply IHm; solve_len.
  - intros [|f2] s acc H1 H2; [lia|]. cbn [parse_elements].
    rewrite (IHv f2 s) by lia.
    repeat break_goal; try reflexivity; apply IHe; solve_len.
Qed.

(** The fuel that [json_decode] gives to the scanner is enough: more fuel
    gives the same result. *)
Lemma json_decode_fuel (s : str) (fuel : nat) :
  (S (2 * length s) <= fuel)%nat ->
  scan_once fuel (skip_ws s) = scan_once (S (2 * length s)) (skip_ws s).
Proof.
  intros H. pose proof (skip_ws_length s).
  apply scan_once_fuel; lia.
Qed.

(** * The wrapper: what each operation issues and returns *)

Lemma get_metainfo_eq (self : Ffmpeg) (inp : str) (w : World) (tr : list Invocation) :
  get_metainfo self inp w tr =
  (match spawn w tr (metainfo_invocation self inp) with
   | Exited _ outputs _ => json_decode (join [] outputs)
   | NotStarted => Raise OSError
   end, tr ++ [metainfo_invocation self inp]).
Proof.
  unfold get_metainfo, bind, run_program, lift, ret, metainfo_invocation.
  destruct (spawn w tr _) as [res outputs errors|]; [|reflexivity].
  destruct (json_decode (join [] outputs)); reflexivity.
Qed.

Lemma get_chapters_eq (self : Ffmpeg) (inp : str) (w : World) (tr : list Invocation) :
  get_chapters self inp w tr =
  (match spawn w tr (chapters_invocation self inp) with
   | Exited _ outputs _ =>
       rbind (json_decode (join [] outputs)) (fun res => py_getitem res (lit "chapters"))
   | NotStarted => Raise OSError
   end, tr ++ [chapters_invocation self inp]).
Proof.
  unfold get_chapters, bind, run_program, lift, chapters_invocation.
  destruct (spawn w tr _) as [res outputs errors|]; [|reflexivity].
  destruct (json_decode (join [] outputs)); reflexivity.
Qed.

Lemma convert_aax_ap3_eq (self : Ffmpeg) (inp out : str) (w : World) (tr : list Invocation) :
  convert_aax_ap3 self inp out w tr =
  (match spawn w tr (transcode_invocation (ff_path self) (activate_bytes self) inp out) with
   | Exited _ _ _ => Ok tt
   | NotStarted => Raise OSError
   end, tr ++ [transcode_invocation (ff_path self) (activate_bytes self) inp out]).
Proof.
  unfold convert_aax_ap3, bind, run_program, ret, transcode_invocation.
  destruct (spawn w tr _); reflexivity.
Qed.

Lemma split_ap3_eq (self : Ffmpeg) (inp out : str) (start dur : float) (title : str)
  (w : World) (tr : list Invocation) :
  let inv := split_invocation (ff_path self) inp out (format_6f start) (format_6f dur) title in
  split_ap3 self inp out start dur title w tr =
  (match spawn w tr inv with
   | Exited _ _ _ => Ok tt
   | NotStarted => Raise OSError
   end, tr ++ [inv]).
Proof.
  unfold split_ap3, bind, run_program, ret, split_invocation. simpl.
  destruct (spawn w tr _); reflexivity.
Qed.

(** * The loop over chapters *)

Lemma convert_chapter_eq (options : Options) (i : N) (ch : json)
  (w : World) (tr : list Invocation) :
  convert_chapter (pipeline_ffmpeg options) (Path (out_path options)) (title options)
    (i, ch) w tr =
  match chapter_times ch with
  | Raise e => (Raise e, tr)
  | Ok (start, end_) =>
      (match spawn w tr (chapter_invocation options i start end_) with
       | Exited _ _ _ => Ok tt
       | NotStarted => Raise OSError
       end, tr ++ [chapter_invocation options i start end_])
  end.
Proof.
  unfold convert_chapter, chapter_times, bind, lift.
  destruct (rbind (py_getitem ch (lit "start_time")) py_float) as [start|e]; [|reflexivity].
  simpl rbind.
  destruct (rbind (py_getitem ch (lit "end_time")) py_float) as [end_|e]; [|reflexivity].
  simpl rbind. rewrite split_ap3_eq. reflexivity.
Qed.

Lemma is_split_chapter_invocation (options : Options) (i : N) (s e : float) :
  is_split (chapter_invocation options i s e) = true.
Proof. reflexivity. Qed.

(** Whatever its outcome, the loop only issues split invocations. *)
Lemma for_each_chapter_splits (options : Options) (w : World) (items : list json) :
  forall (i : N) (tr : list Invocation),
  exists splits,
    snd (for_each (enumerate i items)
           (convert_chapter (pipeline_ffmpeg options) (Path (out_path options))
              (title options)) w tr) = tr ++ splits
    /\ forallb is_split splits = true.
Proof.
  induction items as [|ch items IH]; intros i tr.
  - exists []. simpl. rewrite app_nil_r. auto.
  - cbn [enumerate for_each]. unfold bind at 1.
    rewrite convert_chapter_eq.
    destruct (chapter_times ch) as [[s e]|err].
    + destruct (spawn w tr (chapter_invocation options i s e)).
      * destruct (IH (N.succ i) (tr ++ [chapter_invocation options i s e]))
          as (splits & Hs & Hall).
        exists (chapter_invocation options i s e :: splits).
        rewrite Hs, <- app_assoc. simpl. auto.
      * exists [chapter_invocation options i s e]. auto.
    + exists []. simpl. rewrite app_nil_r. auto.
Qed.

(** A loop that completes has issued one split invocation per chapter, in
    the order of the chapters. *)
Lemma for_each_chapter_ok (options : Options) (w : World) (items : list json) :
  forall (i : N) (tr tr' : list Invocation),
  for_each (enumerate i items)
    (convert_chapter (pipeline_ffmpeg options) (Path (out_path options))
       (title options)) w tr = (Ok tt, tr') ->
  exists splits,
    tr' = tr ++ splits
    /\ length splits = length items
    /\ forallb is_split splits = true
    /\ forall k ch, nth_error items k = Some ch ->
         exists start end_,
           chapter_times ch = Ok (start, end_)
           /\ nth_error splits k =
              Some (chapter_invocation options (i + N.of_nat k) start end_).
Proof.
  induction items as [|ch items IH]; intros i tr tr' H.
  - simpl in H. unfold ret in H. injection H as <-.
    exists []. rewrite app_nil_r. repeat split; auto.
    intros [|k] c Hc; discriminate Hc.
  - cbn [enumerate for_each] in H. unfold bind at 1 in H.
    rewrite convert_chapter_eq in H.
    destruct (chapter_times ch) as [[s e]|err] eqn:Ht; [|discriminate H].
    destruct (spawn w tr (chapter_invocation options i s e)); [|discriminate H].
    apply IH in H as (splits & -> & Hlen & Hall & Hnth).
    exists (chapter_invocation options i s e :: splits).
    rewrite <- app_assoc. repeat split; simpl; auto.
    intros [|k] c Hc; simpl in Hc.
    + injection Hc as <-. exists s, e. rewrite N.add_0_r. auto.
    + destruct (Hnth k c Hc) as (s' & e' & H1 & H2).
      exists s', e'. split; [exact H1|]. simpl. rewrite H2.
      do 2 f_equal. lia.
Qed.

(** * The pipeline, stage by stage *)

Lemma convert_eq (options : Options) (w : World) :
  convert options w [] =
  if mkdir w (path_str (Path (out_path options))) then
    match fst (get_metainfo (pipeline_ffmpeg options) (input options) w []) with
    | Raise e => (Raise e, firstn 1 (pipeline_prelude options))
    | Ok _ =>
        match spawn w (firstn 1 (pipeline_prelude options))
                (transcode_invocation (tool options) (lit "11bb9604")
                   (input options) temp_name) with
        | NotStarted => (Raise OSError, firstn 2 (pipeline_prelude options))
        | Exited _ _ _ =>
            match fst (get_chapters (pipeline_ffmpeg options) temp_name w
                         (firstn 2 (pipeline_prelude options))) with
            | Raise e => (Raise e, pipeline_prelude options)
            | Ok chapters =>
                match py_iter chapters with
                | Raise e => (Raise e, pipeline_prelude options)
                | Ok items =>
                    for_each (enumerate 1 items)
                      (convert_chapter (pipeline_ffmpeg options)
                         (Path (out_path options)) (title options))
                      w (pipeline_prelude options)
                end
            end
        end
    end
  else (Raise OSError, []).
Proof.
  unfold convert. unfold bind at 1. unfold path_mkdir.
  destruct (mkdir w _); [|reflexivity].
  fold (pipeline_ffmpeg options).
  unfold bind at 1. rewrite !get_metainfo_eq. cbn [fst].
  change ([] ++ [metainfo_invocation (pipeline_ffmpeg options) (input options)])
    with (firstn 1 (pipeline_prelude options)).
  destruct (match spawn w [] _ with Exited _ o _ => _ | NotStarted => _ end)
    as [meta|e]; [|reflexivity].
  unfold bind at 1. rewrite convert_aax_ap3_eq.
  change (ff_path (pipeline_ffmpeg options)) with (tool options).
  change (activate_bytes (pipeline_ffmpeg options)) with (lit "11bb9604").
  destruct (spawn w _ _); [|reflexivity].
  unfold bind at 1. rewrite !get_chapters_eq. cbn [fst].
  change (firstn 1 (pipeline_prelude options) ++
          [transcode_invocation (tool options) (lit "11bb9604") (input options) temp_name])
    with (firstn 2 (pipeline_prelude options)).
  change (firstn 2 (pipeline_prelude options) ++
          [chapters_invocation (pipeline_ffmpeg options) temp_name])
    with (pipeline_prelude options).
  destruct (match spawn w (firstn 2 _) _ with Exited _ o _ => _ | NotStarted => _ end)
    as [chapters|e]; [|reflexivity].
  unfold bind at 1, lift.
  destruct (py_iter chapters); reflexivity.
Qed.

(** Every run issues a prefix of the three preparatory invocations and
    then split invocations only; these come only after the whole
    prefix. *)
Lemma convert_trace_shape (options : Options) (w : World) :
  exists k splits,
    snd (convert options w []) = firstn k (pipeline_prelude options) ++ splits
    /\ forallb is_split splits = true.
Proof.
  rewrite convert_eq.
  destruct (mkdir w _); [|exists 0%nat, []; split; reflexivity].
  destruct (fst (get_metainfo _ _ w [])); [|exists 1%nat, []; split; reflexivity].
  destruct (spawn w _ _); [|exists 2%nat, []; split; reflexivity].
  destruct (fst (get_chapters _ _ w _)) as [chapters|e];
    [|exists 3%nat, []; split; reflexivity].
  destruct (py_iter chapters) as [items|e]; [|exists 3%nat, []; split; reflexivity].
  destruct (for_each_chapter_splits options w items 1 (pipeline_prelude options))
    as (splits & Hs & Hall).
  exists 3%nat, splits. split; [exact Hs|exact Hall].
Qed.

Lemma In_prelude (options : Options) (k : nat) (inv : Invocation) :
  In inv (firstn k (pipeline_prelude options)) ->
  inv = metainfo_invocation (pipeline_ffmpeg options) (input options)
  \/ inv = transcode_invocation (tool options) (lit "11bb9604") (input options) temp_name
  \/ inv = chapters_invocation (pipeline_ffmpeg options) temp_name.
Proof.
  intros H.
  assert (Hin : In inv (pipeline_prelude options)).
  { rewrite <- (firstn_skipn k). apply in_or_app. left. exact H. }
  simpl in Hin. intuition auto.
Qed.

Lemma is_split_not_transcode (inv : Invocation) :
  is_split inv = true -> is_transcode inv = false.
Proof.
  unfold is_split, is_transcode.
  destruct (arguments inv) as [|a [|b [|c r]]]; auto.
  intros H. apply andb_true_iff in H as [_ H].
  unfold str_eqb in *.
  destruct (list_eq_dec N.eq_dec b (lit "-loglevel")) as [->|]; [|discriminate].
  rewrite andb_false_r. reflexivity.
Qed.

(** The only transcode invocation that a run can contain is the one with
    the credential written in [convert]. *)
Lemma convert_transcode_invocations (options : Options) (w : World) (inv : Invocation) :
  In inv (snd (convert options w [])) -> is_transcode inv = true ->
  inv = transcode_invocation (tool options) default_activate_bytes
          (input options) temp_name.
Proof.
  intros Hin Ht.
  destruct (convert_trace_shape options w) as (k & splits & Htr & Hall).
  rewrite Htr in Hin. apply in_app_or in Hin as [Hin|Hin].
  - apply In_prelude in Hin as [->|[->| ->]]; [discriminate Ht|reflexivity|discriminate Ht].
  - rewrite forallb_forall in Hall. apply Hall in Hin.
    apply is_split_not_transcode in Hin. congruence.
Qed.

(** When every entry has numeric times and the tool starts, the loop
    completes. *)
Lemma for_each_chapter_completes (options : Options) (w : World) (items : list json) :
  Forall (fun ch => is_ok (chapter_times ch) = true) items ->
  (forall tr inv, spawn w tr inv <> NotStarted) ->
  forall (i : N) (tr : list Invocation),
    fst (for_each (enumerate i items)
           (convert_chapter (pipeline_ffmpeg options) (Path (out_path options))
              (title options)) w tr) = Ok tt.
Proof.
  intros Hall Hspawn. induction Hall as [|ch items Hch _ IH]; intros i tr.
  - reflexivity.
  - cbn [enumerate for_each]. unfold bind at 1. rewrite convert_chapter_eq.
    destruct (chapter_times ch) as [[s e]|err]; [|discriminate Hch].
    destruct (spawn w tr (chapter_invocation options i s e)) eqn:E.
    + apply IH.
    + exfalso. exact (Hspawn _ _ E).
Qed.

(** A run completes when the directory can be made, the tool starts, the
    metadata probe prints parseable text and the chapter probe prints a
    listing whose entries all have numeric times. *)
Lemma convert_completes (options : Options) (w : World) (items : list json) :
  mkdir w (path_str (Path (out_path options))) = true ->
  (forall tr inv, spawn w tr inv <> NotStarted) ->
  is_ok (fst (get_metainfo (pipeline_ffmpeg options) (input options) w [])) = true ->
  fst (get_chapters (pipeline_ffmpeg options) temp_name w
         (firstn 2 (pipeline_prelude options))) = Ok (JArr items) ->
  Forall (fun ch => is_ok (chapter_times ch) = true) items ->
  fst (convert options w []) = Ok tt.
Proof.
  intros Hmk Hspawn Hmeta Hprobe Hall. rewrite convert_eq, Hmk.
  destruct (fst (get_metainfo _ _ w [])); [|discriminate Hmeta].
  destruct (spawn w _ _) eqn:E; [|exfalso; exact (Hspawn _ _ E)].
  rewrite Hprobe. cbn [py_iter].
  apply for_each_chapter_completes; assumption.
Qed.

(** * Paths of the output files *)

Lemma forallb_impl (p q : N -> bool) (s : str) :
  (forall c, p c = true -> q c = true) ->
  forallb p s = true -> forallb q s = true.
Proof.
  intros Hpq. induction s as [|c t IH]; simpl; auto.
  intros H. apply andb_true_iff in H as [Hc Ht].
  rewrite (Hpq c Hc), (IH Ht). reflexivity.
Qed.

Lemma split_no_slash (s : str) : forallb not_slash s = true -> split slash s = [s].
Proof.
  induction s as [|c t IH]; simpl; auto.
  intros H. apply andb_true_iff in H as [Hc Ht]. unfold not_slash in Hc.
  apply negb_true_iff in Hc. rewrite Hc, (IH Ht). reflexivity.
Qed.

Lemma Path_single (s : str) :
  forallb not_slash s = true -> (2 <= length s)%nat ->
  Path s = {| root := []; parts := [s] |}.
Proof.
  intros Hs Hl. unfold Path.
  assert (Hr : splitroot s = ([], s)).
  { destruct s as [|c t]; [reflexivity|].
    simpl in Hs. apply andb_true_iff in Hs as [Hc _].
    unfold not_slash in Hc. apply negb_true_iff, N.eqb_neq in Hc.
    unfold splitroot. destruct c as [|p]; [reflexivity|].
    do 6 (destruct p as [p|p|]; try reflexivity). exfalso. apply Hc. reflexivity. }
  rewrite Hr, (split_no_slash s Hs). simpl filter.
  replace (keep_part s) with true; [reflexivity|].
  destruct s as [|a [|b t]]; simpl in Hl; try lia.
  unfold keep_part, str_eqb.
  destruct (list_eq_dec N.eq_dec (a :: b :: t) (lit ".")) as [E|]; [|reflexivity].
  discriminate E.
Qed.

Lemma truediv_single (p : PurePath) (s : str) :
  forallb not_slash s = true -> (2 <= length s)%nat ->
  truediv p s = {| root := root p; parts := parts p ++ [s] |}.
Proof.
  intros Hs Hl. unfold truediv. rewrite (Path_single s Hs Hl). reflexivity.
Qed.

Lemma chapter_filename_no_slash (i : N) (title : str) :
  forallb not_slash (chapter_filename i title) = true
  /\ (2 <= length (chapter_filename i title))%nat.
Proof.
  unfold chapter_filename, chapter_file_title. split.
  - rewrite !forallb_app. repeat (apply andb_true_iff; split); try reflexivity.
    + apply forallb_impl with (p := is_digit); [|apply all_digits_format_03d].
      intros c Hc. unfold is_digit in Hc. unfold not_slash.
      apply negb_true_iff, N.eqb_neq. intros ->. discriminate Hc.
    + apply forallb_impl with (p := fun c => negb (is_reserved c));
        [|apply safe_name_no_reserved].
      intros c Hc. unfold not_slash. apply negb_true_iff, N.eqb_neq.
      intros ->. discriminate Hc.
  - rewrite !length_app. simpl. lia.
Qed.

(** * Rounding to binary64 *)

Section Rounding.

Local Open Scope Z_scope.

Lemma pow2_pos (k : Z) : 0 <= k -> 0 < 2 ^ k.
Proof. intros H. apply Z.pow_pos_nonneg; lia. Qed.

Lemma pow2_add (a b : Z) : 0 <= a -> 0 <= b -> 2 ^ (a + b) = 2 ^ a * 2 ^ b.
Proof. intros Ha Hb. apply Z.pow_add_r; assumption. Qed.

Lemma pow2_succ (a : Z) : 0 <= a -> 2 ^ (a + 1) = 2 * 2 ^ a.
Proof. intros Ha. rewrite pow2_add by lia. simpl (2 ^ 1). lia. Qed.

(** A positive integer lies between two consecutive powers of two for one
    exponent only. *)
Lemma pow2_interval_unique (a b v : Z) :
  0 <= a -> 0 <= b ->
  2 ^ a <= v < 2 ^ (a + 1) -> 2 ^ b <= v < 2 ^ (b + 1) -> a = b.
Proof.
  intros Ha Hb [Ha1 Ha2] [Hb1 Hb2].
  destruct (Z.lt_trichotomy a b) as [H|[H|H]]; [exfalso|exact H|exfalso].
  - assert (2 ^ (a + 1) <= 2 ^ b) by (apply Z.pow_le_mono_r; lia). lia.
  - assert (2 ^ (b + 1) <= 2 ^ a) by (apply Z.pow_le_mono_r; lia). lia.
Qed.

Lemma digits_of_bounds (p : positive) (n : Z) :
  1 <= n -> 2 ^ (n - 1) <= Zpos p < 2 ^ n -> Zpos (digits2_pos p) = n.
Proof.
  intros Hn Hp. pose proof (digits2_pos_bounds p) as Hd.
  assert (E : Zpos (digits2_pos p) - 1 = n - 1); [|lia].
  apply (pow2_interval_unique _ _ (Zpos p)); try lia.
  - replace (Zpos (digits2_pos p) - 1 + 1) with (Zpos (digits2_pos p)) by lia.
    exact Hd.
  - replace (n - 1 + 1) with n by lia. exact Hp.
Qed.

Lemma iter_pos_nat {A} (f : A -> A) (p : positive) :
  forall x : A, iter_pos f p x = Nat.iter (Pos.to_nat p) f x.
Proof.
  induction p as [p IH|p IH|]; intros x; cbn [iter_pos].
  - rewrite !IH, Pos2Nat.inj_xI.
    replace (S (2 * Pos.to_nat p))%nat with (Pos.to_nat p + (Pos.to_nat p + 1))%nat by lia.
    rewrite !Nat.iter_add. reflexivity.
  - rewrite !IH, Pos2Nat.inj_xO.
    replace (2 * Pos.to_nat p)%nat with (Pos.to_nat p + Pos.to_nat p)%nat by lia.
    rewrite Nat.iter_add. reflexivity.
  - reflexivity.
Qed.

(** Shifting a mantissa right by [k] bits: the quotient, and what the two
    flags record of the remainder. *)
Lemma shr_iter_spec (M : Z) (k : nat) :
  0 <= M ->
  let mrs := Nat.iter k shr_1 {| shr_m := M; shr_r := false; shr_s := false |} in
  exists rem : Z,
    M = shr_m mrs * 2 ^ Z.of_nat k + rem
    /\ 0 <= shr_m mrs
    /\ 0 <= rem < 2 ^ Z.of_nat k
    /\ (shr_r mrs = true <-> 2 ^ Z.of_nat k <= 2 * rem)
    /\ (shr_s mrs = false <-> (rem = 0 \/ 2 * rem = 2 ^ Z.of_nat k)).
Proof.
  intros HM. induction k as [|k IH].
  - exists 0. cbn. repeat split; try lia; try discriminate; auto.
  - cbn zeta in IH |- *. rewrite Nat.iter_succ.
    destruct IH as (rem & E & Hm & Hrem & Hr & Hs).
    destruct (Nat.iter k shr_1 _) as [m r s]. cbn [shr_m shr_r shr_s] in *.
    rewrite Nat2Z.inj_succ, <- Z.add_1_r, pow2_succ by lia.
    set (P := 2 ^ Z.of_nat k) in *.
    assert (HP : 0 < P) by (apply pow2_pos; lia).
    assert (Hrs : (r || s = false) <-> rem = 0).
    { rewrite orb_false_iff. split.
      - intros [H1 H2]. apply Hs in H2. destruct H2 as [H2|H2]; [exact H2|].
        assert (r = true) by (apply Hr; lia). congruence.
      - intros ->. split; [|apply Hs; auto].
        destruct r; [|reflexivity]. assert (P <= 2 * 0) by (apply Hr; reflexivity). lia. }
    unfold shr_1.
    destruct m as [|[p|p|]|p]; cbn [shr_m shr_r shr_s]; try lia;
      try rewrite Pos2Z.inj_xI in E; try rewrite Pos2Z.inj_xO in E;
      [exists rem|exists (P + rem)|exists rem|exists (P + rem)];
      (split; [lia|]); (split; [lia|]); (split; [lia|]);
      (split; [split; intros H; try discriminate H; try reflexivity; lia|]);
      rewrite Hrs; split; intros H; lia.
Qed.

(** Rounding the shifted mantissa to nearest: the result is the quotient or
    its successor, at most half a unit away, and the quotient itself when
    nothing was shifted out. *)
Lemma round_shifted (M : Z) (k : nat) :
  0 <= M ->
  let mrs := Nat.iter k shr_1 {| shr_m := M; shr_r := false; shr_s := false |} in
  let q := round_nearest_even (shr_m mrs) (loc_of_shr_record mrs) in
  M / 2 ^ Z.of_nat k <= q <= M / 2 ^ Z.of_nat k + 1
  /\ 2 * Z.abs (q * 2 ^ Z.of_nat k - M) <= 2 ^ Z.of_nat k
  /\ (M mod 2 ^ Z.of_nat k = 0 -> q = M / 2 ^ Z.of_nat k).
Proof.
  intros HM. cbn zeta.
  destruct (shr_iter_spec M k HM) as (rem & E & Hm & Hrem & Hr & Hs).
  destruct (Nat.iter k shr_1 _) as [m r s]. cbn [shr_m shr_r shr_s] in *.
  set (P := 2 ^ Z.of_nat k) in *.
  assert (HP : 0 < P) by (apply pow2_pos; lia).
  assert (Hq : M / P = m).
  { symmetry. apply (Z.div_unique M P m rem); lia. }
  assert (Hmod : M mod P = rem).
  { symmetry. apply (Z.mod_unique M P m rem); lia. }
  rewrite Hq, Hmod.
  assert (Hr' : r = false -> 2 * rem < P).
  { intros ->. destruct (Z.lt_ge_cases (2 * rem) P) as [H|H]; [exact H|].
    apply Hr in H. discriminate H. }
  assert (Hr'' : r = true -> P <= 2 * rem) by (intros H; apply Hr, H).
  assert (Hs' : s = true -> rem <> 0 /\ 2 * rem <> P).
  { intros ->. split; intros H; [assert (true = false) by (apply Hs; auto)
                               |assert (true = false) by (apply Hs; auto)];
      discriminate. }
  assert (Hs'' : s = false -> rem = 0 \/ 2 * rem = P) by (intros H; apply Hs, H).
  destruct r, s; cbn [loc_of_shr_record round_nearest_even];
    try specialize (Hr' eq_refl); try specialize (Hr'' eq_refl);
    try specialize (Hs' eq_refl); try specialize (Hs'' eq_refl).
  - repeat split; first [lia|nia].
  - destruct (Z.even m); repeat split; first [lia|nia].
  - repeat split; first [lia|nia].
  - repeat split; first [lia|nia].
Qed.

Lemma fexp_eq (x : Z) : fexp prec emax x = Z.max (x - 53) (-1074).
Proof. reflexivity. Qed.

Lemma shr_nat (mrs : shr_record) (e n : Z) :
  shr mrs e n = (Nat.iter (Z.to_nat n) shr_1 mrs, e + Z.max 0 n).
Proof.
  destruct n as [|p|p]; cbn [shr Z.to_nat Nat.iter].
  - f_equal. lia.
  - rewrite iter_pos_nat. f_equal.
  - f_equal. lia.
Qed.

Lemma shr_fexp_exact (m e : Z) :
  shr_fexp prec emax m e loc_Exact
  = (Nat.iter (Z.to_nat (fexp prec emax (Zdigits2 m + e) - e)) shr_1
       {| shr_m := m; shr_r := false; shr_s := false |},
     e + Z.max 0 (fexp prec emax (Zdigits2 m + e) - e)).
Proof. unfold shr_fexp. rewrite shr_nat. reflexivity. Qed.

(** A mantissa that already has its exponent is left as it is. *)
Lemma shr_fexp_canonical (m : positive) (e : Z) :
  fexp prec emax (Zpos (digits2_pos m) + e) = e ->
  shr_fexp prec emax (Zpos m) e loc_Exact
  = ({| shr_m := Zpos m; shr_r := false; shr_s := false |}, e).
Proof.
  intros H. rewrite shr_fexp_exact. cbn [Zdigits2]. rewrite H, Z.sub_diag.
  cbn. f_equal. lia.
Qed.

(** Rounding an aligned mantissa: the result is the number of mantissa [m]
    and exponent [e], or the infinity when [e] is above the exponent of the
    largest number; its value is within one part in 2^53 of the value
    rounded, and is this value when the bits shifted out are zero. *)
Lemma binary_round_aux_spec (s : bool) (M : positive) (e0 : Z) :
  -1074 <= e0 ->
  e0 <= fexp prec emax (Zpos (digits2_pos M) + e0) ->
  exists (m : positive) (e : Z),
    binary_round_aux prec emax s (Zpos M) e0 loc_Exact
    = (if e <=? 971 then S754_finite s m e else S754_infinity s)
    /\ canonical_mantissa prec emax m e = true
    /\ e0 <= e
    /\ 2 ^ 53 * Z.abs (Zpos m * 2 ^ (e - e0) - Zpos M) <= Zpos M
    /\ (Zpos M mod 2 ^ (fexp prec emax (Zpos (digits2_pos M) + e0) - e0) = 0 ->
        Zpos m * 2 ^ (e - e0) = Zpos M
        /\ e = fexp prec emax (Zpos (digits2_pos M) + e0)).
Proof.
  intros He0 Hal.
  pose proof (digits2_pos_bounds M) as HdM.
  set (d := Zpos (digits2_pos M)) in *.
  assert (Hd : 1 <= d) by (unfold d; lia).
  set (F := fexp prec emax (d + e0)) in *.
  assert (HF : F = Z.max (d + e0 - 53) (-1074)) by apply fexp_eq.
  set (k := F - e0) in *.
  assert (Hk : 0 <= k) by (unfold k; lia).
  unfold binary_round_aux. rewrite shr_fexp_exact. cbn [Zdigits2]. fold d F k.
  replace (e0 + Z.max 0 k) with F by (unfold k; lia).
  pose proof (round_shifted (Zpos M) (Z.to_nat k) ltac:(lia)) as Hround.
  cbn zeta in Hround. rewrite Z2Nat.id in Hround by exact Hk.
  set (mrs := Nat.iter (Z.to_nat k) shr_1 _) in *.
  set (q := round_nearest_even (shr_m mrs) (loc_of_shr_record mrs)) in *.
  clearbody q. clear mrs.
  set (P := 2 ^ k) in *.
  assert (HP : 0 < P) by (apply pow2_pos; exact Hk).
  destruct Hround as (Hq & Herr & Hexact).
  assert (Hcases :
            (k = 0 /\ q = Zpos M)
            \/ (0 < k /\ d = 53 + k /\ 2 ^ 52 <= q <= 2 ^ 53
                /\ 2 ^ 52 * P <= Zpos M)).
  { destruct (Z.eq_dec k 0) as [E|E].
    - left. split; [exact E|]. unfold P in *. rewrite E in *.
      simpl (2 ^ 0) in *. rewrite Z.div_1_r in *. apply Hexact, Z.mod_1_r.
    - right. assert (Hkd : d = 53 + k) by (unfold k in *; lia).
      split; [lia|]. split; [exact Hkd|].
      assert (E1 : 2 ^ (d - 1) = 2 ^ 52 * P).
      { unfold P. rewrite <- pow2_add by lia. f_equal. lia. }
      assert (E2 : 2 ^ d = 2 ^ 53 * P).
      { unfold P. rewrite <- pow2_add by lia. f_equal. lia. }
      rewrite E1, E2 in HdM.
      assert (2 ^ 52 <= Zpos M / P) by (apply Z.div_le_lower_bound; lia).
      assert (Zpos M / P < 2 ^ 53) by (apply Z.div_lt_upper_bound; lia).
      lia. }
  assert (Hqpos : 0 < q) by (destruct Hcases as [[_ ->]|(_ & _ & H & _)]; lia).
  destruct q as [|qp|qp]; try lia.
  assert (Hsecond :
            fexp prec emax (Zpos (digits2_pos qp) + F) = F
            \/ (0 < k /\ Zpos qp = 2 ^ 53)).
  { destruct Hcases as [[Hk0 Hq0]|(Hk0 & Hkd & Hq52 & _)].
    - left. injection Hq0 as ->. fold d. unfold k in Hk0.
      replace F with e0 at 1 by lia. fold F. lia.
    - destruct (Z.eq_dec (Zpos qp) (2 ^ 53)) as [E|E]; [right; auto|left].
      rewrite (digits_of_bounds qp 53) by (simpl (53 - 1); lia).
      rewrite fexp_eq. lia. }
  destruct Hsecond as [Hcan|[Hk0 Hq53]].
  - rewrite (shr_fexp_canonical qp F Hcan). cbn [shr_m].
    exists qp, F. change (emax - prec) with 971.
    split; [reflexivity|]. split; [unfold canonical_mantissa; apply Z.eqb_eq, Hcan|].
    split; [lia|]. fold k P.
    split.
    + destruct Hcases as [[Hk0 Hq0]|(Hk0 & Hkd & Hq52 & HM)].
      * rewrite Hq0. unfold P. rewrite Hk0. simpl (2 ^ 0).
        rewrite Z.mul_1_r, Z.sub_diag. simpl Z.abs. lia.
      * assert (2 ^ 53 * (2 * Z.abs (Zpos qp * P - Zpos M)) <= 2 ^ 53 * P)
          by (apply Z.mul_le_mono_nonneg_l; lia).
        lia.
    + intros Hmod. specialize (Hexact Hmod). split; [|reflexivity].
      rewrite Hexact. rewrite Z.mul_comm. symmetry.
      apply Z.div_exact; [lia|exact Hmod].
  - destruct Hcases as [[Hk' _]|(_ & Hkd & Hq52 & HM)]; [lia|].
    injection Hq53 as ->.
    rewrite shr_fexp_exact. cbn [Zdigits2].
    change (Zpos (digits2_pos 9007199254740992)) with 54.
    replace (fexp prec emax (54 + F) - F) with 1 by (rewrite fexp_eq; lia).
    cbn [Z.to_nat Pos.to_nat Pos.iter_op Nat.iter shr_1 shr_m Z.max Z.add].
    change (Nat.iter (Z.to_nat 1) shr_1
              {| shr_m := 9007199254740992; shr_r := false; shr_s := false |})
      with {| shr_m := 4503599627370496; shr_r := false; shr_s := false |}.
    cbn [shr_m].
    exists 4503599627370496%positive, (F + 1). change (emax - prec) with 971.
    replace (F + Z.max 0 1) with (F + 1) by lia.
    split; [reflexivity|].
    split.
    { unfold canonical_mantissa. apply Z.eqb_eq.
      change (Zpos (digits2_pos 4503599627370496)) with 53.
      rewrite fexp_eq. lia. }
    split; [lia|].
    replace (F + 1 - e0) with (k + 1) by (unfold k; lia).
    rewrite pow2_succ by lia. fold P.
    split.
    + assert (2 ^ 53 * (2 * Z.abs (9007199254740992 * P - Zpos M)) <= 2 ^ 53 * P)
        by (apply Z.mul_le_mono_nonneg_l; lia).
      change (2 ^ 53) with 9007199254740992 in *.
      change (2 ^ 52) with 4503599627370496 in *.
      lia.
    + intros Hmod. specialize (Hexact Hmod). exfalso.
      assert (Zpos M / P < 2 ^ 53).
      { apply Z.div_lt_upper_bound; [lia|].
        assert (E2 : 2 ^ d = 2 ^ 53 * P).
        { unfold P. rewrite <- pow2_add by lia. f_equal. lia. }
        lia. }
      change (2 ^ 53) with 9007199254740992 in *. lia.
Qed.

(** The value of a mantissa with its exponent lies between the two powers
    of two that the number of its bits gives. *)
Lemma value_bounds (m : positive) (e : Z) :
  0 <= e ->
  2 ^ (Zpos (digits2_pos m) - 1 + e) <= Zpos m * 2 ^ e
  < 2 ^ (Zpos (digits2_pos m) - 1 + e + 1).
Proof.
  intros He. pose proof (digits2_pos_bounds m) as [H1 H2].
  set (d := Zpos (digits2_pos m)) in *.
  assert (Hd : 1 <= d) by (unfold d; lia).
  assert (HP : 0 < 2 ^ e) by (apply pow2_pos; exact He).
  replace (d - 1 + e + 1) with (d + e) by lia.
  rewrite !pow2_add by lia. split.
  - apply Z.mul_le_mono_nonneg_r; lia.
  - apply Z.mul_lt_mono_pos_r; lia.
Qed.

(** Two mantissas with exponents that have the same value have the same
    magnitude. *)
Lemma same_value_same_magnitude (m1 : positive) (e1 : Z) (m2 : positive) (e2 : Z) :
  0 <= e1 -> 0 <= e2 ->
  Zpos m1 * 2 ^ e1 = Zpos m2 * 2 ^ e2 ->
  Zpos (digits2_pos m1) + e1 = Zpos (digits2_pos m2) + e2.
Proof.
  intros H1 H2 E.
  pose proof (value_bounds m1 e1 H1) as B1.
  pose proof (value_bounds m2 e2 H2) as B2.
  rewrite E in B1.
  assert (Zpos (digits2_pos m1) - 1 + e1 = Zpos (digits2_pos m2) - 1 + e2); [|lia].
  apply (pow2_interval_unique _ _ (Zpos m2 * 2 ^ e2)); try lia.
Qed.

(** The alignment that precedes rounding keeps the value and leaves an
    exponent that rounding can only raise. *)
Lemma shl_align_fexp_spec (mx : positive) (ex : Z) :
  -1074 <= ex ->
  exists (M : positive) (e0 : Z),
    shl_align mx ex (fexp prec emax (Zpos (digits2_pos mx) + ex)) = (M, e0)
    /\ -1074 <= e0
    /\ e0 <= fexp prec emax (Zpos (digits2_pos M) + e0)
    /\ Zpos M * 2 ^ (e0 + 1074) = Zpos mx * 2 ^ (ex + 1074).
Proof.
  intros Hex.
  set (d := Zpos (digits2_pos mx)).
  set (F := fexp prec emax (d + ex)).
  assert (HF : F = Z.max (d + ex - 53) (-1074)) by apply fexp_eq.
  assert (HF' : fexp prec emax (d + ex) = F) by reflexivity.
  unfold shl_align. clearbody F.
  destruct (F - ex) as [|p|p] eqn:E.
  - exists mx, ex. fold d. rewrite HF'. repeat split; lia.
  - exists mx, ex. fold d. rewrite HF'. repeat split; lia.
  - exists (Pos.iter xO mx p), F.
    assert (Hval : Zpos (Pos.iter xO mx p) * 2 ^ (F + 1074) = Zpos mx * 2 ^ (ex + 1074)).
    { rewrite iter_xO. replace (ex + 1074) with (Zpos p + (F + 1074)) by lia.
      rewrite (pow2_add (Zpos p) (F + 1074)) by lia. ring. }
    split; [reflexivity|]. split; [lia|]. split; [|exact Hval].
    pose proof (same_value_same_magnitude _ (F + 1074) mx (ex + 1074)
                  ltac:(lia) ltac:(lia) Hval) as Hmag.
    fold d in Hmag.
    replace (Zpos (digits2_pos (Pos.iter xO mx p)) + F) with (d + ex) by lia.
    rewrite HF'. lia.
Qed.

Lemma canonical_exponent (m : positive) (e : Z) :
  canonical_mantissa prec emax m e = true ->
  e = fexp prec emax (Zpos (digits2_pos m) + e) /\ -1074 <= e.
Proof.
  unfold canonical_mantissa. intros H. apply Z.eqb_eq in H.
  split; [symmetry; exact H|]. rewrite fexp_eq in H. lia.
Qed.

(** Rounding [mx * 2^ex] to binary64.  Values are counted in units of
    2^-1074.  The result is the number of mantissa [m] and exponent [e], or
    the infinity when [e] is above 971; it is within one part in 2^53 of the
    value rounded, and it is this value when a binary64 number has it. *)
Lemma binary_round_spec (s : bool) (mx : positive) (ex : Z) :
  -1074 <= ex ->
  exists (m : positive) (e : Z),
    binary_round prec emax s mx ex
    = (if e <=? 971 then S754_finite s m e else S754_infinity s)
    /\ canonical_mantissa prec emax m e = true
    /\ 2 ^ 53 * Z.abs (Zpos m * 2 ^ (e + 1074) - Zpos mx * 2 ^ (ex + 1074))
       <= Zpos mx * 2 ^ (ex + 1074)
    /\ (forall (md : positive) (ed : Z),
          canonical_mantissa prec emax md ed = true ->
          Zpos md * 2 ^ (ed + 1074) = Zpos mx * 2 ^ (ex + 1074) ->
          m = md /\ e = ed).
Proof.
  intros Hex. unfold binary_round.
  destruct (shl_align_fexp_spec mx ex Hex) as (M & e0 & -> & He0 & Hal & Hval).
  destruct (binary_round_aux_spec s M e0 He0 Hal) as (m & e & Hr & Hcan & Hle & Herr & Hex').
  exists m, e. split; [exact Hr|]. split; [exact Hcan|].
  rewrite <- Hval.
  assert (HQ : 0 < 2 ^ (e0 + 1074)) by (apply pow2_pos; lia).
  assert (Hsplit : 2 ^ (e + 1074) = 2 ^ (e - e0) * 2 ^ (e0 + 1074)).
  { rewrite <- pow2_add by lia. f_equal. lia. }
  split.
  - rewrite Hsplit.
    replace (Zpos m * (2 ^ (e - e0) * 2 ^ (e0 + 1074)) - Zpos M * 2 ^ (e0 + 1074))
      with ((Zpos m * 2 ^ (e - e0) - Zpos M) * 2 ^ (e0 + 1074)) by ring.
    rewrite Z.abs_mul, (Z.abs_eq (2 ^ (e0 + 1074))) by lia.
    rewrite Z.mul_assoc. apply Z.mul_le_mono_nonneg_r; [lia|exact Herr].
  - intros md ed Hd Hvd.
    destruct (canonical_exponent md ed Hd) as [Hed Hed0].
    pose proof (same_value_same_magnitude md (ed + 1074) M (e0 + 1074)
                  ltac:(lia) ltac:(lia) Hvd) as Hmag.
    replace (Zpos (digits2_pos md) + ed) with (Zpos (digits2_pos M) + e0) in Hed by lia.
    set (F := fexp prec emax (Zpos (digits2_pos M) + e0)) in *. clearbody F.
    subst ed.
    assert (HM : Zpos M = Zpos md * 2 ^ (F - e0)).
    { apply (Z.mul_reg_r _ _ (2 ^ (e0 + 1074))); [lia|].
      rewrite <- Hvd, <- Z.mul_assoc, <- pow2_add by lia.
      f_equal. f_equal. lia. }
    assert (HP : 0 < 2 ^ (F - e0)) by (apply pow2_pos; lia).
    destruct Hex' as [Hv He].
    { rewrite HM. apply Z.mod_mul. lia. }
    split; [|exact He]. subst e. rewrite HM in Hv.
    apply Z.mul_reg_r in Hv; [|lia]. congruence.
Qed.

(** A binary64 number is determined by its value. *)
Lemma fvalue_inj (x y : float) :
  valid_float x = true -> valid_float y = true ->
  fvalue x = fvalue y -> fvalue x <> 0 -> x = y.
Proof.
  intros Hx Hy E Hnz.
  destruct x as [sx|sx| |sx mx ex]; try (exfalso; apply Hnz; reflexivity).
  destruct y as [sy|sy| |sy my ey];
    try (exfalso; apply Hnz; rewrite E; reflexivity).
  unfold valid_float, valid_binary, bounded in Hx, Hy.
  apply andb_true_iff in Hx as [Hx _]. apply andb_true_iff in Hy as [Hy _].
  destruct (canonical_exponent mx ex Hx) as [Hex Hex0].
  destruct (canonical_exponent my ey Hy) as [Hey Hey0].
  cbn [fvalue] in E.
  assert (Px : 0 < 2 ^ (ex + 1074)) by (apply pow2_pos; lia).
  assert (Py : 0 < 2 ^ (ey + 1074)) by (apply pow2_pos; lia).
  assert (Hs : sx = sy).
  { destruct sx, sy; cbn [cond_Zopp] in E; try reflexivity; exfalso; nia. }
  subst sy.
  assert (Hv : Zpos mx * 2 ^ (ex + 1074) = Zpos my * 2 ^ (ey + 1074)).
  { destruct sx; cbn [cond_Zopp] in E; lia. }
  pose proof (same_value_same_magnitude mx (ex + 1074) my (ey + 1074)
                ltac:(lia) ltac:(lia) Hv) as Hmag.
  assert (He : ex = ey).
  { rewrite Hex, Hey. f_equal. lia. }
  subst ey. apply Z.mul_reg_r in Hv; [|lia]. congruence.
Qed.

(** The aligned mantissa of a binary64 number carries its value. *)
Lemma aligned_value (s : bool) (m : positive) (e ez : Z) :
  -1074 <= ez -> ez <= e ->
  cond_Zopp s (Zpos (fst (shl_align m e ez))) * 2 ^ (ez + 1074)
  = fvalue (S754_finite s m e).
Proof.
  intros H1 H2. rewrite shl_align_value by exact H2. cbn [fvalue].
  replace (e + 1074) with (e - ez + (ez + 1074)) by lia.
  rewrite (pow2_add (e - ez) (ez + 1074)) by lia.
  destruct s; cbn [cond_Zopp]; ring.
Qed.

(** The subtraction of two finite binary64 numbers, with values counted in
    units of 2^-1074: it is not positive when the exact difference is not;
    otherwise it is the binary64 number that has the exact difference for
    its value when there is one, and in general the infinity, the exact
    difference being above the largest number, or a number within one part
    in 2^53 of the exact difference. *)
Lemma fsub_value (x y : float) :
  valid_float x = true -> valid_float y = true ->
  is_finite x = true -> is_finite y = true ->
  (fvalue x - fvalue y <= 0 -> fltb fzero (fsub x y) = false)
  /\ (0 < fvalue x - fvalue y ->
      fltb fzero (fsub x y) = true
      /\ (forall d : float,
            valid_float d = true -> fvalue d = fvalue x - fvalue y -> fsub x y = d)
      /\ (fsub x y = S754_infinity false /\ max_fvalue < fvalue x - fvalue y
          \/ is_finite (fsub x y) = true /\ valid_float (fsub x y) = true
             /\ 2 ^ 53 * Z.abs (fvalue (fsub x y) - (fvalue x - fvalue y))
                <= fvalue x - fvalue y)).
Proof.
  intros Hx Hy Fx Fy.
  assert (Hself : forall (m : positive) (e : Z),
             bounded prec emax m e = true ->
             0 < Zpos m * 2 ^ (e + 1074)).
  { intros m e Hb. destruct (bounded_facts m e Hb) as (_ & He & _).
    assert (0 < 2 ^ (e + 1074)) by (apply pow2_pos; lia). nia. }
  assert (Hexact : forall r : float,
             valid_float r = true -> is_finite r = true ->
             0 < fvalue r ->
             fltb fzero r = true
             /\ (forall d : float, valid_float d = true -> fvalue d = fvalue r -> r = d)
             /\ (r = S754_infinity false /\ max_fvalue < fvalue r
                 \/ is_finite r = true /\ valid_float r = true
                    /\ 2 ^ 53 * Z.abs (fvalue r - fvalue r) <= fvalue r)).
  { intros r Hr Fr Hpos. split; [|split].
    - destruct r as [s|s| |s m e]; cbn [fvalue] in Hpos; try lia.
      destruct s; [|reflexivity]. exfalso.
      pose proof (Hself m e Hr). cbn [cond_Zopp] in Hpos. lia.
    - intros d Hd E. apply fvalue_inj; [exact Hr|exact Hd|congruence|lia].
    - right. split; [exact Fr|]. split; [exact Hr|].
      rewrite Z.sub_diag. simpl Z.abs. lia. }
  destruct x as [sx|sx| |sx mx ex]; try discriminate Fx;
    destruct y as [sy|sy| |sy my ey]; try discriminate Fy.
  - (* two zeros *)
    cbn [fvalue]. split; [|lia]. intros _. destruct sx, sy; reflexivity.
  - (* zero minus a number *)
    change (fsub (S754_zero sx) (S754_finite sy my ey))
      with (S754_finite (negb sy) my ey).
    pose proof (Hself my ey Hy) as Hpos.
    assert (Hv : fvalue (S754_zero sx) - fvalue (S754_finite sy my ey)
                 = fvalue (S754_finite (negb sy) my ey)).
    { cbn [fvalue]. destruct sy; cbn [negb cond_Zopp]; lia. }
    rewrite Hv. split.
    + intros H. destruct sy; [cbn [fvalue negb cond_Zopp] in H; lia|reflexivity].
    + intros H. apply Hexact; [exact Hy|reflexivity|exact H].
  - (* a number minus zero *)
    change (fsub (S754_finite sx mx ex) (S754_zero sy))
      with (S754_finite sx mx ex).
    pose proof (Hself mx ex Hx) as Hpos.
    replace (fvalue (S754_finite sx mx ex) - fvalue (S754_zero sy))
      with (fvalue (S754_finite sx mx ex)) by (cbn [fvalue]; lia).
    split.
    + intros H. destruct sx; [reflexivity|cbn [fvalue cond_Zopp] in H; lia].
    + intros H. apply Hexact; [exact Hx|reflexivity|exact H].
  - (* two numbers *)
    destruct (bounded_facts mx ex Hx) as (_ & Hex & _).
    destruct (bounded_facts my ey Hy) as (_ & Hey & _).
    set (ez := Z.min ex ey).
    assert (Hez : -1074 <= ez) by (unfold ez; lia).
    pose proof (aligned_value sx mx ex ez Hez ltac:(unfold ez; lia)) as Hax.
    pose proof (aligned_value sy my ey ez Hez ltac:(unfold ez; lia)) as Hay.
    unfold fsub, SFsub. fold ez.
    set (A := cond_Zopp sx (Zpos (fst (shl_align mx ex ez)))) in *.
    set (B := cond_Zopp sy (Zpos (fst (shl_align my ey ez)))) in *.
    assert (HQ : 0 < 2 ^ (ez + 1074)) by (apply pow2_pos; lia).
    assert (HD : fvalue (S754_finite sx mx ex) - fvalue (S754_finite sy my ey)
                 = (A - B) * 2 ^ (ez + 1074)) by (rewrite <- Hax, <- Hay; ring).
    rewrite HD. clearbody A B. clear Hax Hay HD.
    split.
    + intros H. apply binary_normalize_not_positive. nia.
    + intros H. destruct (A - B) as [|p|p]; try lia.
      cbn [binary_normalize].
      destruct (binary_round_spec false p ez Hez) as (m & e & Hr & Hcan & Herr & Hex').
      rewrite Hr. clear Hr.
      destruct (canonical_exponent m e Hcan) as [He He0].
      destruct (Z.leb_spec e 971) as [Hle|Hgt].
      * split; [reflexivity|]. split.
        -- intros d Hd Hvd.
           destruct d as [sd|sd| |sd md ed]; cbn [fvalue] in Hvd; try lia.
           pose proof (Hself md ed Hd) as Hposd.
           destruct sd; cbn [cond_Zopp] in Hvd; [lia|].
           unfold valid_float, valid_binary, bounded in Hd.
           apply andb_true_iff in Hd as [Hd _].
           destruct (Hex' md ed Hd Hvd) as [-> ->]. reflexivity.
        -- right. split; [reflexivity|]. split.
           ++ unfold valid_float, valid_binary, bounded. rewrite Hcan.
              apply Z.leb_le. exact Hle.
           ++ cbn [fvalue cond_Zopp]. exact Herr.
      * split; [reflexivity|]. split.
        -- intros d Hd Hvd. exfalso.
           destruct d as [sd|sd| |sd md ed]; cbn [fvalue] in Hvd; try lia.
           pose proof (Hself md ed Hd) as Hposd.
           destruct sd; cbn [cond_Zopp] in Hvd; [lia|].
           unfold valid_float, valid_binary, bounded in Hd.
           apply andb_true_iff in Hd as [Hd Hd'].
           destruct (Hex' md ed Hd Hvd) as [-> ->].
           apply Z.leb_le in Hd'. change (emax - prec) with 971 in Hd'. lia.
        -- left. split; [reflexivity|].
           pose proof (digits2_pos_bounds m) as [Hm _].
           rewrite fexp_eq in He.
           replace (Zpos (digits2_pos m) - 1) with 52 in Hm by lia.
           assert (Hp : 2 ^ (972 + 1074) <= 2 ^ (e + 1074))
             by (apply Z.pow_le_mono_r; lia).
           set (W := Zpos m * 2 ^ (e + 1074)) in *.
           set (V := Zpos p * 2 ^ (ez + 1074)) in *.
           assert (HW : 2 ^ 52 * 2 ^ (972 + 1074) <= W).
           { unfold W. apply Z.mul_le_mono_nonneg; lia. }
           clearbody W V. unfold max_fvalue.
           change (2 ^ 52 * 2 ^ (972 + 1074)) with (2 ^ 2098) in HW.
           assert (E1 : 2 ^ 2098 = 2 ^ 53 * 2 ^ 2045) by reflexivity.
           set (T := 2 ^ 2045) in *. assert (0 < T) by reflexivity.
           set (S53 := 2 ^ 53) in *. assert (1 < S53) by reflexivity.
           clearbody T S53. nia.
Qed.

(** The duration by value: zero when the end is not after the start;
    otherwise the binary64 number whose value is the exact difference when
    there is one, and in general the infinity or a number within one part
    in 2^53 of the exact difference. *)
Lemma chapter_duration_value (start end_ : float) :
  valid_float start = true -> valid_float end_ = true ->
  is_finite start = true -> is_finite end_ = true ->
  (fvalue end_ - fvalue start <= 0 -> chapter_duration start end_ = fzero)
  /\ (0 < fvalue end_ - fvalue start ->
      (forall d : float,
          valid_float d = true -> fvalue d = fvalue end_ - fvalue start ->
          chapter_duration start end_ = d)
      /\ (chapter_duration start end_ = S754_infinity false
          /\ max_fvalue < fvalue end_ - fvalue start
          \/ is_finite (chapter_duration start end_) = true
             /\ valid_float (chapter_duration start end_) = true
             /\ 2 ^ 53 * Z.abs (fvalue (chapter_duration start end_)
                                - (fvalue end_ - fvalue start))
                <= fvalue end_ - fvalue start)).
Proof.
  intros Hs He Fs Fe.
  destruct (fsub_value end_ start He Hs Fe Fs) as [Hneg Hpos].
  unfold chapter_duration, py_max. split.
  - intros H. rewrite (Hneg H). reflexivity.
  - intros H. destruct (Hpos H) as (Hlt & Hex & Hrnd). rewrite Hlt.
    split; [exact Hex|exact Hrnd].
Qed.

(** ** The numbers that come out of a conversion are binary64 numbers *)

Lemma shr_m_shr_1 (mrs : shr_record) :
  0 <= shr_m mrs -> shr_m (shr_1 mrs) = shr_m mrs / 2.
Proof.
  destruct mrs as [m r s]. cbn [shr_m]. intros Hm. unfold shr_1.
  destruct m as [|[p|p|]|p]; cbn [shr_m]; try lia.
  - reflexivity.
  - rewrite Pos2Z.inj_xI.
    apply (Z.div_unique (2 * Zpos p + 1) 2 (Zpos p) 1); lia.
  - rewrite Pos2Z.inj_xO.
    apply (Z.div_unique (2 * Zpos p) 2 (Zpos p) 0); lia.
  - reflexivity.
Qed.

Lemma shr_m_iter (mrs : shr_record) (k : nat) :
  0 <= shr_m mrs ->
  shr_m (Nat.iter k shr_1 mrs) = shr_m mrs / 2 ^ Z.of_nat k.
Proof.
  intros Hm. induction k as [|k IH].
  - cbn. rewrite Z.div_1_r. reflexivity.
  - rewrite Nat.iter_succ, shr_m_shr_1.
    + rewrite IH, Nat2Z.inj_succ, <- Z.add_1_r, pow2_succ by lia.
      rewrite Z.div_div by (try apply pow2_pos; lia).
      f_equal. lia.
    + rewrite IH. apply Z.div_pos; [exact Hm|apply pow2_pos; lia].
Qed.

Lemma shr_m_of_loc (m : Z) (l : location) : shr_m (shr_record_of_loc m l) = m.
Proof. destruct l as [|[| |]]; reflexivity. Qed.

Lemma round_nearest_even_bounds (q : Z) (l : location) :
  q <= round_nearest_even q l <= q + 1.
Proof.
  destruct l as [|[| |]]; cbn [round_nearest_even]; try lia.
  destruct (Z.even q); lia.
Qed.

Lemma Zdigits2_bounds (q : Z) :
  0 < q -> 1 <= Zdigits2 q /\ 2 ^ (Zdigits2 q - 1) <= q < 2 ^ Zdigits2 q.
Proof.
  destruct q as [|p|p]; try lia. intros _. cbn [Zdigits2].
  split; [lia|apply digits2_pos_bounds].
Qed.

(** The first shift leaves a mantissa below 2^53 that has 53 bits unless
    the exponent is the least one. *)
Lemma shr_fexp_first (m e : Z) (l : location) :
  0 <= m -> -1074 <= e -> e <= fexp prec emax (Zdigits2 m + e) ->
  exists (mrs : shr_record) (F : Z),
    shr_fexp prec emax m e l = (mrs, F)
    /\ -1074 <= F
    /\ 0 <= shr_m mrs < 2 ^ 53
    /\ (2 ^ 52 <= shr_m mrs \/ F = -1074).
Proof.
  intros Hm He Hal. unfold shr_fexp. rewrite shr_nat.
  set (d := Zdigits2 m) in *.
  set (F0 := fexp prec emax (d + e)) in *.
  assert (HF0 : F0 = Z.max (d + e - 53) (-1074)) by apply fexp_eq.
  clearbody F0.
  eexists _, _. split; [reflexivity|].
  rewrite shr_m_iter by (rewrite shr_m_of_loc; exact Hm).
  rewrite shr_m_of_loc, Z2Nat.id by lia.
  split; [lia|].
  destruct (Z.eq_dec m 0) as [->|Hnz].
  { rewrite Z.div_0_l by (apply Z.pow_nonzero; lia).
    split; [change (2 ^ 53) with 9007199254740992; lia|].
    right. unfold d in *. cbn [Zdigits2] in *. lia. }
  destruct (Zdigits2_bounds m ltac:(lia)) as (Hd1 & Hlo & Hhi). fold d in Hd1, Hlo, Hhi.
  destruct (Z.eq_dec (F0 - e) 0) as [E|E].
  - rewrite E. simpl (2 ^ 0). rewrite Z.div_1_r.
    assert (Hd53 : d <= 53) by lia.
    assert (Hm53 : m < 2 ^ 53).
    { apply Z.lt_le_trans with (2 ^ d); [exact Hhi|].
      apply Z.pow_le_mono_r; lia. }
    split; [lia|].
    destruct (Z.eq_dec d 53) as [Ed|Ed]; [left|right; lia].
    rewrite Ed in Hlo. exact Hlo.
  - assert (Hn : F0 - e = d - 53) by lia.
    rewrite Hn.
    set (k := d - 53) in *. assert (Hk : 0 < k) by lia.
    set (P := 2 ^ k). assert (HP : 0 < P) by (apply pow2_pos; lia).
    assert (E1 : 2 ^ (d - 1) = 2 ^ 52 * P).
    { unfold P. rewrite <- pow2_add by lia. f_equal. lia. }
    assert (E2 : 2 ^ d = 2 ^ 53 * P).
    { unfold P. rewrite <- pow2_add by lia. f_equal. lia. }
    rewrite E1 in Hlo. rewrite E2 in Hhi.
    assert (2 ^ 52 <= m / P) by (apply Z.div_le_lower_bound; lia).
    assert (m / P < 2 ^ 53) by (apply Z.div_lt_upper_bound; lia).
    split; [lia|left; lia].
Qed.

(** The second shift and the choice of the result give a binary64
    number. *)
Lemma shr_fexp_second (s : bool) (q F : Z) :
  -1074 <= F -> 0 <= q <= 2 ^ 53 -> (2 ^ 52 <= q \/ F = -1074) ->
  valid_float
    (let '(mrs, e) := shr_fexp prec emax q F loc_Exact in
     match shr_m mrs with
     | Z0 => S754_zero s
     | Zpos m => if e <=? emax - prec then S754_finite s m e else S754_infinity s
     | Zneg _ => S754_nan
     end) = true.
Proof.
  intros HF Hq Hbig.
  destruct q as [|qp|qp]; try lia.
  - rewrite shr_fexp_exact. cbn [Zdigits2].
    replace (fexp prec emax (0 + F) - F) with (Z.min 0 (-1074 - F - 0))
      by (rewrite fexp_eq; lia).
    destruct (Z.min 0 (-1074 - F - 0)) as [|p|p] eqn:E; try lia; reflexivity.
  - destruct (Z.eq_dec (Zpos qp) (2 ^ 53)) as [E|E].
    + injection E as ->. rewrite shr_fexp_exact. cbn [Zdigits2].
      change (Zpos (digits2_pos 9007199254740992)) with 54.
      replace (fexp prec emax (54 + F) - F) with 1 by (rewrite fexp_eq; lia).
      change (Nat.iter (Z.to_nat 1) shr_1
                {| shr_m := 9007199254740992; shr_r := false; shr_s := false |})
        with {| shr_m := 4503599627370496; shr_r := false; shr_s := false |}.
      cbn [shr_m].
      destruct (Z.leb_spec (F + Z.max 0 1) (emax - prec)) as [Hle|Hgt]; [|reflexivity].
      unfold valid_float, valid_binary, bounded, canonical_mantissa.
      change (Zpos (digits2_pos 4503599627370496)) with 53.
      apply andb_true_iff. split; [apply Z.eqb_eq; rewrite fexp_eq; lia|].
      apply Z.leb_le. exact Hle.
    + assert (Hcan : fexp prec emax (Zpos (digits2_pos qp) + F) = F).
      { pose proof (digits2_pos_bounds qp) as [Hlo Hhi].
        set (d := Zpos (digits2_pos qp)) in *.
        assert (Hd : 1 <= d) by (unfold d; lia).
        assert (Hd53 : d <= 53).
        { destruct (Z.le_gt_cases d 53) as [H|H]; [exact H|exfalso].
          assert (2 ^ 53 <= 2 ^ (d - 1)) by (apply Z.pow_le_mono_r; lia). lia. }
        rewrite fexp_eq.
        destruct Hbig as [Hbig|Hbig]; [|lia].
        assert (d = 53); [|lia].
        destruct (Z.eq_dec d 53) as [Ed|Ed]; [exact Ed|exfalso].
        assert (2 ^ d <= 2 ^ 52) by (apply Z.pow_le_mono_r; lia). lia. }
      rewrite (shr_fexp_canonical qp F Hcan). cbn [shr_m].
      destruct (Z.leb_spec F (emax - prec)) as [Hle|Hgt]; [|reflexivity].
      unfold valid_float, valid_binary, bounded, canonical_mantissa.
      apply andb_true_iff. split; [apply Z.eqb_eq, Hcan|apply Z.leb_le, Hle].
Qed.

(** Rounding an aligned mantissa, whatever was lost before, gives a
    binary64 number. *)
Lemma binary_round_aux_valid (s : bool) (m e : Z) (l : location) :
  0 <= m -> -1074 <= e -> e <= fexp prec emax (Zdigits2 m + e) ->
  valid_float (binary_round_aux prec emax s m e l) = true.
Proof.
  intros Hm He Hal. unfold binary_round_aux.
  destruct (shr_fexp_first m e l Hm He Hal) as (mrs & F & -> & HF & Hq & Hbig).
  pose proof (round_nearest_even_bounds (shr_m mrs) (loc_of_shr_record mrs)) as Hr.
  apply shr_fexp_second; [exact HF|lia|].
  destruct Hbig as [H|H]; [left; lia|right; exact H].
Qed.

Lemma binary_normalize_valid (z e : Z) (szero : bool) :
  -1074 <= e -> valid_float (binary_normalize prec emax z e szero) = true.
Proof.
  intros He.
  assert (H : forall (s : bool) (p : positive),
             valid_float (binary_round prec emax s p e) = true).
  { intros s p.
    destruct (binary_round_spec s p e He) as (m & e' & -> & Hcan & _).
    destruct (Z.leb_spec e' 971) as [Hle|Hgt]; [|reflexivity].
    unfold valid_float, valid_binary, bounded. rewrite Hcan.
    apply Z.leb_le. exact Hle. }
  destruct z as [|p|p]; [reflexivity|apply H|apply H].
Qed.

Lemma shift_or_zero (m sh : Z) :
  0 <= sh ->
  match sh with
  | 0 => m
  | Zpos _ => Z.shiftl m sh
  | Zneg _ => 0
  end = m * 2 ^ sh.
Proof.
  intros H. destruct sh as [|p|p]; [simpl (2 ^ 0); lia| |lia].
  apply Z.shiftl_mul_pow2. lia.
Qed.

(** The quotient that the division hands to the rounding is aligned. *)
Lemma SFdiv_core_aligned (m1 : positive) (e1 : Z) (m2 : positive) (e2 : Z) :
  -1074 <= e1 - e2 ->
  let '(q, e', _) := SFdiv_core_binary prec emax (Zpos m1) e1 (Zpos m2) e2 in
  0 <= q /\ -1074 <= e' /\ e' <= fexp prec emax (Zdigits2 q + e').
Proof.
  intros He. unfold SFdiv_core_binary. cbn [Zdigits2].
  pose proof (digits2_pos_bounds m1) as [Hlo1 Hhi1].
  pose proof (digits2_pos_bounds m2) as [Hlo2 Hhi2].
  set (d1 := Zpos (digits2_pos m1)) in *.
  set (d2 := Zpos (digits2_pos m2)) in *.
  assert (Hd1 : 1 <= d1) by (unfold d1; lia).
  assert (Hd2 : 1 <= d2) by (unfold d2; lia).
  set (X := d1 + e1 - (d2 + e2)).
  rewrite (fexp_eq X).
  set (e' := Z.min (Z.max (X - 53) (-1074)) (e1 - e2)).
  set (sh := e1 - e2 - e').
  assert (Hsh : 0 <= sh) by (unfold sh, e'; lia).
  rewrite (shift_or_zero (Zpos m1) sh Hsh).
  set (m' := Zpos m1 * 2 ^ sh).
  assert (Hm' : m' = Zpos m1 * 2 ^ sh) by reflexivity.
  clearbody m'.
  assert (HS : 0 < 2 ^ sh) by (apply pow2_pos; exact Hsh).
  pose proof (Z_div_mod m' (Zpos m2) ltac:(lia)) as Hdm.
  destruct (Z.div_eucl m' (Zpos m2)) as [q r]. destruct Hdm as [Hq Hr].
  assert (Hq0 : 0 <= q) by nia.
  split; [exact Hq0|]. split; [unfold e'; lia|].
  rewrite fexp_eq.
  destruct (Z.lt_ge_cases (d1 - 1 + sh - d2) 0) as [Ha|Ha].
  - assert (e' = -1074) by (unfold sh, e', X in *; lia). lia.
  - set (a := d1 - 1 + sh - d2) in *.
    assert (Hqa : 2 ^ a <= q).
    { assert (E : 2 ^ (d1 - 1) * 2 ^ sh = 2 ^ a * 2 ^ d2).
      { rewrite <- !pow2_add by lia. f_equal. unfold a. lia. }
      assert (0 < 2 ^ a) by (apply pow2_pos; lia).
      assert (H1 : 2 ^ a * Zpos m2 <= m').
      { rewrite Hm'. apply Z.le_trans with (2 ^ (d1 - 1) * 2 ^ sh).
        - rewrite E. apply Z.mul_le_mono_nonneg_l; lia.
        - apply Z.mul_le_mono_nonneg_r; lia. }
      nia. }
    assert (0 < 2 ^ a) by (apply pow2_pos; lia).
    destruct (Zdigits2_bounds q ltac:(lia)) as (Hdq & _ & Hqhi).
    assert (Hda : a < Zdigits2 q).
    { destruct (Z.lt_ge_cases a (Zdigits2 q)) as [H1|H1]; [exact H1|exfalso].
      assert (2 ^ Zdigits2 q <= 2 ^ a) by (apply Z.pow_le_mono_r; lia). lia. }
    unfold a, sh, e', X in *. lia.
Qed.

Lemma SFdiv_valid (sx : bool) (mx : positive) (sy : bool) (my : positive) :
  valid_float (SFdiv prec emax (S754_finite sx mx 0) (S754_finite sy my 0)) = true.
Proof.
  unfold SFdiv.
  pose proof (SFdiv_core_aligned mx 0 my 0 ltac:(lia)) as H.
  destruct (SFdiv_core_binary prec emax (Zpos mx) 0 (Zpos my) 0) as [[q e'] l].
  destruct H as (Hq & He & Hal).
  apply binary_round_aux_valid; assumption.
Qed.

Lemma float_of_decimal_valid (neg : bool) (d : N) (e10 : Z) :
  valid_float (float_of_decimal neg d e10) = true.
Proof.
  unfold float_of_decimal. destruct d as [|p]; [reflexivity|].
  destruct e10 as [|k|k].
  - apply binary_normalize_valid. lia.
  - apply binary_normalize_valid. lia.
  - apply SFdiv_valid.
Qed.

Lemma parse_decimal_valid (neg : bool) (s : str) (f : float) :
  parse_decimal neg s = Some f -> valid_float f = true.
Proof.
  unfold parse_decimal.
  destruct (span_digits s 0 0) as [[ip n1] r1].
  destruct (match r1 with
            | 46%N :: t => span_digits t ip 0
            | _ => (ip, 0%nat, r1)
            end) as [[m n2] r2].
  destruct (n1 + n2 =? 0)%nat; [discriminate|].
  destruct r2 as [|c t].
  - intros H. injection H as <-. apply float_of_decimal_valid.
  - destruct ((c =? 101) || (c =? 69))%N; [|discriminate].
    destruct (split_sign t) as [eneg t'].
    destruct (span_digits t' 0 0) as [[ev n3] r3].
    destruct ((n3 =? 0)%nat || negb (is_empty r3)); [discriminate|].
    intros H. injection H as <-. apply float_of_decimal_valid.
Qed.

Lemma float_of_str_valid (s : str) (f : float) :
  float_of_str s = Some f -> valid_float f = true.
Proof.
  unfold float_of_str.
  destruct (strip_underscores 0 (strip_by float_space (to_ascii s))) as [u|];
    [|discriminate].
  destruct (split_sign u) as [neg body].
  destruct (str_eqb (map lower body) (lit "inf")
            || str_eqb (map lower body) (lit "infinity")).
  { intros H. injection H as <-. reflexivity. }
  destruct (str_eqb (map lower body) (lit "nan")).
  { intros H. injection H as <-. reflexivity. }
  apply parse_decimal_valid.
Qed.

Lemma float_of_int_valid (z : Z) (f : float) :
  float_of_int z = Ok f -> valid_float f = true.
Proof.
  unfold float_of_int.
  pose proof (binary_normalize_valid z 0 false ltac:(lia)) as H.
  destruct (binary_normalize prec emax z 0 false);
    intros E; try discriminate E; injection E as <-; exact H.
Qed.

(** [float(v)] is a binary64 number, provided [v] is one when it is a
    float already. *)
Lemma py_float_valid (v : json) (f : float) :
  py_float v = Ok f ->
  (forall g : float, v = JFloat g -> valid_float g = true) ->
  valid_float f = true.
Proof.
  destruct v as [|b|z|g|s|items|d]; cbn [py_float]; intros H Hv; try discriminate H.
  - apply (float_of_int_valid _ _ H).
  - apply (float_of_int_valid _ _ H).
  - injection H as <-. apply Hv. reflexivity.
  - destruct (float_of_str s) as [x|] eqn:E; [|discriminate H].
    injection H as <-. apply (float_of_str_valid s x E).
Qed.

(** The times of a chapter entry are binary64 numbers, provided the float
    numbers among its fields are. *)
Lemma chapter_times_valid (ch : json) (start end_ : float) :
  chapter_times ch = Ok (start, end_) ->
  (forall (k : str) (g : float),
      py_getitem ch k = Ok (JFloat g) -> valid_float g = true) ->
  valid_float start = true /\ valid_float end_ = true.
Proof.
  unfold chapter_times. intros H Hv.
  destruct (py_getitem ch (lit "start_time")) as [v1|] eqn:E1; [|discriminate H].
  cbn [rbind] in H.
  destruct (py_float v1) as [x1|] eqn:F1; [|discriminate H].
  cbn [rbind] in H.
  destruct (py_getitem ch (lit "end_time")) as [v2|] eqn:E2; [|discriminate H].
  cbn [rbind] in H.
  destruct (py_float v2) as [x2|] eqn:F2; [|discriminate H].
  cbn [rbind] in H. injection H as <- <-. split.
  - apply (py_float_valid v1 x1 F1). intros g ->. apply (Hv _ g E1).
  - apply (py_float_valid v2 x2 F2). intros g ->. apply (Hv _ g E2).
Qed.

End Rounding.

(** * The properties of the design document *)

(** C1 (as amended).  A probe that starts returns exactly what decoding
    its captured standard output gives (for the chapter probe, the entry
    [chapters] of it); the return code plays no part.  So each probe raises
    when the output is not parseable, the empty output included. *)
Theorem probe_result_is_decoded_output
  (self : Ffmpeg) (inp : str) (w : World) (tr : list Invocation)
  (res : Z) (outputs errors : list str) :
  (spawn w tr (metainfo_invocation self inp) = Exited res outputs errors ->
   fst (get_metainfo self inp w tr) = json_decode (join [] outputs)
   /\ (is_ok (json_decode (join [] outputs)) = false ->
       is_ok (fst (get_metainfo self inp w tr)) = false))
  /\ (spawn w tr (chapters_invocation self inp) = Exited res outputs errors ->
      fst (get_chapters self inp w tr) =
        rbind (json_decode (join [] outputs))
          (fun r => py_getitem r (lit "chapters"))
      /\ (is_ok (json_decode (join [] outputs)) = false ->
          is_ok (fst (get_chapters self inp w tr)) = false)
      /\ (forall d : list (str * json),
            json_decode (join [] outputs) = Ok (JObj d) ->
            dict_get d (lit "chapters") = None ->
            fst (get_chapters self inp w tr) = Raise KeyError))
  /\ json_decode (join [] []) = Raise JSONDecodeError.
Proof.
  split; [|split; [|reflexivity]].
  - intros H. rewrite get_metainfo_eq, H. cbn [fst]. auto.
  - intros H. rewrite get_chapters_eq, H. cbn [fst]. split; [reflexivity|]. split.
    + destruct (json_decode (join [] outputs)); [discriminate|reflexivity].
    + intros d Hd Hk. rewrite Hd. simpl. rewrite Hk. reflexivity.
Qed.

Lemma probe_result_is_decoded_output_witness :
  spawn Sample.failed_probe_world [] (chapters_invocation (Ffmpeg_init None None) temp_name)
    = Exited 1 [] []
  /\ is_ok (json_decode (join [] [])) = false
  /\ is_ok (fst (get_chapters (Ffmpeg_init None None) temp_name
                   Sample.failed_probe_world [])) = false.
Proof.
  split; [reflexivity|]. split; [reflexivity|].
  apply (proj1 (proj2 (proj1 (proj2 (probe_result_is_decoded_output
           (Ffmpeg_init None None) temp_name Sample.failed_probe_world [] 1 [] []))
         eq_refl))).
  reflexivity.
Defined.

(** C1, as stated, fails: with return code 1 and a parseable output both
    probes return the decoded data. *)
Lemma probe_returns_despite_nonzero_exit :
  spawn Sample.nonzero_exit_world []
    (metainfo_invocation (Ffmpeg_init None None) (lit "book.aax"))
    = Exited 1 [Sample.chapters_output []] []
  /\ spawn Sample.nonzero_exit_world []
       (chapters_invocation (Ffmpeg_init None None) (lit "book.aax"))
     = Exited 1 [Sample.chapters_output []] []
  /\ fst (get_metainfo (Ffmpeg_init None None) (lit "book.aax")
            Sample.nonzero_exit_world [])
     = Ok (JObj [(lit "chapters", JArr [])])
  /\ fst (get_chapters (Ffmpeg_init None None) (lit "book.aax")
            Sample.nonzero_exit_world [])
     = Ok (JArr []).
Proof.
  repeat match goal with |- _ /\ _ => split end; vm_compute; reflexivity.
Qed.

(** C2.  Sanitizing is not idempotent: for a name whose 180th character
    is a space the first pass leaves that space at the end and the second
    pass removes it. *)
Theorem safe_name_not_idempotent_at_cut :
  safe_name Sample.long_name (lit "f") = repeat 97%N 179 ++ lit " "
  /\ safe_name (safe_name Sample.long_name (lit "f")) (lit "f") = repeat 97%N 179
  /\ str_eqb (safe_name (safe_name Sample.long_name (lit "f")) (lit "f"))
       (safe_name Sample.long_name (lit "f")) = false.
Proof.
  split; [vm_compute; reflexivity|]. split; vm_compute; reflexivity.
Qed.

(** C3.  The sanitized name can end with whitespace: the cut at 180
    characters comes after the trimming, so a name whose 180th character is
    a space keeps it.  The other guarantees hold for every input. *)
Theorem safe_name_trailing_space_at_cut :
  no_trailing_ws (safe_name Sample.long_name (lit "f")) = false
  /\ length (safe_name Sample.long_name (lit "f")) = 180%nat
  /\ forall name fallback : str,
       no_reserved (safe_name name fallback) = true
       /\ ws_collapsed (safe_name name fallback) = true
       /\ no_leading_ws (safe_name name fallback) = true
       /\ (length (safe_name name fallback) <= 180)%nat.
Proof.
  split; [vm_compute; reflexivity|]. split; [vm_compute; reflexivity|].
  intros name fallback.
  split; [apply safe_name_no_reserved|].
  split; [apply safe_name_ws_collapsed|].
  split; [apply safe_name_no_leading_ws|apply safe_name_length].
Qed.

(** C4.  The sanitizer gives the names of the two documented examples, and
    a blank name is replaced by the fallback before the substitutions. *)
Theorem safe_name_examples :
  safe_name (lit "My/Book: Ch 1") (lit "fallback") = lit "My_Book_ Ch 1"
  /\ safe_name (lit "   ") (lit "fallback") = lit "fallback"
  /\ forall name fallback : str,
       forallb isspace name = true ->
       safe_name name fallback =
       firstn 180 (strip (re_sub_plus isspace (lit " ")
                            (re_sub_plus is_reserved (lit "_") fallback))).
Proof.
  split; [reflexivity|]. split; [reflexivity|].
  intros name fallback H. apply strip_nil_iff in H.
  unfold safe_name. rewrite H. reflexivity.
Qed.

Lemma safe_name_examples_witness :
  forallb isspace (lit "   ") = true
  /\ safe_name (lit "   ") (lit "fallback") =
     firstn 180 (strip (re_sub_plus isspace (lit " ")
                          (re_sub_plus is_reserved (lit "_") (lit "fallback")))).
Proof.
  split; [reflexivity|].
  apply (proj2 (proj2 safe_name_examples)). reflexivity.
Defined.

(** C5.  For a chapter entry with numeric times the split invocation
    carries the duration [max(0.0, end - start)]: the difference when it is
    positive and zero otherwise.  It is never negative and never a NaN, and
    it is zero when the end lies before the start.  The times are binary64
    numbers, provided the fields of the entry that are float numbers are:
    what is read from a text or from an integer always is.  For finite
    times, with values counted in units of 2^-1074: the duration is zero
    when the end is not after the start; otherwise it is the binary64
    number whose value is the exact difference when there is such a number,
    and in general the infinity, the exact difference being above the
    largest number, or a number within one part in 2^53 of the exact
    difference. *)
Theorem chapter_duration_clamped
  (options : Options) (i : N) (ch : json) (start end_ : float)
  (w : World) (tr : list Invocation) :
  chapter_times ch = Ok (start, end_) ->
  snd (convert_chapter (pipeline_ffmpeg options) (Path (out_path options))
         (title options) (i, ch) w tr)
    = tr ++ [chapter_invocation options i start end_]
  /\ nth 9 (arguments (chapter_invocation options i start end_)) []
     = format_6f (chapter_duration start end_)
  /\ chapter_duration start end_
     = (if fltb fzero (fsub end_ start) then fsub end_ start else fzero)
  /\ fltb (chapter_duration start end_) fzero = false
  /\ is_nan (chapter_duration start end_) = false
  /\ (valid_float start = true -> valid_float end_ = true ->
      fltb end_ start = true -> chapter_duration start end_ = fzero)
  /\ ((forall (k : str) (g : float),
         py_getitem ch k = Ok (JFloat g) -> valid_float g = true) ->
      valid_float start = true /\ valid_float end_ = true)
  /\ (valid_float start = true -> valid_float end_ = true ->
      is_finite start = true -> is_finite end_ = true ->
      ((fvalue end_ - fvalue start <= 0)%Z -> chapter_duration start end_ = fzero)
      /\ ((0 < fvalue end_ - fvalue start)%Z ->
          (forall d : float,
              valid_float d = true ->
              fvalue d = (fvalue end_ - fvalue start)%Z ->
              chapter_duration start end_ = d)
          /\ (chapter_duration start end_ = S754_infinity false
              /\ (max_fvalue < fvalue end_ - fvalue start)%Z
              \/ is_finite (chapter_duration start end_) = true
                 /\ valid_float (chapter_duration start end_) = true
                 /\ (2 ^ 53 * Z.abs (fvalue (chapter_duration start end_)
                                     - (fvalue end_ - fvalue start))
                     <= fvalue end_ - fvalue start)%Z))).
Proof.
  intros Ht. rewrite convert_chapter_eq, Ht.
  split; [reflexivity|]. split; [reflexivity|]. split; [reflexivity|].
  destruct (py_max_zero_not_negative (fsub end_ start)) as [H1 H2].
  split; [exact H1|]. split; [exact H2|]. split.
  - intros Hs He Hlt. unfold chapter_duration, py_max.
    rewrite (fsub_not_positive end_ start He Hs Hlt). reflexivity.
  - split; [exact (chapter_times_valid ch start end_ Ht)|].
    intros Hs He Fs Fe. exact (chapter_duration_value start end_ Hs He Fs Fe).
Qed.

Lemma chapter_duration_clamped_witness :
  (chapter_times (Sample.entry_value (lit "10.000000") (lit "25.000000"))
   = Ok (S754_finite false 5629499534213120 (-49),
         S754_finite false 7036874417766400 (-48))
   /\ chapter_duration (S754_finite false 5629499534213120 (-49))
        (S754_finite false 7036874417766400 (-48))
      = S754_finite false 8444249301319680 (-49))
  /\ chapter_times Sample.backward_entry
     = Ok (S754_finite false 7177611906121728 (-48),
           S754_finite false 5629499534213120 (-49))
  /\ chapter_duration (S754_finite false 7177611906121728 (-48))
       (S754_finite false 5629499534213120 (-49)) = fzero.
Proof.
  assert (H1 : chapter_times (Sample.entry_value (lit "10.000000") (lit "25.000000"))
               = Ok (S754_finite false 5629499534213120 (-49),
                     S754_finite false 7036874417766400 (-48)))
    by (vm_compute; reflexivity).
  assert (H2 : chapter_times Sample.backward_entry
               = Ok (S754_finite false 7177611906121728 (-48),
                     S754_finite false 5629499534213120 (-49)))
    by (vm_compute; reflexivity).
  split; [split; [exact H1|]|split; [exact H2|]].
  - destruct (chapter_duration_clamped Sample.options 1 _ _ _
                Sample.failed_probe_world [] H1)
      as (_ & _ & _ & _ & _ & _ & Hvalid & Hv).
    assert (Hfields : forall (k : str) (g : float),
               py_getitem (Sample.entry_value (lit "10.000000") (lit "25.000000")) k
               = Ok (JFloat g) -> valid_float g = true).
    { intros k g. unfold Sample.entry_value. cbn [py_getitem dict_get].
      destruct (str_eqb k _); [intros H; cbv iota in H; discriminate H|].
      destruct (str_eqb k _); intros H; cbv iota in H; discriminate H. }
    destruct (Hvalid Hfields) as [Hs He].
    destruct (Hv Hs He eq_refl eq_refl) as [_ Hpos].
    apply Hpos; vm_compute; reflexivity.
  - destruct (chapter_duration_clamped Sample.options 1 _ _ _
                Sample.failed_probe_world [] H2)
      as (_ & _ & _ & _ & _ & Hlt & _ & _).
    apply Hlt; vm_compute; reflexivity.
Defined.

Lemma prelude_has_no_split (options : Options) :
  filter is_split (pipeline_prelude options) = [].
Proof. reflexivity. Qed.

Lemma filter_all (p : Invocation -> bool) (l : list Invocation) :
  forallb p l = true -> filter p l = l.
Proof.
  induction l as [|x l IH]; simpl; auto.
  intros H. apply andb_true_iff in H as [Hx Hl]. rewrite Hx, (IH Hl). reflexivity.
Qed.

(** C6 (as amended).  In a run that completes, if the chapter probe
    returned a list of N entries, then after the three preparatory
    invocations come exactly N split invocations, one per chapter and in
    the order of the list.  The k-th one (from 1) takes its times from the
    k-th entry and writes the file [<ordinal> - <sanitized title>.mp3]
    directly inside the output directory, where the ordinal is k in
    decimal, padded with zeros to three digits: three digits below 1000,
    more from 1000 on.  The chapter probe is the third invocation of a run;
    it is made after the first two of [pipeline_prelude]. *)
Theorem convert_one_split_per_chapter
  (options : Options) (w : World) (items : list json) (tr : list Invocation) :
  convert options w [] = (Ok tt, tr) ->
  fst (get_chapters (pipeline_ffmpeg options) temp_name w
         (firstn 2 (pipeline_prelude options))) = Ok (JArr items) ->
  exists splits : list Invocation,
    tr = pipeline_prelude options ++ splits
    /\ length splits = length items
    /\ filter is_split tr = splits
    /\ forall (k : nat) (ch : json),
         nth_error items k = Some ch ->
         exists start end_ : float,
           chapter_times ch = Ok (start, end_)
           /\ nth_error splits k
              = Some (chapter_invocation options (N.of_nat (S k)) start end_)
           /\ truediv (Path (out_path options))
                (chapter_filename (N.of_nat (S k)) (title options))
              = {| root := root (Path (out_path options));
                   parts := parts (Path (out_path options))
                            ++ [chapter_filename (N.of_nat (S k)) (title options)] |}
           /\ all_digits (format_03d (N.of_nat (S k))) = true
           /\ (3 <= length (format_03d (N.of_nat (S k))))%nat
           /\ ((S k < 1000)%nat -> length (format_03d (N.of_nat (S k))) = 3%nat).
Proof.
  intros Hrun Hprobe. rewrite convert_eq in Hrun.
  destruct (mkdir w _); [|discriminate Hrun].
  destruct (fst (get_metainfo _ _ w [])); [|discriminate Hrun].
  destruct (spawn w _ _); [|discriminate Hrun].
  rewrite Hprobe in Hrun. cbn [py_iter] in Hrun.
  apply for_each_chapter_ok in Hrun as (splits & -> & Hlen & Hall & Hnth).
  exists splits. split; [reflexivity|]. split; [exact Hlen|]. split.
  - rewrite filter_app, prelude_has_no_split. simpl. apply filter_all, Hall.
  - intros k ch Hk. destruct (Hnth k ch Hk) as (s & e & Ht & Hs).
    exists s, e. split; [exact Ht|]. split.
    + rewrite Hs. do 2 f_equal. lia.
    + destruct (chapter_filename_no_slash (N.of_nat (S k)) (title options)) as [H1 H2].
      split; [apply truediv_single; assumption|].
      split; [apply all_digits_format_03d|].
      split; [apply length_zfill|].
      intros Hlt. apply length_format_03d. lia.
Qed.

Lemma convert_one_split_per_chapter_witness :
  convert Sample.options (Sample.chapters_world Sample.three_chapters) []
    = (Ok tt, snd (convert Sample.options (Sample.chapters_world Sample.three_chapters) []))
  /\ fst (get_chapters (pipeline_ffmpeg Sample.options) temp_name
            (Sample.chapters_world Sample.three_chapters)
            (firstn 2 (pipeline_prelude Sample.options)))
     = Ok (JArr (map (fun se => Sample.entry_value (fst se) (snd se))
                   Sample.three_chapters))
  /\ exists splits : list Invocation,
       snd (convert Sample.options (Sample.chapters_world Sample.three_chapters) [])
         = pipeline_prelude Sample.options ++ splits
       /\ length splits = 3%nat.
Proof.
  assert (H1 : convert Sample.options (Sample.chapters_world Sample.three_chapters) []
               = (Ok tt, snd (convert Sample.options
                                (Sample.chapters_world Sample.three_chapters) [])))
    by (vm_compute; reflexivity).
  assert (H2 : fst (get_chapters (pipeline_ffmpeg Sample.options) temp_name
                      (Sample.chapters_world Sample.three_chapters)
                      (firstn 2 (pipeline_prelude Sample.options)))
               = Ok (JArr (map (fun se => Sample.entry_value (fst se) (snd se))
                             Sample.three_chapters)))
    by (vm_compute; reflexivity).
  split; [exact H1|]. split; [exact H2|].
  destruct (convert_one_split_per_chapter Sample.options
              (Sample.chapters_world Sample.three_chapters) _ _ H1 H2)
    as (splits & Htr & Hlen & _).
  exists splits. split; [exact Htr|exact Hlen].
Defined.

(** C6, as stated, fails in two ways.  An entry without time fields is
    returned by the chapter probe but no split is issued for it; and the
    thousandth chapter gets the four-digit ordinal 1000. *)
Lemma convert_ordinals_and_bad_entries :
  (fst (get_chapters (pipeline_ffmpeg Sample.options) temp_name
          Sample.bad_entry_world (firstn 2 (pipeline_prelude Sample.options)))
     = Ok (JArr [JObj []])
   /\ convert Sample.options Sample.bad_entry_world []
      = (Raise KeyError, pipeline_prelude Sample.options)
   /\ filter is_split (pipeline_prelude Sample.options) = [])
  /\ (fst (convert Sample.options (Sample.chapters_world Sample.thousand_chapters) [])
        = Ok tt
      /\ length (filter is_split
                   (snd (convert Sample.options
                           (Sample.chapters_world Sample.thousand_chapters) [])))
         = 1000%nat
      /\ option_map (fun inv => last (arguments inv) [])
           (nth_error (snd (convert Sample.options
                              (Sample.chapters_world Sample.thousand_chapters) []))
              1002)
         = Some (lit "out/1000 - Episode.mp3")
      /\ format_03d 1000 = lit "1000").
Proof.
  repeat match goal with |- _ /\ _ => split end; vm_compute; reflexivity.
Qed.

(** C7.  When the chapter probe fails, the run raises; it has issued a
    prefix of the three preparatory invocations, hence at most one
    transcode invocation and no split invocation.  If the earlier stages
    went well, the run raises what the chapter probe raised, right after
    the three preparatory invocations.  The chapter probe is made after the
    first two of [pipeline_prelude]. *)
Theorem chapter_probe_failure_aborts (options : Options) (w : World) (e : exn) :
  fst (get_chapters (pipeline_ffmpeg options) temp_name w
         (firstn 2 (pipeline_prelude options))) = Raise e ->
  is_ok (fst (convert options w [])) = false
  /\ (exists k : nat, snd (convert options w []) = firstn k (pipeline_prelude options))
  /\ (length (filter is_transcode (snd (convert options w []))) <= 1)%nat
  /\ filter is_split (snd (convert options w [])) = []
  /\ (mkdir w (path_str (Path (out_path options))) = true ->
      is_ok (fst (get_metainfo (pipeline_ffmpeg options) (input options) w [])) = true ->
      spawn w (firstn 1 (pipeline_prelude options))
        (transcode_invocation (tool options) (lit "11bb9604") (input options) temp_name)
        <> NotStarted ->
      convert options w [] = (Raise e, pipeline_prelude options)).
Proof.
  intros Hprobe. rewrite convert_eq, Hprobe.
  destruct (mkdir w _).
  - destruct (fst (get_metainfo _ _ w [])) as [meta|e1].
    + destruct (spawn w _ _) as [res outputs errors|].
      * repeat split; auto. exists 3%nat. reflexivity.
      * repeat split; auto; [exists 2%nat; reflexivity|].
        intros _ _ H. congruence.
    + repeat split; auto; [exists 1%nat; reflexivity|]. discriminate.
  - repeat split; auto; [exists 0%nat; reflexivity|]. discriminate.
Qed.

Lemma chapter_probe_failure_aborts_witness :
  fst (get_chapters (pipeline_ffmpeg Sample.options) temp_name
         Sample.failed_probe_world (firstn 2 (pipeline_prelude Sample.options)))
    = Raise JSONDecodeError
  /\ convert Sample.options Sample.failed_probe_world []
     = (Raise JSONDecodeError, pipeline_prelude Sample.options).
Proof.
  split; [vm_compute; reflexivity|].
  apply (chapter_probe_failure_aborts Sample.options Sample.failed_probe_world
           JSONDecodeError);
    [vm_compute; reflexivity|reflexivity|vm_compute; reflexivity|vm_compute; discriminate].
Defined.

(** C8 (as amended).  Every split invocation runs [ffmpeg] with the banner
    hidden, errors only in the log, overwriting allowed, the first audio
    stream mapped and copied without re-encoding, and the title wrapped in
    quotation marks.  The start and the duration are formatted with
    [.6f]: for finite values this is fixed notation with six fraction
    digits. *)
Theorem split_ap3_arguments
  (self : Ffmpeg) (inp out : str) (start dur : float) (title : str)
  (w : World) (tr : list Invocation) :
  snd (split_ap3 self inp out start dur title w tr)
    = tr ++ [{| program := ff_path self ++ lit "/" ++ lit "ffmpeg";
                arguments :=
                  [lit "-hide_banner"; lit "-loglevel"; lit "error"; lit "-y";
                   lit "-i"; inp;
                   lit "-ss"; format_6f start;
                   lit "-t"; format_6f dur;
                   lit "-map"; lit "0:a:0";
                   lit "-c"; lit "copy";
                   lit "-metadata"; lit "title=" ++ [dquote] ++ title ++ [dquote];
                   out] |}]
  /\ (is_finite start = true -> is_fixed6 (format_6f start) = true)
  /\ (is_finite dur = true -> is_fixed6 (format_6f dur) = true).
Proof.
  split; [|split; apply format_6f_fixed].
  pose proof (split_ap3_eq self inp out start dur title w tr) as H.
  cbv zeta in H. rewrite H. reflexivity.
Qed.

Lemma split_ap3_arguments_witness :
  is_finite (S754_finite false 5629499534213120 (-49)) = true
  /\ is_fixed6 (format_6f (S754_finite false 5629499534213120 (-49))) = true.
Proof.
  split; [reflexivity|].
  apply (proj1 (proj2 (split_ap3_arguments (Ffmpeg_init None None) temp_name
           (lit "out.mp3") (S754_finite false 5629499534213120 (-49)) fzero
           (lit "t") Sample.failed_probe_world []))).
  reflexivity.
Defined.

(** C8, as stated, fails: an infinite start is written [inf], which is
    not fixed notation; the pipeline passes such a start on when the
    chapter listing has it. *)
Lemma split_ap3_writes_inf :
  snd (split_ap3 (Ffmpeg_init None None) temp_name (lit "out.mp3")
         (S754_infinity false) fzero (lit "t") Sample.failed_probe_world [])
    = [split_invocation (lit "c:\Program Files\fmpeg\bin") temp_name (lit "out.mp3")
         (lit "inf") (lit "0.000000") (lit "t")]
  /\ is_fixed6 (lit "inf") = false
  /\ option_map (fun inv => nth 7 (arguments inv) [])
       (nth_error (snd (convert Sample.options
                          (Sample.chapters_world [(lit "inf", lit "inf")]) []))
          3)
     = Some (lit "inf").
Proof.
  repeat match goal with |- _ /\ _ => split end; vm_compute; reflexivity.
Qed.

(** C9 (as amended).  The wrapper takes the credential as a constructor
    argument, with [11bb9604] when it is omitted, and passes it to the
    transcode invocation; but the pipeline always constructs the wrapper
    with [11bb9604], so the transcode invocation of a run carries that
    credential whatever the options are. *)
Theorem transcode_credential_fixed :
  (forall (self : Ffmpeg) (inp out : str) (w : World) (tr : list Invocation),
     snd (convert_aax_ap3 self inp out w tr)
       = tr ++ [transcode_invocation (ff_path self) (activate_bytes self) inp out])
  /\ (forall p : option str, activate_bytes (Ffmpeg_init p None) = lit "11bb9604")
  /\ (forall (p : option str) (b : str), activate_bytes (Ffmpeg_init p (Some b)) = b)
  /\ (forall (options : Options) (w : World) (inv : Invocation),
        In inv (snd (convert options w [])) -> is_transcode inv = true ->
        inv = transcode_invocation (tool options) (lit "11bb9604")
                (input options) temp_name).
Proof.
  split; [|split; [|split]].
  - intros. rewrite convert_aax_ap3_eq. reflexivity.
  - reflexivity.
  - reflexivity.
  - apply convert_transcode_invocations.
Qed.

Lemma transcode_credential_fixed_witness :
  In (transcode_invocation (lit "/usr/bin") (lit "11bb9604") (lit "book.aax") temp_name)
    (snd (convert Sample.options Sample.failed_probe_world []))
  /\ transcode_invocation (lit "/usr/bin") (lit "11bb9604") (lit "book.aax") temp_name
     = transcode_invocation (tool Sample.options) (lit "11bb9604")
         (input Sample.options) temp_name.
Proof.
  assert (H : In (transcode_invocation (lit "/usr/bin") (lit "11bb9604")
                    (lit "book.aax") temp_name)
                (snd (convert Sample.options Sample.failed_probe_world []))).
  { right. left. reflexivity. }
  split; [exact H|].
  apply (proj2 (proj2 (proj2 transcode_credential_fixed))
           Sample.options Sample.failed_probe_world _ H).
  reflexivity.
Defined.

(** C9, as stated, fails: no options and no world make a run issue a
    transcode invocation with a credential other than [11bb9604]. *)
Lemma credential_not_configurable :
  ~ exists (options : Options) (w : World) (inv : Invocation),
      In inv (snd (convert options w []))
      /\ is_transcode inv = true
      /\ nth 3 (arguments inv) [] <> lit "11bb9604".
Proof.
  intros (options & w & inv & Hin & Ht & Hne). apply Hne.
  rewrite (convert_transcode_invocations options w inv Hin Ht). reflexivity.
Qed.

(** C10.  Two option values that differ only in the base output name give
    the same run: the same outcome and the same invocations, hence the
    same output files. *)
Theorem convert_ignores_base_out_name (o1 o2 : Options) :
  same_but_base_out_name o1 o2 ->
  forall (w : World) (tr : list Invocation), convert o1 w tr = convert o2 w tr.
Proof.
  destruct o1 as [i1 p1 b1 t1 d1], o2 as [i2 p2 b2 t2 d2].
  unfold same_but_base_out_name. simpl.
  intros (-> & -> & -> & ->) w tr. reflexivity.
Qed.

Lemma convert_ignores_base_out_name_witness :
  same_but_base_out_name Sample.options Sample.renamed_options
  /\ base_out_name Sample.options <> base_out_name Sample.renamed_options
  /\ convert Sample.options (Sample.chapters_world Sample.three_chapters) []
     = convert Sample.renamed_options (Sample.chapters_world Sample.three_chapters) [].
Proof.
  assert (H : same_but_base_out_name Sample.options Sample.renamed_options)
    by (repeat split; reflexivity).
  split; [exact H|]. split; [discriminate|].
  apply (convert_ignores_base_out_name Sample.options Sample.renamed_options H).
Defined.

(** * More on the name sanitizer *)

Lemma is_reserved_not_space (c : N) : isspace c = true -> is_reserved c = false.
Proof.
  intros Hc. unfold is_reserved.
  destruct (existsb (N.eqb c) reserved_chars) eqn:E; [|reflexivity].
  apply existsb_exists in E as (x & Hin & Hx). apply N.eqb_eq in Hx. subst x.
  simpl in Hin.
  repeat (destruct Hin as [<-|Hin]; [discriminate Hc|]). contradiction.
Qed.

Lemma blank_no_reserved (s : str) :
  is_blank s = true -> no_reserved s = true.
Proof.
  unfold is_blank, no_reserved. apply forallb_impl.
  intros c Hc. rewrite (is_reserved_not_space c Hc). reflexivity.
Qed.

(** The substitutions and the trimming, without the choice of the name and
    without the cut, turn a blank text into the empty one and any other
    text into a non-empty one. *)
Lemma sanitized_nil_iff (s : str) :
  strip (re_sub_plus isspace (lit " ") (re_sub_plus is_reserved (lit "_") s)) = []
  <-> is_blank s = true.
Proof.
  unfold re_sub_plus, is_blank. split.
  - intros H. destruct (forallb isspace s) eqn:E; [reflexivity|exfalso].
    apply sub_reserved_keeps_text in E.
    apply (sub_space_keeps_text false) in E.
    apply strip_nil_iff in H. congruence.
  - intros H. apply strip_nil_iff.
    rewrite (sub_runs_none is_reserved) by (apply blank_no_reserved, H).
    apply forallb_sub_runs; [reflexivity|].
    intros c Hc Hin. rewrite forallb_forall in H. rewrite (H c Hin) in Hc.
    discriminate Hc.
Qed.

Lemma firstn_nil_iff {A} (k : nat) (l : list A) :
  (0 < k)%nat -> (firstn k l = [] <-> l = []).
Proof.
  intros Hk. destruct k; [lia|]. destruct l; simpl; split; congruence.
Qed.

Lemma safe_name_nil_iff (name fallback : str) :
  safe_name name fallback = []
  <-> is_blank name = true /\ is_blank fallback = true.
Proof.
  unfold safe_name. cbv zeta.
  etransitivity; [apply firstn_nil_iff; lia|].
  destruct (strip name) as [|c t] eqn:Hs; simpl is_empty; cbv iota.
  - apply strip_nil_iff in Hs.
    etransitivity; [apply sanitized_nil_iff|]. unfold is_blank. tauto.
  - etransitivity; [apply sanitized_nil_iff|].
    assert (Hn : is_blank name = false).
    { destruct (is_blank name) eqn:E; [|reflexivity].
      apply strip_nil_iff in E. congruence. }
    assert (Hc : is_blank (c :: t) = false).
    { pose proof (no_leading_ws_strip name) as Hl. rewrite Hs in Hl.
      simpl in Hl. apply negb_true_iff in Hl. simpl. rewrite Hl. reflexivity. }
    rewrite Hn, Hc. split; [discriminate|intros [H _]; discriminate H].
Qed.

(** X1.  The sanitized name is empty exactly when both the name and the
    fallback are blank. *)
Theorem safe_name_empty_iff (name fallback : str) :
  safe_name name fallback = []
  <-> is_blank name = true /\ is_blank fallback = true.
Proof. apply safe_name_nil_iff. Qed.

Lemma safe_name_empty_iff_witness :
  is_blank (lit "  ") = true /\ is_blank (lit " ") = true
  /\ safe_name (lit "  ") (lit " ") = [].
Proof.
  split; [reflexivity|]. split; [reflexivity|].
  apply (proj2 (safe_name_empty_iff (lit "  ") (lit " "))).
  split; reflexivity.
Defined.

Lemma safe_name_fallback_unused (name fallback1 fallback2 : str) :
  is_blank name = false ->
  safe_name name fallback1 = safe_name name fallback2.
Proof.
  intros H. unfold safe_name.
  destruct (strip name) eqn:Hs; [|reflexivity].
  apply strip_nil_iff in Hs. unfold is_blank in H. congruence.
Qed.

(** X2.  A name that is not blank is sanitized without regard to the
    fallback. *)
Theorem safe_name_ignores_fallback (name fallback1 fallback2 : str) :
  is_blank name = false ->
  safe_name name fallback1 = safe_name name fallback2.
Proof. apply safe_name_fallback_unused. Qed.

Lemma safe_name_ignores_fallback_witness :
  is_blank (lit " Ch 1 ") = false
  /\ safe_name (lit " Ch 1 ") (lit "a") = safe_name (lit " Ch 1 ") (lit "b").
Proof.
  split; [reflexivity|].
  apply (safe_name_ignores_fallback (lit " Ch 1 ") (lit "a") (lit "b")).
  reflexivity.
Defined.

(** X3.  A name that is already clean is returned as it is: not empty, no
    reserved character, single spaces only, nothing to trim and at most
    180 characters. *)
Theorem safe_name_keeps_clean_names (name fallback : str) :
  name <> [] -> no_reserved name = true -> ws_collapsed name = true ->
  trimmed name = true -> (length name <= 180)%nat ->
  safe_name name fallback = name.
Proof.
  intros Hne Hr Hw Ht Hl. unfold safe_name.
  rewrite (strip_id name Ht).
  replace (is_empty name) with false
    by (destruct name; [exfalso; apply Hne; reflexivity|reflexivity]).
  unfold re_sub_plus.
  rewrite (sub_runs_none is_reserved) by exact Hr.
  rewrite sub_runs_collapsed; [|exact Hw|discriminate].
  rewrite (strip_id name Ht). apply firstn_all2, Hl.
Qed.

Lemma safe_name_keeps_clean_names_witness :
  safe_name (lit "My_Book_ Ch 1") (lit "fallback") = lit "My_Book_ Ch 1".
Proof.
  apply (safe_name_keeps_clean_names (lit "My_Book_ Ch 1") (lit "fallback"));
    [discriminate|reflexivity|reflexivity|reflexivity|simpl; lia].
Defined.

(** X4.  Unless the cut at 180 characters shortens the name, the result has
    nothing to trim and sanitizing it again changes nothing. *)
Theorem safe_name_idempotent_unless_cut (name fallback : str) :
  (length (safe_name name fallback) < 180)%nat ->
  trimmed (safe_name name fallback) = true
  /\ safe_name (safe_name name fallback) fallback = safe_name name fallback.
Proof.
  intros H.
  pose proof (safe_name_no_trailing_ws_when_short name fallback H) as Ht.
  split.
  - unfold trimmed. rewrite safe_name_no_leading_ws, Ht. reflexivity.
  - apply safe_name_idempotent_when_trimmed, Ht.
Qed.

Lemma safe_name_idempotent_unless_cut_witness :
  (length (safe_name (lit " a / b ") (lit "f")) < 180)%nat
  /\ safe_name (safe_name (lit " a / b ") (lit "f")) (lit "f")
     = safe_name (lit " a / b ") (lit "f").
Proof.
  assert (H : (length (safe_name (lit " a / b ") (lit "f")) < 180)%nat)
    by (vm_compute; lia).
  split; [exact H|].
  apply (proj2 (safe_name_idempotent_unless_cut (lit " a / b ") (lit "f") H)).
Defined.

(** * Ordinals, titles and paths of the chapter files *)

Lemma of_uint_acc_digits (d : Decimal.uint) :
  forall acc : positive,
  Npos (Pos.of_uint_acc d acc)
  = fold_left (fun a c => (a * 10 + (c - 48))%N) (str_of_uint d) (Npos acc).
Proof.
  induction d; intros acc; cbn [Pos.of_uint_acc str_of_uint fold_left];
    try reflexivity; rewrite IHd; f_equal; vm_compute (_ - 48)%N; lia.
Qed.

Lemma of_uint_digits (d : Decimal.uint) :
  N.of_uint d = int_of_digits (str_of_uint d).
Proof.
  unfold N.of_uint, int_of_digits.
  induction d; simpl; try reflexivity; try (rewrite of_uint_acc_digits; reflexivity).
  exact IHd.
Qed.

Lemma int_of_digits_zfill (w : nat) (s : str) :
  int_of_digits (zfill w s) = int_of_digits s.
Proof.
  unfold zfill, int_of_digits. rewrite fold_left_app. f_equal.
  induction (w - length s)%nat as [|k IH]; simpl; auto.
Qed.

(** Reading an ordinal back as a decimal number gives the chapter number:
    distinct chapter numbers have distinct ordinals. *)
Lemma format_03d_round_trip (i : N) : int_of_digits (format_03d i) = i.
Proof.
  unfold format_03d. rewrite int_of_digits_zfill.
  unfold str_of_N. rewrite <- of_uint_digits. apply Unsigned.of_to.
Qed.

Lemma format_03d_inj (i j : N) : format_03d i = format_03d j -> i = j.
Proof.
  intros H. apply (f_equal int_of_digits) in H.
  rewrite !format_03d_round_trip in H. exact H.
Qed.

(** Two digit strings followed by something that is not a digit are equal
    when the whole texts are. *)
Lemma digit_prefix_inj (d1 d2 x y : str) (c : N) :
  all_digits d1 = true -> all_digits d2 = true -> is_digit c = false ->
  d1 ++ c :: x = d2 ++ c :: y -> d1 = d2.
Proof.
  revert d2. induction d1 as [|a d1 IH]; intros [|b d2] H1 H2 Hc H; simpl in *.
  - reflexivity.
  - injection H as -> _. apply andb_true_iff in H2 as [H2 _]. congruence.
  - injection H as -> _. apply andb_true_iff in H1 as [H1 _]. congruence.
  - injection H as -> H.
    apply andb_true_iff in H1 as [_ H1]. apply andb_true_iff in H2 as [_ H2].
    f_equal. eapply IH; eassumption.
Qed.

Lemma chapter_filename_inj (i j : N) (t : str) :
  chapter_filename i t = chapter_filename j t -> i = j.
Proof.
  unfold chapter_filename, chapter_file_title. rewrite <- !app_assoc.
  change (lit " - " ++ ?x) with (32%N :: (lit "- " ++ x)).
  intros H. apply format_03d_inj.
  change (lit " - ") with (32%N :: lit "- ") in H. simpl app in H.
  eapply digit_prefix_inj; [apply all_digits_format_03d..| |exact H].
  reflexivity.
Qed.

Lemma join_snoc (sep : str) (l : list str) (x : str) :
  join sep (l ++ [x]) = if is_empty l then x else join sep l ++ sep ++ x.
Proof.
  induction l as [|a l IH]; [reflexivity|].
  simpl app. destruct l as [|b l]; [reflexivity|].
  change (join sep (a :: (b :: l) ++ [x]))
    with (a ++ sep ++ join sep ((b :: l) ++ [x])).
  rewrite IH. simpl is_empty. cbv iota.
  change (join sep (a :: b :: l)) with (a ++ sep ++ join sep (b :: l)).
  rewrite <- !app_assoc. reflexivity.
Qed.

(** The text of a path that ends with the component [x] is a prefix that
    depends on the directory only, followed by [x]. *)
Lemma path_str_snoc (p : PurePath) (x : str) :
  exists prefix : str,
    forall y : str,
      path_str {| root := root p; parts := parts p ++ [y] |} = prefix ++ y.
Proof.
  unfold path_str. simpl root. simpl parts.
  destruct (is_empty (root p)) eqn:Er.
  - destruct (parts p) as [|a l] eqn:Ep.
    + exists []. intros y. reflexivity.
    + exists (join [slash] (a :: l) ++ [slash]). intros y.
      replace (is_empty ((a :: l) ++ [y])) with false by reflexivity.
      rewrite join_snoc. simpl is_empty. cbv iota.
      rewrite <- app_assoc. reflexivity.
  - destruct (parts p) as [|a l] eqn:Ep.
    + exists (root p). intros y. reflexivity.
    + exists (root p ++ join [slash] (a :: l) ++ [slash]). intros y.
      rewrite join_snoc. simpl is_empty. cbv iota.
      rewrite <- !app_assoc. reflexivity.
Qed.

(** X5.  Chapters with different numbers are written to different paths,
    whatever the title and the output directory are: no split overwrites
    the file of another chapter. *)
Theorem chapter_paths_distinct (options : Options) (i j : N) :
  i <> j ->
  chapter_filename i (title options) <> chapter_filename j (title options)
  /\ path_str (truediv (Path (out_path options)) (chapter_filename i (title options)))
     <> path_str (truediv (Path (out_path options))
                    (chapter_filename j (title options))).
Proof.
  intros Hij. split.
  - intros H. apply Hij. eapply chapter_filename_inj, H.
  - intros H. apply Hij.
    destruct (chapter_filename_no_slash i (title options)) as [Hi1 Hi2].
    destruct (chapter_filename_no_slash j (title options)) as [Hj1 Hj2].
    rewrite !truediv_single in H by assumption.
    destruct (path_str_snoc (Path (out_path options)) []) as [prefix Hp].
    rewrite !Hp in H. apply app_inv_head in H.
    eapply chapter_filename_inj, H.
Qed.

Lemma chapter_paths_distinct_witness :
  path_str (truediv (Path (out_path Sample.options))
              (chapter_filename 1 (title Sample.options)))
  <> path_str (truediv (Path (out_path Sample.options))
                 (chapter_filename 2 (title Sample.options))).
Proof.
  apply (proj2 (chapter_paths_distinct Sample.options 1 2 ltac:(discriminate))).
Defined.

(** * The title of a chapter file *)

Lemma sub_runs_app_clean (p : N -> bool) (repl d x : str) :
  forallb (fun c => negb (p c)) d = true ->
  sub_runs p repl false (d ++ x) = d ++ sub_runs p repl false x.
Proof.
  induction d as [|c d IH]; simpl; auto.
  intros H. apply andb_true_iff in H as [Hc Hd].
  apply negb_true_iff in Hc. rewrite Hc. f_equal. auto.
Qed.

Lemma sub_space_blank (s : str) :
  is_blank s = true -> sub_runs isspace (lit " ") true s = [].
Proof.
  induction s as [|c t IH]; simpl; auto.
  intros H. apply andb_true_iff in H as [Hc Ht]. rewrite Hc. auto.
Qed.

Lemma digits_not_space (d : str) :
  all_digits d = true -> forallb (fun c => negb (isspace c)) d = true.
Proof.
  apply forallb_impl. intros c Hc. unfold is_digit in Hc.
  apply andb_true_iff in Hc as [H1 H2].
  apply N.leb_le in H1, H2. apply negb_true_iff.
  assert (H : (c = 48 \/ c = 49 \/ c = 50 \/ c = 51 \/ c = 52 \/ c = 53 \/ c = 54
               \/ c = 55 \/ c = 56 \/ c = 57)%N) by lia.
  repeat (destruct H as [->|H]; [reflexivity|]). subst c. reflexivity.
Qed.

Lemma digits_not_reserved (d : str) :
  all_digits d = true -> no_reserved d = true.
Proof.
  unfold no_reserved. apply forallb_impl. intros c Hc. unfold is_digit in Hc.
  apply andb_true_iff in Hc as [H1 H2]. apply N.leb_le in H1, H2.
  apply negb_true_iff. unfold is_reserved.
  destruct (existsb (N.eqb c) reserved_chars) eqn:E; [|reflexivity].
  apply existsb_exists in E as (x & Hin & Hx). apply N.eqb_eq in Hx. subst x.
  simpl in Hin. unfold dquote in Hin.
  repeat (destruct Hin as [<-|Hin]; [lia|]). contradiction.
Qed.

Lemma strip_digits_space (d : str) :
  d <> [] -> all_digits d = true -> strip (d ++ [32%N]) = d.
Proof.
  intros Hne Hd. apply digits_not_space in Hd.
  assert (Hl : no_leading_ws d = true).
  { destruct d as [|c d]; [reflexivity|]. simpl in Hd.
    apply andb_true_iff in Hd as [Hc _]. exact Hc. }
  assert (Hr : no_leading_ws (rev d) = true).
  { rewrite <- (forallb_rev _ d) in Hd.
    destruct (rev d) as [|c r]; [reflexivity|]. simpl in Hd.
    apply andb_true_iff in Hd as [Hc _]. exact Hc. }
  assert (H1 : lstrip (d ++ [32%N]) = d ++ [32%N]).
  { apply lstrip_id. destruct d; [exfalso; apply Hne; reflexivity|exact Hl]. }
  unfold strip, rstrip. rewrite H1, rev_app_distr.
  change (rev [32%N] ++ rev d) with (32%N :: rev d).
  change (lstrip (32%N :: rev d)) with (lstrip (rev d)).
  rewrite (lstrip_id _ Hr). apply rev_involutive.
Qed.

(** X6.  The title of a chapter file.  When the title given is not blank, the
    part after the ordinal is the sanitized title and does not depend on
    the chapter; when it is blank, that part is the ordinal again.  It is
    never empty. *)
Theorem chapter_file_title_cases (i : N) (title : str) :
  (is_blank title = false ->
   chapter_file_title i title = format_03d i ++ lit " - " ++ safe_name title [])
  /\ (is_blank title = true ->
      chapter_file_title i title
      = format_03d i ++ lit " - " ++ firstn 180 (format_03d i))
  /\ safe_name title (format_03d i ++ lit " " ++ title) <> [].
Proof.
  assert (Hd : all_digits (format_03d i) = true) by apply all_digits_format_03d.
  assert (Hlen : (3 <= length (format_03d i))%nat) by apply length_zfill.
  assert (Hne : format_03d i <> []).
  { intros E. rewrite E in Hlen. simpl in Hlen. lia. }
  split; [|split].
  - intros H. unfold chapter_file_title.
    rewrite (safe_name_fallback_unused title _ [] H). reflexivity.
  - intros H. unfold chapter_file_title. do 2 f_equal.
    unfold safe_name. apply strip_nil_iff in H as Hs. rewrite Hs.
    simpl is_empty. cbv iota. unfold re_sub_plus. f_equal.
    assert (Hclean : no_reserved (format_03d i ++ lit " " ++ title) = true).
    { unfold no_reserved. rewrite !forallb_app.
      fold (no_reserved (format_03d i)). rewrite (digits_not_reserved _ Hd).
      fold (no_reserved title). rewrite (blank_no_reserved _ H). reflexivity. }
    rewrite (sub_runs_none is_reserved) by exact Hclean.
    rewrite sub_runs_app_clean by (apply digits_not_space, Hd).
    change (lit " " ++ title) with (32%N :: title).
    simpl sub_runs. change (isspace 32) with true. cbv iota.
    rewrite (sub_space_blank title H).
    apply strip_digits_space; assumption.
  - intros E. apply safe_name_nil_iff in E as [_ E].
    unfold is_blank in E. rewrite forallb_app in E.
    apply andb_true_iff in E as [E _].
    apply digits_not_space in Hd.
    destruct (format_03d i) as [|c d]; [apply Hne; reflexivity|].
    simpl in E, Hd. apply andb_true_iff in E as [E _].
    apply andb_true_iff in Hd as [Hc _]. rewrite E in Hc. discriminate Hc.
Qed.

Lemma chapter_file_title_cases_witness :
  is_blank (lit "Episode") = false
  /\ chapter_file_title 2 (lit "Episode") = lit "002 - Episode"
  /\ is_blank (lit " ") = true
  /\ chapter_file_title 2 (lit " ") = lit "002 - 002".
Proof.
  split; [reflexivity|]. split.
  - rewrite (proj1 (chapter_file_title_cases 2 (lit "Episode")) eq_refl).
    reflexivity.
  - split; [reflexivity|].
    rewrite (proj1 (proj2 (chapter_file_title_cases 2 (lit " "))) eq_refl).
    reflexivity.
Defined.

(** X7.  The title argument of a split holds exactly two quotation marks, the
    ones that wrap the title: the file title has none of its own. *)
Theorem chapter_title_argument_quotes (options : Options) (i : N) (s e : float) :
  nth 15 (arguments (chapter_invocation options i s e)) []
  = lit "title=" ++ [dquote] ++ chapter_file_title i (title options) ++ [dquote]
  /\ count_occ N.eq_dec (chapter_file_title i (title options)) dquote = 0%nat
  /\ count_occ N.eq_dec (nth 15 (arguments (chapter_invocation options i s e)) [])
       dquote = 2%nat.
Proof.
  assert (H0 : count_occ N.eq_dec (chapter_file_title i (title options)) dquote = 0%nat).
  { apply count_occ_not_In. intros Hin.
    unfold chapter_file_title in Hin.
    apply in_app_or in Hin as [Hin|Hin].
    - pose proof (digits_not_reserved _ (all_digits_format_03d i)) as Hd.
      unfold no_reserved in Hd. rewrite forallb_forall in Hd.
      specialize (Hd _ Hin). discriminate Hd.
    - apply in_app_or in Hin as [Hin|Hin].
      + simpl in Hin. unfold dquote in Hin.
        repeat (destruct Hin as [Hin|Hin]; [discriminate Hin|]). contradiction.
      + pose proof (safe_name_no_reserved (title options)
                      (format_03d i ++ lit " " ++ title options)) as Hs.
        unfold no_reserved in Hs. rewrite forallb_forall in Hs.
        specialize (Hs _ Hin). discriminate Hs. }
  split; [reflexivity|]. split; [exact H0|].
  change (nth 15 (arguments (chapter_invocation options i s e)) [])
    with (lit "title=" ++ [dquote] ++ chapter_file_title i (title options) ++ [dquote]).
  rewrite !count_occ_app, H0. reflexivity.
Qed.

(** * What a run depends on *)

Lemma for_each_cons {A} (x : A) (l : list A) (body : A -> M unit)
  (w : World) (tr : list Invocation) :
  for_each (x :: l) body w tr
  = match body x w tr with
    | (Ok _, tr') => for_each l body w tr'
    | (Raise e, tr') => (Raise e, tr')
    end.
Proof. reflexivity. Qed.

Section SameSeen.

Variables w1 w2 : World.
Hypothesis Hseen :
  forall tr inv, seen inv (spawn w1 tr inv) = seen inv (spawn w2 tr inv).

Lemma same_start (tr : list Invocation) (inv : Invocation) :
  match spawn w1 tr inv, spawn w2 tr inv with
  | Exited _ _ _, Exited _ _ _ => True
  | NotStarted, NotStarted => True
  | _, _ => False
  end.
Proof.
  specialize (Hseen tr inv).
  destruct (spawn w1 tr inv), (spawn w2 tr inv); simpl in Hseen;
    try discriminate Hseen; exact I.
Qed.

Lemma for_each_same_seen (options : Options) (items : list json) :
  forall (i : N) (tr : list Invocation),
  for_each (enumerate i items)
    (convert_chapter (pipeline_ffmpeg options) (Path (out_path options))
       (title options)) w1 tr
  = for_each (enumerate i items)
      (convert_chapter (pipeline_ffmpeg options) (Path (out_path options))
         (title options)) w2 tr.
Proof.
  induction items as [|ch items IH]; intros i tr; [reflexivity|].
  cbn [enumerate]. rewrite !for_each_cons, !convert_chapter_eq.
  destruct (chapter_times ch) as [[s e]|err]; [|reflexivity].
  pose proof (same_start tr (chapter_invocation options i s e)) as H.
  destruct (spawn w1 tr _), (spawn w2 tr _); try contradiction; [|reflexivity].
  apply IH.
Qed.

Lemma get_metainfo_same_seen (self : Ffmpeg) (inp : str) (tr : list Invocation) :
  match fst (get_metainfo self inp w1 tr), fst (get_metainfo self inp w2 tr) with
  | Ok _, Ok _ => True
  | Raise e1, Raise e2 => e1 = e2
  | _, _ => False
  end.
Proof.
  rewrite !get_metainfo_eq. cbn [fst].
  specialize (Hseen tr (metainfo_invocation self inp)).
  destruct (spawn w1 tr _) as [r1 o1 e1|], (spawn w2 tr _) as [r2 o2 e2|];
    simpl in Hseen; try discriminate Hseen; [|reflexivity].
  change (is_metainfo (metainfo_invocation self inp)) with true in Hseen.
  cbv iota in Hseen.
  destruct (json_decode (join [] o1)), (json_decode (join [] o2));
    simpl in Hseen; try exact I; congruence.
Qed.

Lemma get_chapters_same_seen (self : Ffmpeg) (inp : str) (tr : list Invocation) :
  fst (get_chapters self inp w1 tr) = fst (get_chapters self inp w2 tr).
Proof.
  rewrite !get_chapters_eq. cbn [fst].
  specialize (Hseen tr (chapters_invocation self inp)).
  destruct (spawn w1 tr _) as [r1 o1 e1|], (spawn w2 tr _) as [r2 o2 e2|];
    simpl in Hseen; try discriminate Hseen; [|reflexivity].
  change (is_metainfo (chapters_invocation self inp)) with false in Hseen.
  change (is_chapters (chapters_invocation self inp)) with true in Hseen.
  cbv iota in Hseen. congruence.
Qed.

Lemma convert_same_seen (options : Options) :
  mkdir w1 (path_str (Path (out_path options)))
  = mkdir w2 (path_str (Path (out_path options))) ->
  convert options w1 [] = convert options w2 [].
Proof.
  intros Hmk. rewrite !convert_eq, Hmk.
  destruct (mkdir w2 _); [|reflexivity].
  pose proof (get_metainfo_same_seen (pipeline_ffmpeg options) (input options) [])
    as Hm.
  destruct (fst (get_metainfo _ _ w1 [])), (fst (get_metainfo _ _ w2 []));
    try contradiction; [|congruence].
  pose proof (same_start (firstn 1 (pipeline_prelude options))
                (transcode_invocation (tool options) (lit "11bb9604")
                   (input options) temp_name)) as Ht.
  destruct (spawn w1 _ _), (spawn w2 _ _); try contradiction; [|reflexivity].
  rewrite get_chapters_same_seen.
  destruct (fst (get_chapters _ _ w2 _)) as [chapters|e]; [|reflexivity].
  destruct (py_iter chapters); [|reflexivity].
  apply for_each_same_seen.
Qed.

End SameSeen.

(** X8.  A run depends on its child processes only through what [seen] keeps:
    whether each one starts, whether the joined output of the metadata
    probe can be decoded, and the chapter value in the joined output of the
    chapter probe.  Return codes, standard error, the output of [ffmpeg],
    the content of the metadata and the cutting of the output into chunks
    change neither the outcome nor the invocations. *)
Theorem convert_depends_on_seen_only (options : Options) (w1 w2 : World) :
  (forall tr inv, seen inv (spawn w1 tr inv) = seen inv (spawn w2 tr inv)) ->
  mkdir w1 (path_str (Path (out_path options)))
  = mkdir w2 (path_str (Path (out_path options))) ->
  convert options w1 [] = convert options w2 [].
Proof. intros H Hmk. exact (convert_same_seen w1 w2 H options Hmk). Qed.

Lemma convert_depends_on_seen_only_witness :
  convert Sample.options
    (Sample.world_of (Exited 0 [lit "{}"] []) (Exited 1 [Sample.chapters_output []] []))
    []
  = convert Sample.options
      (Sample.world_of (Exited 3 [lit "["; lit "1]"] [lit "warning"])
         (Exited 0 [lit "{"; [dquote] ++ lit "chapters" ++ [dquote]; lit ": []}"] []))
      [].
Proof.
  apply (convert_depends_on_seen_only Sample.options).
  - intros tr inv. unfold Sample.world_of. cbn [spawn].
    destruct (Sample.has_argument (lit "-show_chapters") inv) eqn:Ec.
    + unfold seen. destruct (is_metainfo inv); [reflexivity|].
      destruct (is_chapters inv); reflexivity.
    + destruct (Sample.has_argument (lit "-show_entries") inv) eqn:Ee.
      * unfold seen. destruct (is_metainfo inv); [reflexivity|].
        destruct (is_chapters inv) eqn:E; [|reflexivity].
        exfalso. unfold is_chapters, str_eqb in E.
        destruct (list_eq_dec N.eq_dec (nth 4 (arguments inv) []) (lit "-show_chapters"))
          as [E4|]; [|discriminate E].
        unfold Sample.has_argument in Ec.
        assert (Hin : In (lit "-show_chapters") (arguments inv)).
        { rewrite <- E4. apply nth_In.
          destruct (Nat.lt_ge_cases 4 (length (arguments inv))) as [Hlt|Hge]; [exact Hlt|].
          rewrite nth_overflow in E4 by exact Hge. discriminate E4. }
        assert (Hex : existsb (str_eqb (lit "-show_chapters")) (arguments inv) = true).
        { apply existsb_exists. exists (lit "-show_chapters"). split; [exact Hin|].
          reflexivity. }
        congruence.
      * reflexivity.
  - reflexivity.
Defined.

(** * Where a run stops *)

(** X9.  A run that cannot make the output directory starts no program; one
    whose metadata probe fails stops after that probe, before any
    transcoding; one whose transcoder cannot be started stops there. *)
Theorem convert_stops_early (options : Options) (w : World) :
  (mkdir w (path_str (Path (out_path options))) = false ->
   convert options w [] = (Raise OSError, []))
  /\ (forall e : exn,
        mkdir w (path_str (Path (out_path options))) = true ->
        fst (get_metainfo (pipeline_ffmpeg options) (input options) w []) = Raise e ->
        convert options w []
        = (Raise e, [metainfo_invocation (pipeline_ffmpeg options) (input options)]))
  /\ (mkdir w (path_str (Path (out_path options))) = true ->
      is_ok (fst (get_metainfo (pipeline_ffmpeg options) (input options) w [])) = true ->
      spawn w [metainfo_invocation (pipeline_ffmpeg options) (input options)]
        (transcode_invocation (tool options) (lit "11bb9604") (input options) temp_name)
      = NotStarted ->
      convert options w []
      = (Raise OSError,
         [metainfo_invocation (pipeline_ffmpeg options) (input options);
          transcode_invocation (tool options) (lit "11bb9604") (input options)
            temp_name])).
Proof.
  split; [|split].
  - intros H. rewrite convert_eq, H. reflexivity.
  - intros e Hmk H. rewrite convert_eq, Hmk, H. reflexivity.
  - intros Hmk Hm H. rewrite convert_eq, Hmk.
    destruct (fst (get_metainfo _ _ w [])); [|discriminate Hm].
    change (firstn 1 (pipeline_prelude options))
      with [metainfo_invocation (pipeline_ffmpeg options) (input options)].
    rewrite H. reflexivity.
Qed.

Lemma convert_stops_early_witness :
  convert Sample.options
    (Sample.world_of (Exited 0 [lit "not json"] []) (Exited 0 [] [])) []
  = (Raise JSONDecodeError,
     [metainfo_invocation (pipeline_ffmpeg Sample.options) (input Sample.options)]).
Proof.
  apply (proj1 (proj2 (convert_stops_early Sample.options
           (Sample.world_of (Exited 0 [lit "not json"] []) (Exited 0 [] []))))
         JSONDecodeError);
    vm_compute; reflexivity.
Defined.

Lemma for_each_chapter_stops (options : Options) (w : World)
  (good : list json) (bad : json) (rest : list json) (e : exn) :
  (forall tr inv, spawn w tr inv <> NotStarted) ->
  Forall (fun ch => is_ok (chapter_times ch) = true) good ->
  chapter_times bad = Raise e ->
  forall (i : N) (tr : list Invocation),
  exists splits : list Invocation,
    for_each (enumerate i (good ++ bad :: rest))
      (convert_chapter (pipeline_ffmpeg options) (Path (out_path options))
         (title options)) w tr
    = (Raise e, tr ++ splits)
    /\ length splits = length good
    /\ forallb is_split splits = true
    /\ forall (k : nat) (ch : json),
         nth_error good k = Some ch ->
         exists start end_ : float,
           chapter_times ch = Ok (start, end_)
           /\ nth_error splits k
              = Some (chapter_invocation options (i + N.of_nat k) start end_).
Proof.
  intros Hspawn Hgood Hbad.
  induction Hgood as [|ch good Hch _ IH]; intros i tr.
  - exists []. cbn [app enumerate for_each]. unfold bind at 1.
    rewrite convert_chapter_eq, Hbad, app_nil_r.
    split; [reflexivity|]. split; [reflexivity|]. split; [reflexivity|].
    intros [|k] ch' Hk; discriminate Hk.
  - cbn [app enumerate for_each]. unfold bind at 1. rewrite convert_chapter_eq.
    destruct (chapter_times ch) as [[s t]|err] eqn:Hts; [|discriminate Hch].
    destruct (spawn w tr (chapter_invocation options i s t)) eqn:E;
      [|exfalso; exact (Hspawn _ _ E)].
    destruct (IH (N.succ i) (tr ++ [chapter_invocation options i s t]))
      as (splits & Hrun & Hlen & Hall & Hnth).
    exists (chapter_invocation options i s t :: splits).
    rewrite Hrun, <- app_assoc.
    split; [reflexivity|]. split; [simpl; rewrite Hlen; reflexivity|].
    split; [simpl; rewrite Hall; reflexivity|].
    intros [|k] ch' Hk.
    + injection Hk as <-. exists s, t. split; [exact Hts|].
      cbn [nth_error N.of_nat]. rewrite N.add_0_r. reflexivity.
    + destruct (Hnth k ch' Hk) as (s' & t' & Ht' & Hs').
      exists s', t'. split; [exact Ht'|].
      cbn [nth_error]. rewrite Hs'. do 2 f_equal. lia.
Qed.

(** X10.  The loop stops at the first chapter entry without numeric times:
    the run raises what the conversion of that entry raised, and after the
    three preparatory invocations come the splits of the chapters before
    it and nothing else, one per chapter and in the order of the list, the
    k-th one (from 1) with the times of the k-th entry and the ordinal k.
    Nothing is undone and no later chapter is split. *)
Theorem convert_stops_at_bad_entry (options : Options) (w : World)
  (good : list json) (bad : json) (rest : list json) (e : exn) :
  mkdir w (path_str (Path (out_path options))) = true ->
  (forall tr inv, spawn w tr inv <> NotStarted) ->
  is_ok (fst (get_metainfo (pipeline_ffmpeg options) (input options) w [])) = true ->
  fst (get_chapters (pipeline_ffmpeg options) temp_name w
         (firstn 2 (pipeline_prelude options))) = Ok (JArr (good ++ bad :: rest)) ->
  Forall (fun ch => is_ok (chapter_times ch) = true) good ->
  chapter_times bad = Raise e ->
  exists splits : list Invocation,
    convert options w [] = (Raise e, pipeline_prelude options ++ splits)
    /\ length splits = length good
    /\ filter is_split (pipeline_prelude options ++ splits) = splits
    /\ forall (k : nat) (ch : json),
         nth_error good k = Some ch ->
         exists start end_ : float,
           chapter_times ch = Ok (start, end_)
           /\ nth_error splits k
              = Some (chapter_invocation options (N.of_nat (S k)) start end_).
Proof.
  intros Hmk Hspawn Hmeta Hprobe Hgood Hbad. rewrite convert_eq, Hmk.
  destruct (fst (get_metainfo _ _ w [])); [|discriminate Hmeta].
  destruct (spawn w _ _) eqn:E; [|exfalso; exact (Hspawn _ _ E)].
  rewrite Hprobe. cbn [py_iter].
  destruct (for_each_chapter_stops options w good bad rest e Hspawn Hgood Hbad 1
              (pipeline_prelude options)) as (splits & Hrun & Hlen & Hall & Hnth).
  exists splits. split; [exact Hrun|]. split; [exact Hlen|]. split.
  - rewrite filter_app, prelude_has_no_split. apply filter_all, Hall.
  - intros k ch Hk. destruct (Hnth k ch Hk) as (s & t & Ht & Hs).
    exists s, t. split; [exact Ht|]. rewrite Hs. do 2 f_equal. lia.
Qed.

Lemma convert_stops_at_bad_entry_witness :
  convert Sample.options
    (Sample.world_of (Exited 0 [lit "{}"] [])
       (Exited 0 [Sample.chapters_output
                    [Sample.chapter_entry (lit "0") (lit "1");
                     Sample.chapter_entry (lit "1") (lit "x");
                     Sample.chapter_entry (lit "2") (lit "3")]] [])) []
  = (Raise ValueError,
     pipeline_prelude Sample.options
     ++ [chapter_invocation Sample.options 1 (S754_zero false)
           (S754_finite false 4503599627370496 (-52))]).
Proof.
  destruct (convert_stops_at_bad_entry Sample.options
              (Sample.world_of (Exited 0 [lit "{}"] [])
                 (Exited 0 [Sample.chapters_output
                              [Sample.chapter_entry (lit "0") (lit "1");
                               Sample.chapter_entry (lit "1") (lit "x");
                               Sample.chapter_entry (lit "2") (lit "3")]] []))
              [Sample.entry_value (lit "0") (lit "1")]
              (Sample.entry_value (lit "1") (lit "x"))
              [Sample.entry_value (lit "2") (lit "3")]
              ValueError) as (splits & H1 & H2 & _ & H4).
  - reflexivity.
  - intros tr inv. unfold Sample.world_of. cbn [spawn].
    destruct (Sample.has_argument _ inv); [discriminate|].
    destruct (Sample.has_argument _ inv); discriminate.
  - vm_compute. reflexivity.
  - vm_compute. reflexivity.
  - repeat constructor.
  - vm_compute. reflexivity.
  - destruct (H4 0%nat _ eq_refl) as (s & t & Ht & Hs).
    assert (Es : (s, t) = (S754_zero false, S754_finite false 4503599627370496 (-52))).
    { assert (Hc : chapter_times (Sample.entry_value (lit "0") (lit "1"))
                   = Ok (S754_zero false, S754_finite false 4503599627370496 (-52)))
        by (vm_compute; reflexivity).
      rewrite Hc in Ht. injection Ht as <- <-. reflexivity. }
    injection Es as -> ->.
    destruct splits as [|x [|y splits]]; try discriminate H2.
    cbn [nth_error] in Hs. injection Hs as ->. exact H1.
Defined.

(** X11.  When the chapter value is not a list, no chapter is ever split:
    the invocations of the run are the three preparatory ones.  A number, a
    boolean or [null] cannot be iterated over, and the items of an object
    or of a string are strings, which have no time fields: the run raises
    [TypeError].  Only for the empty object and the empty string, which
    have no item, the run completes. *)
Theorem convert_without_chapter_list (options : Options) (w : World) (v : json) :
  mkdir w (path_str (Path (out_path options))) = true ->
  is_ok (fst (get_metainfo (pipeline_ffmpeg options) (input options) w [])) = true ->
  spawn w (firstn 1 (pipeline_prelude options))
    (transcode_invocation (tool options) (lit "11bb9604") (input options) temp_name)
  <> NotStarted ->
  fst (get_chapters (pipeline_ffmpeg options) temp_name w
         (firstn 2 (pipeline_prelude options))) = Ok v ->
  (forall items, v <> JArr items) ->
  snd (convert options w []) = pipeline_prelude options
  /\ (v = JObj [] \/ v = JStr [] -> fst (convert options w []) = Ok tt)
  /\ (v <> JObj [] -> v <> JStr [] -> fst (convert options w []) = Raise TypeError).
Proof.
  intros Hmk Hmeta Hstart Hprobe Hv. rewrite convert_eq, Hmk.
  destruct (fst (get_metainfo _ _ w [])); [|discriminate Hmeta].
  destruct (spawn w _ _); [|congruence].
  rewrite Hprobe.
  destruct v as [|b|z|f|s|items|d]; cbn [py_iter];
    try (split; [reflexivity|];
         split; [intros [H|H]; discriminate H|intros _ _; reflexivity]).
  - destruct s as [|c s].
    + split; [reflexivity|].
      split; [intros _; reflexivity|intros _ H; exfalso; apply H; reflexivity].
    + cbn [map enumerate for_each]. unfold bind at 1 2.
      rewrite convert_chapter_eq. cbn.
      split; [reflexivity|].
      split; [intros [H|H]; discriminate H|intros _ _; reflexivity].
  - exfalso. apply (Hv items). reflexivity.
  - destruct d as [|[k x] d].
    + split; [reflexivity|].
      split; [intros _; reflexivity|intros H; exfalso; apply H; reflexivity].
    + cbn [map enumerate for_each]. unfold bind at 1 2.
      rewrite convert_chapter_eq. cbn.
      split; [reflexivity|].
      split; [intros [H|H]; discriminate H|intros _ _; reflexivity].
Qed.

Lemma convert_without_chapter_list_witness :
  convert Sample.options
    (Sample.world_of (Exited 0 [lit "{}"] [])
       (Exited 0 [lit "{" ++ Sample.quoted (lit "chapters") ++ lit ": 3}"] [])) []
  = (Raise TypeError, pipeline_prelude Sample.options)
  /\ convert Sample.options
       (Sample.world_of (Exited 0 [lit "{}"] [])
          (Exited 0 [lit "{" ++ Sample.quoted (lit "chapters") ++ lit ": {}}"] [])) []
     = (Ok tt, pipeline_prelude Sample.options).
Proof.
  split.
  - destruct (convert_without_chapter_list Sample.options
                (Sample.world_of (Exited 0 [lit "{}"] [])
                   (Exited 0 [lit "{" ++ Sample.quoted (lit "chapters") ++ lit ": 3}"] []))
                (JInt 3)) as (H1 & _ & H3).
    + reflexivity.
    + vm_compute. reflexivity.
    + vm_compute. discriminate.
    + vm_compute. reflexivity.
    + discriminate.
    + specialize (H3 ltac:(discriminate) ltac:(discriminate)).
      rewrite (surjective_pairing (convert _ _ _)), H1, H3. reflexivity.
  - destruct (convert_without_chapter_list Sample.options
                (Sample.world_of (Exited 0 [lit "{}"] [])
                   (Exited 0 [lit "{" ++ Sample.quoted (lit "chapters") ++ lit ": {}}"] []))
                (JObj [])) as (H1 & H2 & _).
    + reflexivity.
    + vm_compute. reflexivity.
    + vm_compute. discriminate.
    + vm_compute. reflexivity.
    + discriminate.
    + specialize (H2 (or_introl eq_refl)).
      rewrite (surjective_pairing (convert _ _ _)), H1, H2. reflexivity.
Defined.

(** * The invocations of a run *)

Lemma for_each_chapter_invocations (options : Options) (w : World) (items : list json) :
  forall (i : N) (tr : list Invocation),
  exists splits : list Invocation,
    snd (for_each (enumerate i items)
           (convert_chapter (pipeline_ffmpeg options) (Path (out_path options))
              (title options)) w tr) = tr ++ splits
    /\ Forall (fun inv => exists (j : N) (s e : float),
                 (i <= j)%N /\ inv = chapter_invocation options j s e) splits.
Proof.
  induction items as [|ch items IH]; intros i tr.
  - exists []. simpl. rewrite app_nil_r. auto.
  - cbn [enumerate]. rewrite for_each_cons, convert_chapter_eq.
    destruct (chapter_times ch) as [[s e]|err].
    + assert (Hhere : exists (j : N) (s0 e0 : float),
                 (i <= j)%N /\ chapter_invocation options i s e
                               = chapter_invocation options j s0 e0).
      { exists i, s, e. split; [lia|reflexivity]. }
      destruct (spawn w tr (chapter_invocation options i s e)).
      * destruct (IH (N.succ i) (tr ++ [chapter_invocation options i s e]))
          as (splits & Hs & Hall).
        exists (chapter_invocation options i s e :: splits).
        rewrite Hs, <- app_assoc. split; [reflexivity|].
        constructor; [exact Hhere|].
        eapply Forall_impl; [|exact Hall].
        intros inv (j & s0 & e0 & Hj & ->). exists j, s0, e0. split; [lia|reflexivity].
      * exists [chapter_invocation options i s e]. split; [reflexivity|].
        constructor; [exact Hhere|constructor].
    + exists []. simpl. rewrite app_nil_r. auto.
Qed.

(** X12.  Nothing else is ever run: every invocation of a run is the metadata
    probe of the input file, the transcoding of the input file into the
    intermediate file, the chapter probe of the intermediate file, or the
    split of the intermediate file into the file of a chapter numbered
    from 1, with the programs of the tool directory. *)
Theorem convert_invocations (options : Options) (w : World) (inv : Invocation) :
  In inv (snd (convert options w [])) ->
  inv = metainfo_invocation (pipeline_ffmpeg options) (input options)
  \/ inv = transcode_invocation (tool options) (lit "11bb9604") (input options)
             temp_name
  \/ inv = chapters_invocation (pipeline_ffmpeg options) temp_name
  \/ exists (j : N) (s e : float),
       (1 <= j)%N
       /\ inv = split_invocation (tool options) temp_name
                  (path_str (truediv (Path (out_path options))
                               (chapter_filename j (title options))))
                  (format_6f s) (format_6f (chapter_duration s e))
                  (chapter_file_title j (title options)).
Proof.
  intros Hin.
  assert (Hshape : exists k splits,
             snd (convert options w []) = firstn k (pipeline_prelude options) ++ splits
             /\ Forall (fun inv => exists (j : N) (s e : float),
                          (1 <= j)%N /\ inv = chapter_invocation options j s e) splits).
  { rewrite convert_eq.
    destruct (mkdir w _); [|exists 0%nat, []; split; [reflexivity|constructor]].
    destruct (fst (get_metainfo _ _ w []));
      [|exists 1%nat, []; split; [reflexivity|constructor]].
    destruct (spawn w _ _); [|exists 2%nat, []; split; [reflexivity|constructor]].
    destruct (fst (get_chapters _ _ w _)) as [chapters|e];
      [|exists 3%nat, []; split; [reflexivity|constructor]].
    destruct (py_iter chapters) as [items|e];
      [|exists 3%nat, []; split; [reflexivity|constructor]].
    destruct (for_each_chapter_invocations options w items 1 (pipeline_prelude options))
      as (splits & Hs & Hall).
    exists 3%nat, splits. split; [exact Hs|exact Hall]. }
  destruct Hshape as (k & splits & Htr & Hall).
  rewrite Htr in Hin. apply in_app_or in Hin as [Hin|Hin].
  - apply In_prelude in Hin. tauto.
  - rewrite Forall_forall in Hall. destruct (Hall inv Hin) as (j & s & e & Hj & ->).
    right. right. right. exists j, s, e. split; [exact Hj|reflexivity].
Qed.

Lemma convert_invocations_witness :
  let inv := transcode_invocation (lit "/usr/bin") (lit "11bb9604") (lit "book.aax")
               temp_name in
  In inv (snd (convert Sample.options Sample.failed_probe_world []))
  /\ (inv = metainfo_invocation (pipeline_ffmpeg Sample.options) (input Sample.options)
      \/ inv = transcode_invocation (tool Sample.options) (lit "11bb9604")
                 (input Sample.options) temp_name
      \/ inv = chapters_invocation (pipeline_ffmpeg Sample.options) temp_name
      \/ exists (j : N) (s e : float),
           (1 <= j)%N
           /\ inv = split_invocation (tool Sample.options) temp_name
                      (path_str (truediv (Path (out_path Sample.options))
                                   (chapter_filename j (title Sample.options))))
                      (format_6f s) (format_6f (chapter_duration s e))
                      (chapter_file_title j (title Sample.options))).
Proof.
  intros inv.
  assert (H : In inv (snd (convert Sample.options Sample.failed_probe_world []))).
  { right. left. reflexivity. }
  split; [exact H|].
  exact (convert_invocations Sample.options Sample.failed_probe_world inv H).
Defined.

(** * The text of a duration *)

Lemma unsigned_fixed6_fixed6 (n : N) : unsigned_fixed6 (fixed6 n) = true.
Proof.
  unfold fixed6.
  set (d := zfill 7 (str_of_N n)).
  assert (Hlen : (7 <= length d)%nat) by apply length_zfill.
  assert (Hd : all_digits d = true)
    by apply all_digits_zfill, all_digits_str_of_uint.
  apply unsigned_fixed6_intro.
  - intros E. apply (f_equal (@length N)) in E.
    rewrite length_firstn in E. simpl in E. lia.
  - apply forallb_firstn, Hd.
  - apply forallb_skipn, Hd.
  - rewrite length_skipn. lia.
Qed.

(** X13.  The duration argument of a split never has a minus sign and is never
    [nan]: it is digits, a point and six digits, or [inf]. *)
Theorem chapter_duration_text (start end_ : float) :
  unsigned_fixed6 (format_6f (chapter_duration start end_)) = true
  \/ format_6f (chapter_duration start end_) = lit "inf".
Proof.
  unfold chapter_duration, py_max.
  destruct (fltb fzero (fsub end_ start)) eqn:E.
  - destruct (fsub end_ start) as [s|s| |s m e]; try discriminate E.
    + destruct s; [discriminate E|]. right. reflexivity.
    + destruct s; [discriminate E|]. left. apply unsigned_fixed6_fixed6.
  - left. apply (unsigned_fixed6_fixed6 0).
Qed.

(** * The command line *)

(** X14.  The base output name reaches a run only as the title used when no
    title is given: without a title the run is that of the base name given
    as the title, with a title two base names give the same run, and
    without one two base names can give different runs. *)
Theorem main_uses_output_as_default_title
  (input directory output tool : str) :
  main input directory output None tool
  = main input directory output (Some output) tool
  /\ (forall (t output' : str),
        main input directory output (Some t) tool
        = main input directory output' (Some t) tool)
  /\ exists w : World,
       main (lit "book.aax") (lit "out") (lit "a") None (lit "/usr/bin") w []
       <> main (lit "book.aax") (lit "out") (lit "b") None (lit "/usr/bin") w [].
Proof.
  split; [reflexivity|]. split; [intros t output'; reflexivity|].
  exists (Sample.chapters_world Sample.three_chapters).
  intros E. apply (f_equal snd) in E. vm_compute in E. discriminate E.
Qed.

(** * Decoding what a child process writes *)

(** A step of the decoder leaves a part of what follows the first byte. *)
Lemma decode_step_rest (ch : N) (r : bytes) :
  (length (snd (decode_step ch r)) <= length r)%nat.
Proof.
  unfold decode_step.
  repeat match goal with
    | |- context [if ?b then _ else _] => destruct b
    | |- context [match ?l with [] => _ | _ :: _ => _ end] => destruct l
    end; simpl; lia.
Qed.

(** Fuel above the number of bytes changes nothing. *)
Lemma decode_fuel_enough (fuel : nat) :
  forall s : bytes, (length s <= fuel)%nat -> decode_fuel fuel s = decode s.
Proof.
  unfold decode.
  induction fuel as [fuel IH] using lt_wf_ind. intros s Hs.
  destruct s as [|ch r]; [destruct fuel; reflexivity|].
  destruct fuel as [|f]; [simpl in Hs; lia|].
  cbn [length decode_fuel].
  pose proof (decode_step_rest ch r) as Hr.
  destruct (decode_step ch r) as [c rest]. simpl in Hr. f_equal.
  rewrite (IH f) by (simpl in Hs; lia).
  rewrite (IH (length r)) by (simpl in Hs; lia).
  reflexivity.
Qed.

Lemma decode_cons (ch : N) (r : bytes) :
  decode (ch :: r) = fst (decode_step ch r) :: decode (snd (decode_step ch r)).
Proof.
  unfold decode at 1. cbn [length decode_fuel].
  pose proof (decode_step_rest ch r) as Hr.
  destruct (decode_step ch r) as [c rest]. simpl in *.
  rewrite decode_fuel_enough by exact Hr. reflexivity.
Qed.

Ltac decide_tests :=
  repeat match goal with
    | |- context [(?a <? ?b)%N] =>
        first [ replace (a <? b)%N with true by (symmetry; apply N.ltb_lt; lia)
              | replace (a <? b)%N with false by (symmetry; apply N.ltb_ge; lia) ]
    | |- context [(?a <=? ?b)%N] =>
        first [ replace (a <=? b)%N with true by (symmetry; apply N.leb_le; lia)
              | replace (a <=? b)%N with false by (symmetry; apply N.leb_gt; lia) ]
    | |- context [(?a =? ?b)%N] =>
        first [ replace (a =? b)%N with true by (symmetry; apply N.eqb_eq; lia)
              | replace (a =? b)%N with false by (symmetry; apply N.eqb_neq; lia) ]
    end;
  cbn [andb orb negb].

Lemma is_scalar_bounds (c : N) :
  is_scalar c = true -> ((c < 55296 \/ 57344 <= c) /\ c < 1114112)%N.
Proof.
  unfold is_scalar. intros H. apply orb_true_iff in H as [H|H].
  - apply N.ltb_lt in H. lia.
  - apply andb_true_iff in H as [H1 H2].
    apply N.leb_le in H1. apply N.ltb_lt in H2. lia.
Qed.

(** The decoder reads the encoding of a character back, whatever
    follows. *)
Lemma decode_step_encode_char (c : N) (rest : bytes) :
  is_scalar c = true ->
  exists ch r,
    encode_char c ++ rest = ch :: r /\ decode_step ch r = (c, rest).
Proof.
  intros Hc. apply is_scalar_bounds in Hc as [Hs Hmax].
  pose proof (N.div_mod c 64 ltac:(lia)) as H0.
  pose proof (N.div_mod (c / 64) 64 ltac:(lia)) as H1.
  pose proof (N.div_mod (c / 4096) 64 ltac:(lia)) as H2.
  assert (E1 : (c / 64 / 64 = c / 4096)%N) by (rewrite N.Div0.div_div; reflexivity).
  assert (E2 : (c / 4096 / 64 = c / 262144)%N) by (rewrite N.Div0.div_div; reflexivity).
  rewrite E1 in H1. rewrite E2 in H2. clear E1 E2.
  assert (M0 : (c mod 64 < 64)%N) by (apply N.mod_lt; lia).
  assert (M1 : ((c / 64) mod 64 < 64)%N) by (apply N.mod_lt; lia).
  assert (M2 : ((c / 4096) mod 64 < 64)%N) by (apply N.mod_lt; lia).
  unfold encode_char.
  set (m0 := (c mod 64)%N) in *. set (m1 := ((c / 64) mod 64)%N) in *.
  set (m2 := ((c / 4096) mod 64)%N) in *.
  set (q1 := (c / 64)%N) in *. set (q2 := (c / 4096)%N) in *.
  set (q3 := (c / 262144)%N) in *.
  clearbody m0 m1 m2 q1 q2 q3.
  destruct (N.ltb_spec c 128).
  { exists c, rest. split; [reflexivity|]. unfold decode_step. decide_tests.
    reflexivity. }
  destruct (N.ltb_spec c 2048).
  { eexists _, _. split; [reflexivity|]. unfold decode_step, is_continuation.
    decide_tests. f_equal. lia. }
  destruct (N.ltb_spec c 65536).
  { eexists _, _. split; [reflexivity|]. unfold decode_step, is_continuation.
    decide_tests.
    destruct (N.ltb_spec (128 + m1) 160); decide_tests; f_equal; lia. }
  eexists _, _. split; [reflexivity|]. unfold decode_step, is_continuation.
  decide_tests.
  destruct (N.ltb_spec (128 + m2) 144); decide_tests; f_equal; lia.
Qed.

Lemma decode_encode_app (s : str) (rest : bytes) :
  forallb is_scalar s = true -> decode (encode s ++ rest) = s ++ decode rest.
Proof.
  induction s as [|c s IH]; [reflexivity|].
  intros H. simpl in H. apply andb_true_iff in H as [Hc Hs].
  unfold encode. cbn [flat_map]. fold (encode s). rewrite <- app_assoc.
  destruct (decode_step_encode_char c (encode s ++ rest) Hc) as (ch & r & E & Hstep).
  rewrite E, decode_cons, Hstep. cbn [fst snd app]. f_equal. exact (IH Hs).
Qed.

(** Bytes that are the UTF-8 encoding of a text without surrogates decode
    to that text. *)
Lemma decode_encode_id (s : str) :
  forallb is_scalar s = true -> decode (encode s) = s.
Proof.
  intros H. rewrite <- (app_nil_r (encode s)), decode_encode_app by exact H.
  apply app_nil_r.
Qed.

(** * The capture of a stream *)

Lemma pump_bytes_reads (stream : StreamReader) (prefix : str) :
  Forall (fun line => line <> []) stream ->
  forall (rest : StreamReader) (results : list str),
    pump_bytes stream prefix results = results ++ map decode stream
    /\ pump_bytes (stream ++ [] :: rest) prefix results
       = results ++ map decode stream.
Proof.
  induction 1 as [|line stream Hline _ IH]; intros rest results.
  - simpl. rewrite app_nil_r. auto.
  - cbn [app pump_bytes map].
    destruct line; [exfalso; apply Hline; reflexivity|]. cbn [is_empty].
    destruct (IH rest (results ++ [decode (n :: line)])) as [H1 H2].
    rewrite H1, H2, <- app_assoc. auto.
Qed.

(** X15.  The capture holds one text per read, in the order of the reads, after
    what the list held before; it ends at the first empty read, and the
    prefix plays no part. *)
Theorem pump_bytes_capture
  (stream rest : StreamReader) (prefix : str) (results : list str) :
  Forall (fun line => line <> []) stream ->
  pump_bytes stream prefix results = results ++ map decode stream
  /\ pump_bytes (stream ++ [] :: rest) prefix results = results ++ map decode stream.
Proof. intros H. apply pump_bytes_reads, H. Qed.

Lemma pump_bytes_capture_witness :
  pump_bytes ([lit "ab"; lit "c"] ++ [] :: [lit "d"]) (lit "STDOUT: ") [lit "x"]
  = [lit "x"] ++ map decode [lit "ab"; lit "c"].
Proof.
  apply (proj2 (pump_bytes_capture [lit "ab"; lit "c"] [lit "d"] (lit "STDOUT: ")
                  [lit "x"] ltac:(repeat constructor; discriminate))).
Defined.

Lemma join_nil_concat (l : list str) : join [] l = concat l.
Proof.
  induction l as [|a l IH]; [reflexivity|].
  destruct l as [|b l]; [simpl; rewrite app_nil_r; reflexivity|].
  change (join [] (a :: b :: l)) with (a ++ [] ++ join [] (b :: l)).
  rewrite IH. reflexivity.
Qed.

Lemma encode_nil (t : str) : t <> [] -> encode t <> [].
Proof.
  destruct t as [|c t]; [congruence|]. intros _.
  unfold encode. cbn [flat_map]. unfold encode_char.
  repeat match goal with |- context [if ?b then _ else _] => destruct b end;
    discriminate.
Qed.

(** X16.  When each read returns the encoding of a piece of text, the chapter
    probe decodes the pieces put together: the cutting of the output into
    reads does not matter as long as no character is cut. *)
Theorem get_chapters_from_bytes
  (self : Ffmpeg) (inp : str) (os : OS) (tr : list Invocation)
  (process : Process) (texts : list str) :
  launch os tr (chapters_invocation self inp) = Some process ->
  stdout process = map encode texts ->
  Forall (fun t => t <> [] /\ forallb is_scalar t = true) texts ->
  fst (get_chapters self inp (world_of_os os) tr)
  = rbind (json_decode (concat texts)) (fun res => py_getitem res (lit "chapters")).
Proof.
  intros Hl Hout Htexts. rewrite get_chapters_eq. cbn [fst].
  unfold world_of_os. cbn [spawn]. rewrite Hl. unfold run_process. rewrite Hout.
  assert (Hne : Forall (fun line => line <> []) (map encode texts)).
  { apply Forall_forall. intros line Hin.
    apply in_map_iff in Hin as (t & <- & Hin).
    rewrite Forall_forall in Htexts. apply encode_nil, (Htexts t Hin). }
  destruct (pump_bytes_reads (map encode texts) (lit "STDOUT: ") Hne [] []) as [-> _].
  simpl app. rewrite map_map.
  assert (Hd : map (fun t => decode (encode t)) texts = texts).
  { rewrite <- (map_id texts) at 2. apply map_ext_in. intros t Hin.
    rewrite Forall_forall in Htexts. apply decode_encode_id, (Htexts t Hin). }
  rewrite Hd, join_nil_concat. reflexivity.
Qed.

Lemma get_chapters_from_bytes_witness :
  fst (get_chapters (pipeline_ffmpeg Sample.options) temp_name
         (world_of_os (SampleOS.uniform_os SampleOS.listing_process)) [])
  = rbind (json_decode (concat SampleOS.listing_pieces))
      (fun res => py_getitem res (lit "chapters")).
Proof.
  apply (get_chapters_from_bytes (pipeline_ffmpeg Sample.options) temp_name
           (SampleOS.uniform_os SampleOS.listing_process) []
           SampleOS.listing_process SampleOS.listing_pieces);
    [reflexivity|reflexivity|].
  repeat constructor; discriminate.
Defined.

(** * A character cut by the end of a read *)

Lemma decode_continuations (q : bytes) :
  forallb is_continuation q = true ->
  forall rest : bytes, decode (q ++ rest) = repeat replacement (length q) ++ decode rest.
Proof.
  induction q as [|b q IH]; intros H rest; [reflexivity|].
  simpl in H. apply andb_true_iff in H as [Hb Hq].
  cbn [app length repeat]. rewrite decode_cons.
  assert (Hstep : decode_step b (q ++ rest) = (replacement, q ++ rest)).
  { unfold is_continuation in Hb. apply andb_true_iff in Hb as [H1 H2].
    apply N.leb_le in H1. apply N.leb_le in H2.
    unfold decode_step. decide_tests. reflexivity. }
  rewrite Hstep. cbn [fst snd]. f_equal. apply IH, Hq.
Qed.

Ltac uncons E :=
  lazymatch type of E with
  | _ :: _ = _ :: _ =>
      let Eh := fresh "Eh" in
      let Et := fresh "Et" in
      pose proof (f_equal (@hd N 0%N) E) as Eh;
      pose proof (f_equal (@tl N) E) as Et;
      cbn [hd tl app] in Eh, Et; clear E;
      match type of Eh with _ = ?b => subst b end;
      uncons Et
  | _ = ?q => subst q
  end.

(** The two parts of an encoding that is cut: the first decodes to one
    replacement character, the second is made of continuation bytes. *)
Lemma encode_char_cut (c : N) (p q : bytes) :
  is_scalar c = true -> encode_char c = p ++ q -> p <> [] -> q <> [] ->
  decode p = [replacement] /\ forallb is_continuation q = true.
Proof.
  intros Hc. apply is_scalar_bounds in Hc as [Hs Hmax].
  pose proof (N.div_mod c 64 ltac:(lia)) as H0.
  pose proof (N.div_mod (c / 64) 64 ltac:(lia)) as H1.
  pose proof (N.div_mod (c / 4096) 64 ltac:(lia)) as H2.
  assert (E1 : (c / 64 / 64 = c / 4096)%N) by (rewrite N.Div0.div_div; reflexivity).
  assert (E2 : (c / 4096 / 64 = c / 262144)%N) by (rewrite N.Div0.div_div; reflexivity).
  rewrite E1 in H1. rewrite E2 in H2. clear E1 E2.
  assert (M0 : (c mod 64 < 64)%N) by (apply N.mod_lt; lia).
  assert (M1 : ((c / 64) mod 64 < 64)%N) by (apply N.mod_lt; lia).
  assert (M2 : ((c / 4096) mod 64 < 64)%N) by (apply N.mod_lt; lia).
  unfold encode_char.
  set (m0 := (c mod 64)%N) in *. set (m1 := ((c / 64) mod 64)%N) in *.
  set (m2 := ((c / 4096) mod 64)%N) in *.
  set (q1 := (c / 64)%N) in *. set (q2 := (c / 4096)%N) in *.
  set (q3 := (c / 262144)%N) in *.
  clearbody m0 m1 m2 q1 q2 q3.
  intros E Hp Hq.
  destruct p as [|b1 p]; [exfalso; apply Hp; reflexivity|]. clear Hp.
  cbn [app] in E.
  destruct (N.ltb_spec c 128).
  { destruct p; [|destruct p; discriminate E]. destruct q; [|discriminate E].
    exfalso. apply Hq. reflexivity. }
  destruct (N.ltb_spec c 2048).
  { destruct p as [|b2 p].
    - uncons E. split.
      + rewrite decode_cons. unfold decode_step. decide_tests. reflexivity.
      + unfold is_continuation. cbn [forallb]. decide_tests. reflexivity.
    - destruct p; [|destruct p; discriminate E]. destruct q; [|discriminate E].
      exfalso. apply Hq. reflexivity. }
  destruct (N.ltb_spec c 65536).
  { destruct p as [|b2 p]; [|destruct p as [|b3 p]].
    - uncons E. split.
      + rewrite decode_cons. unfold decode_step. decide_tests. reflexivity.
      + unfold is_continuation. cbn [forallb]. decide_tests. reflexivity.
    - uncons E. split.
      + rewrite decode_cons. unfold decode_step, is_continuation. decide_tests.
        destruct (N.ltb_spec (128 + m1) 160); decide_tests; reflexivity.
      + unfold is_continuation. cbn [forallb]. decide_tests. reflexivity.
    - destruct p; [|destruct p; discriminate E]. destruct q; [|discriminate E].
      exfalso. apply Hq. reflexivity. }
  destruct p as [|b2 p]; [|destruct p as [|b3 p]; [|destruct p as [|b4 p]]].
  - uncons E. split.
    + rewrite decode_cons. unfold decode_step. decide_tests. reflexivity.
    + unfold is_continuation. cbn [forallb]. decide_tests. reflexivity.
  - uncons E. split.
    + rewrite decode_cons. unfold decode_step, is_continuation. decide_tests.
      destruct (N.ltb_spec (128 + m2) 144); decide_tests; reflexivity.
    + unfold is_continuation. cbn [forallb]. decide_tests. reflexivity.
  - uncons E. split.
    + rewrite decode_cons. unfold decode_step, is_continuation. decide_tests.
      destruct (N.ltb_spec (128 + m2) 144); decide_tests; reflexivity.
    + unfold is_continuation. cbn [forallb]. decide_tests. reflexivity.
  - destruct p; [|destruct p; discriminate E]. destruct q; [|discriminate E].
    exfalso. apply Hq. reflexivity.
Qed.

(** X17.  A character whose bytes arrive in two reads is lost: where one read
    gives the character between the texts before and after it, two reads
    give one replacement character for the bytes of the first read and one
    for each byte of the second. *)
Theorem pump_bytes_cut_character
  (before after_ : str) (c : N) (p q : bytes) (prefix : str) :
  forallb is_scalar before = true -> forallb is_scalar after_ = true ->
  is_scalar c = true ->
  encode_char c = p ++ q -> p <> [] -> q <> [] ->
  join [] (pump_bytes [encode (before ++ c :: after_)] prefix [])
  = before ++ c :: after_
  /\ join [] (pump_bytes [encode before ++ p; q ++ encode after_] prefix [])
     = before ++ repeat replacement (1 + length q) ++ after_.
Proof.
  intros Hb Ha Hc E Hp Hq.
  destruct (encode_char_cut c p q Hc E Hp Hq) as [Hdp Hcont].
  rewrite !join_nil_concat. split.
  - assert (Hne : encode (before ++ c :: after_) <> []).
    { apply encode_nil. destruct before; discriminate. }
    destruct (pump_bytes_reads [encode (before ++ c :: after_)] prefix
                ltac:(repeat constructor; exact Hne) [] []) as [-> _].
    cbn [map app concat]. rewrite app_nil_r. apply decode_encode_id.
    rewrite forallb_app. cbn [forallb]. rewrite Hb, Hc, Ha. reflexivity.
  - assert (H1 : encode before ++ p <> []).
    { intros H. apply app_eq_nil in H as [_ H]. exact (Hp H). }
    assert (H2 : q ++ encode after_ <> []).
    { intros H. apply app_eq_nil in H as [H _]. exact (Hq H). }
    destruct (pump_bytes_reads [encode before ++ p; q ++ encode after_] prefix
                ltac:(repeat constructor; assumption) [] []) as [-> _].
    cbn [map app concat]. rewrite app_nil_r.
    rewrite (decode_encode_app before p Hb), Hdp.
    rewrite (decode_continuations q Hcont), (decode_encode_id after_ Ha).
    rewrite <- !app_assoc. reflexivity.
Qed.

Lemma pump_bytes_cut_character_witness :
  join [] (pump_bytes [encode (lit "5 " ++ SampleOS.euro :: lit "!")] (lit "STDOUT: ") [])
  = lit "5 " ++ SampleOS.euro :: lit "!"
  /\ join [] (pump_bytes [encode (lit "5 ") ++ [226%N]; [130%N; 172%N] ++ encode (lit "!")]
                (lit "STDOUT: ") [])
     = lit "5 " ++ repeat replacement (1 + length [130%N; 172%N]) ++ lit "!".
Proof.
  apply (pump_bytes_cut_character (lit "5 ") (lit "!") SampleOS.euro
           [226%N] [130%N; 172%N] (lit "STDOUT: "));
    [reflexivity|reflexivity|reflexivity|reflexivity|discriminate|discriminate].
Defined.

(** * What a run ignores of its child processes *)

Lemma seen_of_stdout (os1 os2 : OS) (tr : list Invocation) (inv : Invocation) :
  option_map stdout (launch os1 tr inv) = option_map stdout (launch os2 tr inv) ->
  seen inv (spawn (world_of_os os1) tr inv) = seen inv (spawn (world_of_os os2) tr inv).
Proof.
  unfold world_of_os. cbn [spawn]. unfold run_process.
  destruct (launch os1 tr inv) as [p1|], (launch os2 tr inv) as [p2|];
    cbn [option_map]; intros H; try discriminate H; [|reflexivity].
  injection H as H. cbn [seen]. rewrite H. reflexivity.
Qed.

(** X18.  The error stream and the exit status of every child process are
    ignored: two systems that start the same programs with the same
    standard output, and make the same directories, give the same run. *)
Theorem convert_ignores_stderr_and_status (options : Options) (os1 os2 : OS) :
  (forall tr inv,
      option_map stdout (launch os1 tr inv) = option_map stdout (launch os2 tr inv)) ->
  (forall p, make_dirs os1 p = make_dirs os2 p) ->
  convert options (world_of_os os1) [] = convert options (world_of_os os2) [].
Proof.
  intros Hout Hdirs.
  apply (convert_same_seen (world_of_os os1) (world_of_os os2)).
  - intros tr inv. apply seen_of_stdout, Hout.
  - apply Hdirs.
Qed.

Lemma convert_ignores_stderr_and_status_witness :
  convert Sample.options (world_of_os (SampleOS.uniform_os SampleOS.listing_process)) []
  = convert Sample.options
      (world_of_os (SampleOS.uniform_os SampleOS.complaining_process)) [].
Proof.
  apply (convert_ignores_stderr_and_status Sample.options
           (SampleOS.uniform_os SampleOS.listing_process)
           (SampleOS.uniform_os SampleOS.complaining_process));
    [intros tr inv; reflexivity|intros p; reflexivity].
Defined.
